(** * Referral attribution and analytics rollup: a shallow embedding

    The development follows the layout of the backend:
    - [Js]: the few JavaScript string and number primitives the code relies on;
    - [Partner]: [models/Partner.js] (referral codes, ledger counters,
      conversion rate);
    - [Contact]: [models/Contact.js] (the lead record);
    - [Analytics]: [models/Analytics.js] (event log and daily rollup);
    - [Db]: the document store shared by the request handlers, as a state and
      exception monad in which every persistence call may throw;
    - [ContactController], [AnalyticsController]: the request handlers.

    Numbers that the code only ever increments from zero are [N]; quotients
    and percentages are doubles, kept as the rationals they denote; instants
    are [Z] milliseconds since the epoch; JavaScript strings are [string]. *)

From Stdlib Require Import ZArith QArith Qround Qpower Lqa String Ascii List Lia.
From stdpp Require Import base gmap strings list sets sorting pretty.
Import ListNotations.

Open Scope string_scope.
Open Scope Z_scope.

(** ** JavaScript primitives *)

Module Js.

(** Code units in [A-Z], [a-z] and [0-9]. *)
Definition isUpper (c : ascii) : bool :=
  let n := nat_of_ascii c in ((65 <=? n) && (n <=? 90))%nat.

Definition isLower (c : ascii) : bool :=
  let n := nat_of_ascii c in ((97 <=? n) && (n <=? 122))%nat.

Definition isDigit (c : ascii) : bool :=
  let n := nat_of_ascii c in ((48 <=? n) && (n <=? 57))%nat.

(** The character class [[a-zA-Z0-9]]. *)
Definition isAlnum (c : ascii) : bool := isUpper c || isLower c || isDigit c.

(** The character class [[A-Z0-9]]. *)
Definition isUpperAlnum (c : ascii) : bool := isUpper c || isDigit c.

(** The digits of [Number.prototype.toString(36)]: [[0-9a-z]]. *)
Definition isBase36Digit (c : ascii) : bool := isDigit c || isLower c.

(** The code units below 128. On strings made of them the functions of
    this module are those of JavaScript; [toUpperCase] and [trim] also change
    characters outside of them. *)
Definition isAscii (c : ascii) : bool := (nat_of_ascii c <? 128)%nat.

(** White space and line terminators among them: tab, line feed, vertical
    tab, form feed, carriage return and space. *)
Definition isWhitespace (c : ascii) : bool :=
  let n := nat_of_ascii c in ((9 <=? n) && (n <=? 13) || (n =? 32))%nat.

Fixpoint trimStart (s : string) : string :=
  match s with
  | EmptyString => EmptyString
  | String c r => if isWhitespace c then trimStart r else s
  end.

Fixpoint trimEnd (s : string) : string :=
  match s with
  | EmptyString => EmptyString
  | String c r =>
      match trimEnd r with
      | EmptyString => if isWhitespace c then EmptyString else String c EmptyString
      | r' => String c r'
      end
  end.

(** [s.trim()], which is also what [trim: true] of a schema applies to a
    string that is set. *)
Definition trim (s : string) : string := trimEnd (trimStart s).

Definition toUpperChar (c : ascii) : ascii :=
  if isLower c then ascii_of_nat (nat_of_ascii c - 32) else c.

(** [s.toUpperCase()]; only the letters [a-z] are affected, which is what
    JavaScript does on the strings that reach the calls modelled here. *)
Fixpoint toUpperCase (s : string) : string :=
  match s with
  | EmptyString => EmptyString
  | String c r => String (toUpperChar c) (toUpperCase r)
  end.

(** [s.replace(/[^a-zA-Z0-9]/g, '')]. *)
Fixpoint stripNonAlnum (s : string) : string :=
  match s with
  | EmptyString => EmptyString
  | String c r => if isAlnum c then String c (stripNonAlnum r) else stripNonAlnum r
  end.

(** [s.substring(a, b)] for [a <= b]; both ends are clamped to the length. *)
Definition substring (a b : nat) (s : string) : string :=
  String.substring a (b - a) s.

(** [s.replace('/', '')]: a string pattern replaces the first occurrence
    only. *)
Fixpoint removeFirstSlash (s : string) : string :=
  match s with
  | EmptyString => EmptyString
  | String c r => if Ascii.eqb c "/" then r else String c (removeFirstSlash r)
  end.

Fixpoint allChars (f : ascii -> bool) (s : string) : bool :=
  match s with
  | EmptyString => true
  | String c r => f c && allChars f r
  end.

(** Truthiness of a possibly absent string: [undefined], [null] and [''] are
    falsy. *)
Definition truthy (o : option string) : bool :=
  match o with
  | Some s => negb (String.eqb s "")
  | None => false
  end.

(** JavaScript numbers are IEEE-754 doubles. A double is kept as the
    rational it denotes, and every arithmetic operation of the code is the
    exact operation followed by [double], the rounding to the nearest double
    with 53 significant bits, a tie going to the even significand. The
    exponent is not bounded: the model is the code's arithmetic for
    magnitudes in the normal range, from [2^-1022] up to [2^1024], which is
    where quotients of counters below [2^53] and their percentages lie. *)
Definition pow2 (e : Z) : Q := Qpower (2 # 1) e.

Definition roundHalfEven (q : Q) : Z :=
  let f := Qfloor q in
  match Qcompare (q - inject_Z f) (1 # 2) with
  | Lt => f
  | Gt => f + 1
  | Eq => if Z.even f then f else f + 1
  end.

(** For [0 < q]: the exponent [e] with [2^52 <= q / 2^e < 2^53] is found
    from the binary logarithms of numerator and denominator, and the
    significand [q / 2^e] is rounded to an integer. *)
Definition doublePos (q : Q) : Q :=
  let k := Z.log2 (Qnum q) - Z.log2 (Zpos (Qden q)) in
  let e0 := k - 52 in
  let e := if Qle_bool (inject_Z (2 ^ 52)) (q / pow2 e0) then e0 else e0 - 1 in
  inject_Z (roundHalfEven (q / pow2 e)) * pow2 e.

Definition double (q : Q) : Q :=
  match Qcompare q 0 with
  | Eq => 0
  | Gt => doublePos q
  | Lt => - doublePos (- q)
  end.

(** Half the distance between 1 and the next double, [2^-53]: the largest
    relative error of one rounding. *)
Definition epsilon : Q := 1 # (2 ^ 53).

(** [Number.MAX_SAFE_INTEGER]: up to it every integer is a double. *)
Definition maxSafeInteger : N := 2 ^ 53 - 1.

(** [(part / whole) * 100] for two counters, as JavaScript and the
    aggregation pipeline compute it: the quotient is rounded to a double,
    and so is its product with 100. *)
Definition percentOf (part whole : N) : Q :=
  double (double (inject_Z (Z.of_N part) / inject_Z (Z.of_N whole)) * 100)%Q.

(** [x.toFixed(2)] for a double [0 <= x], as the number of hundredths the
    resulting string spells: the integer [n] for which [n / 100] is nearest
    to the exact value of [x], the larger one on a tie (ECMA-262,
    Number.prototype.toFixed, step 10.a). *)
Definition toFixed2 (x : Q) : Z := Qfloor (x * 100 + (1 # 2)).

(** The names that [Object.prototype] defines. Read on a plain object
    [{}] that has no own property of that name, each gives an inherited
    function or, for [__proto__], the prototype itself: a truthy value that
    is not a number. *)
Definition objectPrototypeKeys : list string :=
  ["constructor"; "__defineGetter__"; "__defineSetter__"; "hasOwnProperty";
   "__lookupGetter__"; "__lookupSetter__"; "isPrototypeOf";
   "propertyIsEnumerable"; "toString"; "valueOf"; "__proto__";
   "toLocaleString"].

Definition inObjectPrototype (name : string) : bool :=
  existsb (String.eqb name) objectPrototypeKeys.

(** What the conversion-rate getter returns: a number, or the string made
    by [toFixed(2)], kept as its hundredths. *)
Inductive value : Type :=
| Num (q : Q)
| Fixed2 (hundredths : Z).

Definition twoDigits (n : Z) : string :=
  if n <? 10 then "0" ++ pretty n else pretty n.

(** The characters of a [toFixed(2)] string with [n >= 0] hundredths. *)
Definition renderFixed2 (n : Z) : string :=
  pretty (n / 100) ++ "." ++ twoDigits (n mod 100).

End Js.

(** ** models/Partner.js *)

Module Partner.

Inductive partnerType : Type := affiliate | influencer | vendor.

Record statsT : Type := mkStats {
  totalLeads : N;
  totalTours : N;
  totalBookings : N;
  lastActivityAt : Z
}.

(** A partner document. [code] is absent when the caller gave none and
    no hook has assigned one; a code that is present is in upper case, by
    the setter of the schema. *)
Record doc : Type := mkDoc {
  _id : nat;
  name : string;
  type : partnerType;
  email : string;
  code : option string;
  active : bool;
  stats : statsT
}.

Definition setCode (c : string) (p : doc) : doc :=
  mkDoc (_id p) (name p) (type p) (email p) (Some c) (active p) (stats p).

Definition setStats (s : statsT) (p : doc) : doc :=
  mkDoc (_id p) (name p) (type p) (email p) (code p) (active p) s.

Definition prefix : string := "TWBFL-".

(** The schema validator [/^TWBFL-[A-Z0-9]{4,10}$/.test(v)]. *)
Definition codeValidator (v : string) : bool :=
  String.prefix prefix v &&
  (let body := Js.substring 6 (String.length v) v in
   Js.allChars Js.isUpperAlnum body &&
   (4 <=? String.length body)%nat && (String.length body <=? 10)%nat).

(** [Math.random().toString(36).substring(2, 5).toUpperCase()], given the
    base-36 rendering [r] of the random number (["0.k3f9..."], or ["0"]). *)
Definition randomSuffix (r : string) : string :=
  Js.toUpperCase (Js.substring 2 5 r).

Definition cleanName (name : string) : string :=
  Js.substring 0 8 (Js.toUpperCase (Js.stripNonAlnum name)).

(** [generatePartnerCode(name)]; [r] is what [Math.random().toString(36)]
    returned for this call. *)
Definition generatePartnerCode (name r : string) : string :=
  prefix ++ cleanName name ++ randomSuffix r.

(** [this.constructor.findOne({ code: potentialCode })]. *)
Definition findOneByCode (existing : list doc) (c : string) : option doc :=
  List.find (fun p => bool_decide (code p = Some c)) existing.

Definition maxAttempts : nat := 10.

(** The [while (attempts < maxAttempts)] loop of the pre-save hook, unrolled
    on the number of attempts that remain. [rnd k] is the rendering of the
    random number drawn by the [k]-th attempt. *)
Fixpoint tryCodes (remaining attempts : nat) (rnd : nat -> string)
    (existing : list doc) (name : string) : option string :=
  match remaining with
  | O => None
  | S remaining' =>
      let potentialCode := generatePartnerCode name (rnd attempts) in
      match findOneByCode existing potentialCode with
      | None => Some potentialCode
      | Some _ => tryCodes remaining' (S attempts) rnd existing name
      end
  end.

Definition codeError : string := "Unable to generate unique partner code".

(** [partnerSchema.pre('save', ...)]: the document handed to the next
    middleware, or the error passed to [next]. *)
Definition preSave (rnd : nat -> string) (existing : list doc) (this : doc)
    : doc + string :=
  if negb (Js.truthy (code this)) && Js.truthy (Some (name this)) then
    match tryCodes maxAttempts 0 rnd existing (name this) with
    | Some c => inl (setCode c this)
    | None => inr codeError
    end
  else inl this.

(** The messages of the two validators of the [code] path: the one of
    [required: true], with the default text of Mongoose, and the one of the
    schema. *)
Definition requiredError : string := "Path `code` is required.".

Definition formatError : string := "Code must follow TWBFL-XXXXX format".

(** Validation of the [code] path. [required: true] asks for a string that
    is not empty; a value that is present must pass the validator. *)
Definition validateCode (this : doc) : option string :=
  match code this with
  | Some c =>
      if String.eqb c "" then Some requiredError
      else if codeValidator c then None else Some formatError
  | None => Some requiredError
  end.

(** How [doc.save()] ends, as far as the [code] path decides it: with the
    document that goes to the collection, with the [ValidationError] that
    carries the message for [code], or with the error that a hook passed to
    [next]. *)
Inductive saveResult : Type :=
| Saved (d : doc)
| ValidationError (message : string)
| HookError (message : string).

(** [doc.save()] up to the write. Mongoose validates the document in a
    [pre('save')] hook of its own that is registered before those of the
    schema, so the hook above runs only for a document that passed
    validation, and what it assigns is not validated again. *)
Definition save (rnd : nat -> string) (existing : list doc) (this : doc)
    : saveResult :=
  match validateCode this with
  | Some message => ValidationError message
  | None =>
      match preSave rnd existing this with
      | inl d => Saved d
      | inr e => HookError e
      end
  end.

(** [Partner.create({ name, type, email, social, phone, notes })] as
    [createPartner] calls it: the new document has no code, and [active]
    and the counters have the defaults of the schema. *)
Definition create (rnd : nat -> string) (existing : list doc) (id : nat)
    (name : string) (type : partnerType) (email : string) (now : Z)
    : saveResult :=
  save rnd existing (mkDoc id name type email None true (mkStats 0 0 0 now)).

(** [partnerSchema.virtual('conversionRate')]. *)
Definition conversionRate (this : doc) : Js.value :=
  if (totalLeads (stats this) =? 0)%N then Js.Num 0
  else Js.Fixed2 (Js.toFixed2
         (Js.percentOf (totalBookings (stats this)) (totalLeads (stats this)))).

Inductive statKind : Type := lead | tour | booking.

(** The in-memory part of [updateStats(type)]: the [switch] and the
    [lastActivityAt] stamp. *)
Definition bumpStats (k : statKind) (now : Z) (this : doc) : doc :=
  let s := stats this in
  let s' :=
    match k with
    | lead => mkStats (totalLeads s + 1) (totalTours s) (totalBookings s) (lastActivityAt s)
    | tour => mkStats (totalLeads s) (totalTours s + 1) (totalBookings s) (lastActivityAt s)
    | booking => mkStats (totalLeads s) (totalTours s) (totalBookings s + 1) (lastActivityAt s)
    end in
  setStats (mkStats (totalLeads s') (totalTours s') (totalBookings s') now) this.

End Partner.

(** ** models/Contact.js *)

Module Contact.

Inductive statusT : Type := new | read | replied | archived.

(** The lead record. Only the fields the handlers below read or write are
    kept apart; the remaining form fields travel together in [fields]. *)
Record doc : Type := mkDoc {
  _id : nat;
  fields : list (string * string);
  status : statusT;
  refSource : option Partner.partnerType;
  refCode : option string;
  tourScheduled : bool;
  tourDate : option Z;
  booked : bool;
  bookingDate : option Z;
  bookingAmount : option Q
}.

Definition setStatus (s : statusT) (c : doc) : doc :=
  mkDoc (_id c) (fields c) s (refSource c) (refCode c) (tourScheduled c)
        (tourDate c) (booked c) (bookingDate c) (bookingAmount c).

Definition setTourScheduled (b : bool) (c : doc) : doc :=
  mkDoc (_id c) (fields c) (status c) (refSource c) (refCode c) b
        (tourDate c) (booked c) (bookingDate c) (bookingAmount c).

Definition setTourDate (d : Z) (c : doc) : doc :=
  mkDoc (_id c) (fields c) (status c) (refSource c) (refCode c) (tourScheduled c)
        (Some d) (booked c) (bookingDate c) (bookingAmount c).

Definition setBooked (b : bool) (c : doc) : doc :=
  mkDoc (_id c) (fields c) (status c) (refSource c) (refCode c) (tourScheduled c)
        (tourDate c) b (bookingDate c) (bookingAmount c).

Definition setBookingDate (d : Z) (c : doc) : doc :=
  mkDoc (_id c) (fields c) (status c) (refSource c) (refCode c) (tourScheduled c)
        (tourDate c) (booked c) (Some d) (bookingAmount c).

Definition setBookingAmount (a : Q) (c : doc) : doc :=
  mkDoc (_id c) (fields c) (status c) (refSource c) (refCode c) (tourScheduled c)
        (tourDate c) (booked c) (bookingDate c) (Some a).

End Contact.

(** ** models/Analytics.js *)

Module Analytics.

Inductive eventType : Type :=
| page_view | contact_form | gallery_view | review_submission | admin_login.

#[global] Instance eventType_eq_dec : EqDecision eventType.
Proof. solve_decision. Defined.

Definition typeName (t : eventType) : string :=
  match t with
  | page_view => "page_view"
  | contact_form => "contact_form"
  | gallery_view => "gallery_view"
  | review_submission => "review_submission"
  | admin_login => "admin_login"
  end.

(** An event-log document. An absent [page] or [ipAddress] is [None]. *)
Record event : Type := mkEvent {
  type : eventType;
  page : option string;
  userAgent : option string;
  ipAddress : option string;
  referrer : option string;
  sessionId : option string;
  createdAt : Z
}.

Definition msPerDay : Z := 86400000.

(** [setHours(0, 0, 0, 0)] and [setHours(23, 59, 59, 999)] on a copy of
    [date], for a server whose local time is UTC shifted by [tz]
    milliseconds. *)
Definition startOfDay (tz date : Z) : Z := date - (date + tz) mod msPerDay.
Definition endOfDay (tz date : Z) : Z := startOfDay tz date + (msPerDay - 1).

(** The [$match] stage of the rollup. *)
Definition inDay (tz date : Z) (e : event) : bool :=
  (startOfDay tz date <=? createdAt e) && (createdAt e <=? endOfDay tz date).

(** The [_id] of the [$group] stage: [{ type, page, ip }]. *)
Definition groupId : Type := eventType * option string * option string.

Definition idOf (e : event) : groupId := (type e, page e, ipAddress e).

Definition idType (k : groupId) : eventType := k.1.1.
Definition idPage (k : groupId) : option string := k.1.2.
Definition idIp (k : groupId) : option string := k.2.

(** [{ $group: { _id: <key>, count: { $sum: 1 } } }]: one row per distinct
    [_id], here in order of first occurrence, with the number of documents
    carrying it. *)
Definition groupCountBy {K : Type} `{EqDecision K} (key : event -> K)
    (docs : list event) : list (K * N) :=
  map (fun k => (k, N.of_nat (length (filter (fun e => key e = k) docs))))
      (remove_dups (map key docs)).

Definition groupCount (docs : list event) : list (groupId * N) :=
  groupCountBy idOf docs.

Definition aggregateDay (tz date : Z) (log : list event) : list (groupId * N) :=
  groupCount (filter (fun e => inDay tz date e = true) log).

(** The object literal [statsUpdate]. *)
Record statsUpdateT : Type := mkStatsUpdate {
  date : Z;
  visitors_unique : N;
  visitors_total : N;
  pageViews_total : N;
  pageViews_byPage : gmap string N;
  contactForms : N;
  galleryViews : N;
  reviews : N
}.

Definition pageNameOf (p : string) : string :=
  let stripped := Js.removeFirstSlash p in
  if String.eqb stripped "" then "home" else stripped.

(** One iteration of [dailyData.forEach]: the accumulator is the set
    [uniqueIPs] together with [statsUpdate].

    [statsUpdate.pageViews.byPage] starts as the plain object [{}], and
    [pageViews_byPage] holds its numeric buckets. For a page name that
    [Object.prototype] defines, [byPage[pageName] || 0] is the inherited
    value and not 0, so the sum is a string: it is stored under that name as
    a string, to which later counts are appended, and the assignment to
    [__proto__] stores nothing. Such a name never has a numeric bucket. *)
Definition forEachStep (acc : gset string * statsUpdateT) (item : groupId * N)
    : gset string * statsUpdateT :=
  let '(uniqueIPs, su) := acc in
  let '(k, count) := item in
  let uniqueIPs' :=
    match idIp k with
    | Some ip => if Js.truthy (Some ip) then {[ ip ]} ∪ uniqueIPs else uniqueIPs
    | None => uniqueIPs
    end in
  let su' :=
    match idType k with
    | page_view =>
        let byPage :=
          match idPage k with
          | Some p =>
              if Js.truthy (Some p) then
                let pageName := pageNameOf p in
                if Js.inObjectPrototype pageName then pageViews_byPage su
                else
                  <[ pageName := (default 0 (pageViews_byPage su !! pageName) + count)%N ]>
                    (pageViews_byPage su)
              else pageViews_byPage su
          | None => pageViews_byPage su
          end in
        mkStatsUpdate (date su) (visitors_unique su) (visitors_total su)
          (pageViews_total su + count) byPage
          (contactForms su) (galleryViews su) (reviews su)
    | contact_form =>
        mkStatsUpdate (date su) (visitors_unique su) (visitors_total su)
          (pageViews_total su) (pageViews_byPage su)
          (contactForms su + count) (galleryViews su) (reviews su)
    | gallery_view =>
        mkStatsUpdate (date su) (visitors_unique su) (visitors_total su)
          (pageViews_total su) (pageViews_byPage su)
          (contactForms su) (galleryViews su + count) (reviews su)
    | review_submission =>
        mkStatsUpdate (date su) (visitors_unique su) (visitors_total su)
          (pageViews_total su) (pageViews_byPage su)
          (contactForms su) (galleryViews su) (reviews su + count)
    | admin_login => su
    end in
  (uniqueIPs', su').

Definition initialStats (startOfDay : Z) : statsUpdateT :=
  mkStatsUpdate startOfDay 0 0 0 ∅ 0 0 0.

(** The two assignments to [statsUpdate.visitors] after the loop. *)
Definition setVisitors (unique total : N) (su : statsUpdateT) : statsUpdateT :=
  mkStatsUpdate (date su) unique total
    (pageViews_total su) (pageViews_byPage su)
    (contactForms su) (galleryViews su) (reviews su).

(** [statsUpdate] as it stands just before the upsert. *)
Definition computeStats (tz date : Z) (log : list event) : statsUpdateT :=
  let dailyData := aggregateDay tz date log in
  let '(uniqueIPs, su) :=
    fold_left forEachStep dailyData (∅, initialStats (startOfDay tz date)) in
  setVisitors (N.of_nat (size uniqueIPs)) (N.of_nat (length dailyData)) su.



(** A daily-statistics document: [rolled] is the update that was last
    written for its date, as [updateDailyStats] computed it
    ([persistedByPage] is the part of its breakdown that the collection
    retains); then the three breakdowns of the schema that the rollup never
    writes. *)
Record siteStats : Type := mkSiteStats {
  rolled : statsUpdateT;
  devices : N * N * N;
  browsers : N * N * N * N * N;
  topReferrers : list (string * N)
}.

(** [findOneAndUpdate({ date }, statsUpdate, { upsert: true, new: true })]:
    the first document with that date has the fields of [statsUpdate] set,
    the others kept; without a match a document with the schema defaults is
    inserted. The result is the collection and the returned document. *)
Fixpoint findOneAndUpdate (su : statsUpdateT) (coll : list siteStats)
    : list siteStats * siteStats :=
  match coll with
  | [] =>
      let d := mkSiteStats su (0, 0, 0)%N (0, 0, 0, 0, 0)%N [] in
      ([d], d)
  | d :: rest =>
      if (date (rolled d) =? date su)%Z then
        let d' := mkSiteStats su (devices d) (browsers d) (topReferrers d) in
        (d' :: rest, d')
      else
        let '(rest', r) := findOneAndUpdate su rest in
        (d :: rest', r)
  end.

(** [siteStatsSchema.statics.updateDailyStats(date)]. *)
Definition updateDailyStats (tz date : Z) (log : list event)
    (coll : list siteStats) : list siteStats * siteStats :=
  findOneAndUpdate (computeStats tz date log) coll.

(** *** Vocabulary for the properties of the rollup *)

(** The dates for which the collection holds a document. *)
Definition storedDates (coll : list siteStats) : list Z :=
  map (fun d => date (rolled d)) coll.

(** The events of the day of [date]. *)
Definition eventsOfDay (tz date : Z) (log : list event) : list event :=
  filter (fun e => inDay tz date e = true) log.

(** How many of [docs] have an [_id] accepted by [f]. *)
Definition eventsWhere (f : groupId -> bool) (docs : list event) : N :=
  N.of_nat (length (filter (fun e => f (idOf e) = true) docs)).

(** The sum of the counts of the rows whose [_id] is accepted by [f]. *)
Definition sumWhere (f : groupId -> bool) (rows : list (groupId * N)) : N :=
  foldr (fun r acc => if f r.1 then (r.2 + acc)%N else acc) 0%N rows.

Definition isType (t : eventType) (k : groupId) : bool :=
  bool_decide (idType k = t).

(** A page view with a non-empty page whose bucket is [name]. *)
Definition onPage (name : string) (k : groupId) : bool :=
  bool_decide (idType k = page_view) &&
  match idPage k with
  | Some p => Js.truthy (Some p) && String.eqb (pageNameOf p) name
  | None => false
  end.



(** The address of an [_id], when it is one that [uniqueIPs] collects. *)
Definition countedIp (k : groupId) : option string :=
  match idIp k with
  | Some ip => if Js.truthy (Some ip) then Some ip else None
  | None => None
  end.

End Analytics.

(** ** The document store seen by the request handlers *)

Module Db.

(** The persistence calls the handlers make; each may throw. *)
Inductive op : Type :=
| PartnerFindOne | PartnerSave
| ContactFindById | ContactCreate | ContactSave
| AnalyticsCreate.

Record world : Type := mkWorld {
  partners : list Partner.doc;
  contacts : gmap nat Contact.doc;
  analytics : list Analytics.event;
  errorLog : list string;
  clock : Z;
  failing : op -> bool
}.

Definition setPartners (ps : list Partner.doc) (w : world) : world :=
  mkWorld ps (contacts w) (analytics w) (errorLog w) (clock w) (failing w).

Definition setContacts (cs : gmap nat Contact.doc) (w : world) : world :=
  mkWorld (partners w) cs (analytics w) (errorLog w) (clock w) (failing w).

Definition setAnalytics (es : list Analytics.event) (w : world) : world :=
  mkWorld (partners w) (contacts w) es (errorLog w) (clock w) (failing w).

Definition setErrorLog (l : list string) (w : world) : world :=
  mkWorld (partners w) (contacts w) (analytics w) l (clock w) (failing w).

Inductive result (A : Type) : Type :=
| Ok (a : A)
| Throw (e : string).
Arguments Ok {A} a.
Arguments Throw {A} e.

(** An [async] computation: it transforms the store and either returns or
    throws. *)
Definition M (A : Type) : Type := world -> world * result A.

Definition ret {A} (a : A) : M A := fun w => (w, Ok a).

Definition throw {A} (e : string) : M A := fun w => (w, Throw e).

Definition bind {A B} (m : M A) (k : A -> M B) : M B :=
  fun w =>
    match m w with
    | (w', Ok a) => k a w'
    | (w', Throw e) => (w', Throw e)
    end.

(** [try { m } catch (error) { h error }]. *)
Definition tryCatch {A} (m : M A) (h : string -> M A) : M A :=
  fun w =>
    match m w with
    | (w', Ok a) => (w', Ok a)
    | (w', Throw e) => h e w'
    end.

(** Runs [m] and hands its outcome, returned or thrown, to the caller. *)
Definition attempt {A} (m : M A) : M (result A) :=
  fun w => let '(w', r) := m w in (w', Ok r).

Definition guard (o : op) (e : string) : M unit :=
  fun w => if failing w o then (w, Throw e) else (w, Ok tt).

Definition get : M world := fun w => (w, Ok w).

Definition modify (f : world -> world) : M unit := fun w => (f w, Ok tt).

#[global] Instance M_ret : MRet M := @ret.
#[global] Instance M_bind : MBind M := fun A B k m => bind m k.

(** [console.error(...)]. *)
Definition consoleError (e : string) : M unit :=
  modify (fun w => setErrorLog (errorLog w ++ [e]) w).

(** [Partner.findByCode(code)]: [findOne({ code: code.toUpperCase(),
    active: true })]. *)
Definition findActiveByCode (ps : list Partner.doc) (code : string)
    : option Partner.doc :=
  List.find
    (fun p => bool_decide (Partner.code p = Some (Js.toUpperCase code))
              && Partner.active p)
    ps.

Definition Partner_findByCode (code : string) : M (option Partner.doc) :=
  guard PartnerFindOne "Partner.findOne failed";;
  w ← get;
  ret (findActiveByCode (partners w) code).

(** The collection after [p.save()]: the stored document with the
    identifier of [p] is replaced by [p]. *)
Definition savedPartners (p : Partner.doc) (ps : list Partner.doc)
    : list Partner.doc :=
  map (fun q => if (Partner._id q =? Partner._id p)%nat then p else q) ps.

(** [partner.save()] for a document that is already stored. *)
Definition Partner_save (p : Partner.doc) : M unit :=
  guard PartnerSave "Partner.save failed";;
  modify (fun w => setPartners (savedPartners p (partners w)) w).

(** [partner.updateStats(type)]. *)
Definition Partner_updateStats (p : Partner.doc) (k : Partner.statKind) : M unit :=
  w ← get;
  Partner_save (Partner.bumpStats k (clock w) p).

(** [Contact.findById(id)]. *)
Definition Contact_findById (id : nat) : M (option Contact.doc) :=
  guard ContactFindById "Contact.findById failed";;
  w ← get;
  ret (contacts w !! id).

(** [contact.save()]. The validators of the schema are not part of the
    model: the call is the one for a document that they admit (a negative
    [bookingAmount], which [min: 0] refuses, makes the real call throw). *)
Definition Contact_save (c : Contact.doc) : M unit :=
  guard ContactSave "Contact.save failed";;
  modify (fun w => setContacts (<[ Contact._id c := c ]> (contacts w)) w).

(** [Contact.create(data)]: the document is stored under an unused
    identifier; the fields without a value in [data] take the schema
    defaults. *)
Definition Contact_create (fields : list (string * string))
    (refSource : option Partner.partnerType) (refCode : option string)
    : M Contact.doc :=
  guard ContactCreate "Contact.create failed";;
  w ← get;
  let c := Contact.mkDoc (fresh (dom (contacts w))) fields Contact.new
             refSource refCode false None false None None in
  modify (setContacts (<[ Contact._id c := c ]> (contacts w)));;
  ret c.

(** [Analytics.trackPageView(data)]: [this.create({ type: 'page_view',
    ... })]. *)
Definition Analytics_trackPageView
    (page userAgent ipAddress referrer sessionId : option string)
    : M Analytics.event :=
  guard AnalyticsCreate "Analytics.create failed";;
  w ← get;
  let e := Analytics.mkEvent Analytics.page_view page userAgent ipAddress
             referrer sessionId (clock w) in
  modify (setAnalytics (analytics w ++ [e]));;
  ret e.

(** What a handler does with the request: a JSON response with a status, or
    an error handed to the error middleware through [next]. *)
Inductive body : Type :=
| ErrorMessage (message : string)
| ValidationFailed (errors : list string)
| Submitted (id : nat)
| ContactData (contact : Contact.doc)
| Message (message : string).

Inductive response : Type :=
| Json (status : nat) (b : body)
| Next (error : string).

(** [try { ... } catch (error) { next(error); }] around a handler body. *)
Definition orNext (m : M response) : M response :=
  tryCatch m (fun e => ret (Next e)).

(** [asyncHandler(fn)] of express-async-handler: a rejection of [fn] goes to
    [next]. *)
Definition asyncHandler (fn : M response) : M response :=
  tryCatch fn (fun e => ret (Next e)).

End Db.

(** ** controllers/contactController.js *)

Module ContactController.
Import Db.

(** The parts of a submission request the handler looks at:
    [validationResult(req)], the form fields, and [req.body.refCode]. *)
Record submitReq : Type := mkSubmitReq {
  validationErrors : list string;
  formFields : list (string * string);
  refCode : option string
}.

(** The [try]/[catch] around the partner lookup, await by await: [refSource]
    is assigned between the lookup and the counter update, so a failing
    update leaves it assigned. *)
Definition resolveReferral (refCode : string) : M (option Partner.partnerType) :=
  found ← attempt (Partner_findByCode refCode);
  match found with
  | Throw e => consoleError "Error looking up partner:";; mret None
  | Ok None => mret None
  | Ok (Some partner) =>
      let refSource := Some (Partner.type partner) in
      updated ← attempt (Partner_updateStats partner Partner.lead);
      match updated with
      | Throw e => consoleError "Error looking up partner:";; mret refSource
      | Ok _ => mret refSource
      end
  end.

(** [submitContactForm]. The two e-mails are started and not awaited, with
    their own [catch]; they cannot change the response. *)
Definition submitContactForm (req : submitReq) : M response :=
  orNext (
    match validationErrors req with
    | _ :: _ => mret (Json 400 (ValidationFailed (validationErrors req)))
    | [] =>
        refSource ←
          match refCode req with
          | Some rc => if Js.truthy (Some rc) then resolveReferral rc else mret None
          | None => mret None
          end;
        contact ←
          Contact_create (formFields req) refSource
            (match refCode req with
             | Some rc => if Js.truthy (Some rc) then Some (Js.toUpperCase rc) else None
             | None => None
             end);
        mret (Json 201 (Submitted (Contact._id contact)))
    end).

(** [getContactSubmission]. *)
Definition getContactSubmission (id : nat) : M response :=
  orNext (
    found ← Contact_findById id;
    match found with
    | None => mret (Json 404 (ErrorMessage "Contact submission not found"))
    | Some contact =>
        contact ←
          match Contact.status contact with
          | Contact.new =>
              let contact := Contact.setStatus Contact.read contact in
              Contact_save contact;; mret contact
          | _ => mret contact
          end;
        mret (Json 200 (ContactData contact))
    end).

(** [req.body] of the funnel update. An absent field is [None]; the flags
    are JSON booleans. *)
Record leadStatusReq : Type := mkLeadStatusReq {
  tourScheduled : option bool;
  tourDate : option Z;
  booked : option bool;
  bookingDate : option Z;
  bookingAmount : option Q
}.

(** The guarded ledger update shared by the two branches:
    [try { partner = findByCode(refCode); if (partner) updateStats(kind) }
     catch (error) { console.error(...) }]. *)
Definition recordOnLedger (refCode : string) (k : Partner.statKind) (msg : string)
    : M unit :=
  tryCatch
    (partner ← Partner_findByCode refCode;
     match partner with
     | Some partner => Partner_updateStats partner k
     | None => mret tt
     end)
    (fun _ => consoleError msg).

(** [updateContactLeadStatus]. As in the source, each flag is written to
    [contact] first and the test for a new tour or booking reads it back
    from [contact] afterwards. *)
Definition updateContactLeadStatus (id : nat) (req : leadStatusReq) : M response :=
  orNext (
    found ← Contact_findById id;
    match found with
    | None => mret (Json 404 (ErrorMessage "Contact submission not found"))
    | Some contact =>
        contact ←
          match tourScheduled req with
          | Some ts =>
              let contact := Contact.setTourScheduled ts contact in
              let contact :=
                match tourDate req with
                | Some d => Contact.setTourDate d contact
                | None => contact
                end in
              (if ts && negb (Contact.tourScheduled contact)
                     && Js.truthy (Contact.refCode contact)
               then recordOnLedger (default "" (Contact.refCode contact))
                      Partner.tour "Error updating partner tour stats:"
               else mret tt);;
              mret contact
          | None => mret contact
          end;
        contact ←
          match booked req with
          | Some b =>
              let contact := Contact.setBooked b contact in
              let contact :=
                match bookingDate req with
                | Some d => Contact.setBookingDate d contact
                | None => contact
                end in
              let contact :=
                match bookingAmount req with
                | Some a => if Qeq_bool a 0 then contact
                            else Contact.setBookingAmount a contact
                | None => contact
                end in
              (if b && negb (Contact.booked contact)
                    && Js.truthy (Contact.refCode contact)
               then recordOnLedger (default "" (Contact.refCode contact))
                      Partner.booking "Error updating partner booking stats:"
               else mret tt);;
              mret contact
          | None => mret contact
          end;
        Contact_save contact;;
        mret (Json 200 (ContactData contact))
    end).

End ContactController.

(** ** controllers/analyticsController.js *)

Module AnalyticsController.
Import Db.

(** [trackPageView]: the body of the request and the two values read from
    the request itself. *)
Record trackReq : Type := mkTrackReq {
  page : option string;
  referrer : option string;
  sessionId : option string;
  userAgent : option string;
  ip : option string
}.

Definition trackPageView (req : trackReq) : M response :=
  asyncHandler (
    Analytics_trackPageView (page req) (userAgent req) (ip req)
      (referrer req) (sessionId req);;
    mret (Json 200 (Message "Page view tracked"))).

(** The calendar day of an instant in UTC, which is what both
    [$dateToString] with format [%Y-%m-%d] and
    [toISOString().split('T')[0]] name; the day is kept as its number since
    the epoch instead of its [YYYY-MM-DD] spelling. *)
Definition dateStr (t : Z) : Z := t / Analytics.msPerDay.

(** A row of the aggregation: [{ _id, data: [{ type, count }], totalCount }]. *)
Record dayRow : Type := mkDayRow {
  _id : Z;
  data : list (string * N);
  totalCount : N
}.

(** [matchCondition]: [createdAt >= startDate], and the type when one other
    than ['all'] was asked for. *)
Definition matchCondition (startDate : Z) (type : option Analytics.eventType)
    (e : Analytics.event) : bool :=
  (startDate <=? Analytics.createdAt e) &&
  match type with
  | Some t => bool_decide (Analytics.type e = t)
  | None => true
  end.

(** The pipeline [$match], [$group] by day and type, [$group] by day,
    [$sort] by day. *)
Definition aggregateTimeSeries (startDate : Z) (type : option Analytics.eventType)
    (log : list Analytics.event) : list dayRow :=
  let matched := filter (fun e => matchCondition startDate type e = true) log in
  let byDayType :=
    Analytics.groupCountBy
      (fun e => (dateStr (Analytics.createdAt e), Analytics.type e)) matched in
  let days := merge_sort Z.le (remove_dups (map (fun r => r.1.1) byDayType)) in
  map (fun d =>
         let rows := filter (fun r => r.1.1 = d) byDayType in
         mkDayRow d
           (map (fun r => (Analytics.typeName r.1.2, r.2)) rows)
           (foldr (fun r acc => (r.2 + acc)%N) 0%N rows))
      days.

(** An element of [filledData]: the day, the per-type counts as an object,
    and the total. *)
Record entry : Type := mkEntry {
  date : Z;
  counts : gmap string N;
  total : N
}.

Definition zeroEntry (d : Z) : entry :=
  mkEntry d
    (<[ "page_view" := 0%N ]> (<[ "contact_form" := 0%N ]>
      (<[ "gallery_view" := 0%N ]> (<[ "review_submission" := 0%N ]>
        (<[ "admin_login" := 0%N ]> ∅)))))
    0.

Definition entryOf (existingData : dayRow) : entry :=
  mkEntry (_id existingData)
    (fold_left (fun acc item => <[ item.1 := item.2 ]> acc) (data existingData) ∅)
    (totalCount existingData).

(** The [while (currentDate <= endDate)] loop; [setDate(getDate() + 1)]
    moves [currentDate] one day ahead. [None] when [fuel] iterations were
    not enough to leave the loop. *)
Fixpoint fillLoop (fuel : nat) (timeSeriesData : list dayRow)
    (currentDate endDate : Z) (filledData : list entry) : option (list entry) :=
  match fuel with
  | O => None
  | S fuel' =>
      if currentDate <=? endDate then
        let existingData :=
          List.find (fun item => _id item =? dateStr currentDate) timeSeriesData in
        let filledData' :=
          match existingData with
          | Some existingData => (filledData ++ [entryOf existingData])%list
          | None => (filledData ++ [zeroEntry (dateStr currentDate)])%list
          end in
        fillLoop fuel' timeSeriesData (currentDate + Analytics.msPerDay) endDate
          filledData'
      else Some filledData
  end.

(** The element that the loop pushes for the instant [t]. *)
Definition entryAt (timeSeriesData : list dayRow) (t : Z) : entry :=
  match List.find (fun item => _id item =? dateStr t) timeSeriesData with
  | Some existingData => entryOf existingData
  | None => zeroEntry (dateStr t)
  end.

(** [getTimeSeriesData]: [now] is the instant of the first [new Date()],
    [later] the one of the [new Date()] that becomes [endDate], after the
    aggregation has been awaited; [daysNum] is [parseInt(days)].
    [setDate(getDate() - daysNum)] moves the clock back by whole days of
    [msPerDay], as on a server without daylight-saving shifts. The result is
    [data.timeSeries]. *)
Definition getTimeSeriesData (fuel : nat) (now later : Z) (daysNum : Z)
    (type : option Analytics.eventType) (log : list Analytics.event)
    : option (list entry) :=
  let startDate := now - daysNum * Analytics.msPerDay in
  let timeSeriesData := aggregateTimeSeries startDate type log in
  fillLoop fuel timeSeriesData startDate later [].

End AnalyticsController.

(** ** controllers/contactController.js: the other admin handlers *)

Module ContactAdmin.
Import Db.

(** [['new', 'read', 'replied', 'archived'].includes(status)], with the
    status it names. An absent [status] is in no list. *)
Definition statusOfString (s : string) : option Contact.statusT :=
  if String.eqb s "new" then Some Contact.new
  else if String.eqb s "read" then Some Contact.read
  else if String.eqb s "replied" then Some Contact.replied
  else if String.eqb s "archived" then Some Contact.archived
  else None.

(** [Contact.findByIdAndUpdate(id, { status }, { new: true, ... })]: one
    write to the collection; it throws when writes to it do. *)
Definition Contact_findByIdAndUpdate (id : nat) (status : Contact.statusT)
    : M (option Contact.doc) :=
  guard ContactSave "Contact.findByIdAndUpdate failed";;
  w ← get;
  match contacts w !! id with
  | None => mret None
  | Some contact =>
      let contact := Contact.setStatus status contact in
      modify (setContacts (<[ id := contact ]> (contacts w)));;
      mret (Some contact)
  end.

(** [Contact.findByIdAndDelete(id)]. *)
Definition Contact_findByIdAndDelete (id : nat) : M (option Contact.doc) :=
  guard ContactSave "Contact.findByIdAndDelete failed";;
  w ← get;
  match contacts w !! id with
  | None => mret None
  | Some contact =>
      modify (setContacts (delete id (contacts w)));;
      mret (Some contact)
  end.

(** [updateContactStatus]; [status] is [req.body.status]. *)
Definition updateContactStatus (id : nat) (status : option string) : M response :=
  orNext (
    match status ≫= statusOfString with
    | None => mret (Json 400 (ErrorMessage "Invalid status value"))
    | Some st =>
        contact ← Contact_findByIdAndUpdate id st;
        match contact with
        | None => mret (Json 404 (ErrorMessage "Contact submission not found"))
        | Some contact => mret (Json 200 (ContactData contact))
        end
    end).

(** [deleteContactSubmission]. *)
Definition deleteContactSubmission (id : nat) : M response :=
  orNext (
    contact ← Contact_findByIdAndDelete id;
    match contact with
    | None => mret (Json 404 (ErrorMessage "Contact submission not found"))
    | Some _ => mret (Json 200 (Message "Contact submission deleted successfully"))
    end).

(** Every stored lead sits under its own identifier. *)
Definition wellKeyed (cs : gmap nat Contact.doc) : Prop :=
  forall j c, cs !! j = Some c -> Contact._id c = j.

(** The admin operations on a stored lead that are not its removal. *)
Inductive adminOp : Type :=
| Fetch (id : nat)
| SetStatus (id : nat) (status : option string)
| SetLeadStatus (id : nat) (req : ContactController.leadStatusReq).

Definition runOp (o : adminOp) : M response :=
  match o with
  | Fetch id => ContactController.getContactSubmission id
  | SetStatus id status => updateContactStatus id status
  | SetLeadStatus id req => ContactController.updateContactLeadStatus id req
  end.

(** What no later operation may alter in a lead: its identifier, the
    submitted fields, and the attribution. *)
Definition sameLead (c c' : Contact.doc) : Prop :=
  Contact._id c' = Contact._id c /\
  Contact.fields c' = Contact.fields c /\
  Contact.refSource c' = Contact.refSource c /\
  Contact.refCode c' = Contact.refCode c.

(** The store after a sequence of such operations. *)
Definition runOps (ops : list adminOp) (w : world) : world :=
  fold_left (fun w o => (runOp o w).1) ops w.

(** The name of a status, as the requests spell it. *)
Definition statusName (st : Contact.statusT) : string :=
  match st with
  | Contact.new => "new"
  | Contact.read => "read"
  | Contact.replied => "replied"
  | Contact.archived => "archived"
  end.

End ContactAdmin.

(** ** controllers/partnerController.js *)

Module PartnerController.
Import Db.

(** The minimal public view of a partner. *)
Record partnerInfo : Type := mkInfo {
  code : option string;
  name : string;
  type : Partner.partnerType
}.

Inductive body : Type :=
| Failure (message : string)
| Info (partner : partnerInfo)
| Done (message : string)
| WithStats (partner : Partner.doc) (leadCount tourCount bookingCount : N)
    (conversionRate : Js.value).

(** These handlers answer every request themselves, errors included. *)
Inductive response : Type := Reply (status : nat) (b : body).

(** [lookupPartner]; [code] is [req.params.code]. *)
Definition lookupPartner (code : string) : M response :=
  tryCatch
    (if negb (Js.truthy (Some code))
     then mret (Reply 400 (Failure "Partner code is required"))
     else
       partner ← Partner_findByCode code;
       match partner with
       | None => mret (Reply 404 (Failure "Partner not found or inactive"))
       | Some partner =>
           mret (Reply 200 (Info (mkInfo (Partner.code partner)
                                    (Partner.name partner) (Partner.type partner))))
       end)
    (fun _ =>
       consoleError "Partner lookup error:";;
       mret (Reply 500 (Failure "Server error during partner lookup"))).

(** [Partner.findById(id)]: a read of the partner collection. *)
Definition Partner_findById (id : nat) : M (option Partner.doc) :=
  guard PartnerFindOne "Partner.findById failed";;
  w ← get;
  mret (List.find (fun p => (Partner._id p =? id)%nat) (partners w)).

Definition setActive (b : bool) (p : Partner.doc) : Partner.doc :=
  Partner.mkDoc (Partner._id p) (Partner.name p) (Partner.type p)
    (Partner.email p) (Partner.code p) b (Partner.stats p).

(** [deletePartner]: the partner is deactivated, not removed. *)
Definition deletePartner (id : nat) : M response :=
  tryCatch
    (partner ← Partner_findById id;
     match partner with
     | None => mret (Reply 404 (Failure "Partner not found"))
     | Some partner =>
         let partner := setActive false partner in
         Partner_save partner;;
         mret (Reply 200 (Done "Partner deactivated successfully"))
     end)
    (fun _ =>
       consoleError "Delete partner error:";;
       mret (Reply 500 (Failure "Failed to deactivate partner"))).

(** [Contact.countDocuments(filter)]: a read of the lead collection. *)
Definition Contact_countDocuments (query : Contact.doc -> bool) : M N :=
  guard ContactFindById "Contact.countDocuments failed";;
  w ← get;
  mret (N.of_nat (size (filter (fun kc => query kc.2 = true) (contacts w)))).

Definition byRefCode (code : option string) (c : Contact.doc) : bool :=
  bool_decide (Contact.refCode c = code).

(** [leadCount > 0 ? ((bookingCount / leadCount) * 100).toFixed(2) : 0]. *)
Definition conversionOf (leadCount bookingCount : N) : Js.value :=
  if (0 <? leadCount)%N
  then Js.Fixed2 (Js.toFixed2 (Js.percentOf bookingCount leadCount))
  else Js.Num 0.

(** [getPartner]: the partner with the counts recomputed from its leads.
    The list [recentLeads], which is ordered by creation time, is not part of
    the model. *)
Definition getPartner (id : nat) : M response :=
  tryCatch
    (partner ← Partner_findById id;
     match partner with
     | None => mret (Reply 404 (Failure "Partner not found"))
     | Some partner =>
         leadCount ← Contact_countDocuments (byRefCode (Partner.code partner));
         tourCount ← Contact_countDocuments
                       (fun c => byRefCode (Partner.code partner) c
                                 && Contact.tourScheduled c);
         bookingCount ← Contact_countDocuments
                          (fun c => byRefCode (Partner.code partner) c
                                    && Contact.booked c);
         mret (Reply 200 (WithStats partner leadCount tourCount bookingCount
                            (conversionOf leadCount bookingCount)))
     end)
    (fun _ =>
       consoleError "Get partner error:";;
       mret (Reply 500 (Failure "Failed to fetch partner"))).

(** Two requests that attribute a lead to the same code, interleaved so that
    both look the partner up before either stores its increment. *)
Definition twoLeadsInterleaved (code : string) : M unit :=
  first ← Partner_findByCode code;
  second ← Partner_findByCode code;
  match first, second with
  | Some first, Some second =>
      Partner_updateStats first Partner.lead;;
      Partner_updateStats second Partner.lead
  | _, _ => mret tt
  end.

(** The same two requests, one after the other. *)
Definition twoLeadsInSequence (code : string) : M unit :=
  first ← Partner_findByCode code;
  match first with
  | Some first => Partner_updateStats first Partner.lead
  | None => mret tt
  end;;
  second ← Partner_findByCode code;
  match second with
  | Some second => Partner_updateStats second Partner.lead
  | None => mret tt
  end.

End PartnerController.

(** ** models/Partner.js: a run of [updateStats] calls on one document *)

Module PartnerLedger.

#[global] Instance statKind_eq_dec : EqDecision Partner.statKind.
Proof. solve_decision. Defined.

(** The in-memory document after [updateStats] was called once for each
    kind of [kinds], in that order. *)
Definition recordAll (kinds : list Partner.statKind) (now : Z) (p : Partner.doc)
    : Partner.doc :=
  fold_left (fun p k => Partner.bumpStats k now p) kinds p.

(** How often [k] occurs in [kinds]. *)
Definition occurrences (k : Partner.statKind) (kinds : list Partner.statKind) : N :=
  N.of_nat (length (filter (fun k' => k' = k) kinds)).

End PartnerLedger.

(** ** Vocabulary for the properties of the time series *)

Module SeriesCounts.
Import Analytics AnalyticsController.

(** The events that an entry of the series stands for: those that pass the
    match condition and fall on the entry's day, and among them those of one
    type. *)
Definition eventsOn (startDate : Z) (type : option eventType)
    (log : list event) (d : Z) : N :=
  N.of_nat (length (filter (fun ev => matchCondition startDate type ev = true
                                      /\ dateStr (createdAt ev) = d) log)).

Definition eventsOnOfType (startDate : Z) (type : option eventType)
    (log : list event) (d : Z) (ty : eventType) : N :=
  N.of_nat (length (filter (fun ev => matchCondition startDate type ev = true
                                      /\ dateStr (createdAt ev) = d
                                      /\ Analytics.type ev = ty) log)).

End SeriesCounts.

(** ** controllers/contactController.js: the paginated list of leads *)

Module ContactList.

(** [parseInt(req.query.x) || d]: [None] is [NaN], which like 0 gives the
    default. *)
Definition parseOr (parsed : option Z) (d : Z) : Z :=
  match parsed with
  | Some n => if n =? 0 then d else n
  | None => d
  end.

(** [Math.ceil(total / limit)] for a divisor other than 0. *)
Definition ceilDiv (total limit : Z) : Z := - ((- total) / limit).

(** [.skip(skip).limit(limit)] on the sorted result of a query, for a skip
    and a limit that are not negative. *)
Definition skipLimit {A : Type} (skip limit : Z) (found : list A) : list A :=
  take (Z.to_nat limit) (drop (Z.to_nat skip) found).

Record paginationT : Type := mkPagination {
  page : Z;
  limit : Z;
  total : Z;
  pages : Z
}.

(** [getContactSubmissions], from the parsed query on: [found] is what
    [Contact.find(query).sort({ createdAt: -1 })] yields without skip and
    limit, and [countDocuments(query)] counts the same documents. The result
    is [data.contacts] and [data.pagination]. *)
Definition getContactSubmissions {A : Type} (found : list A)
    (pageQuery limitQuery : option Z) : list A * paginationT :=
  let page := parseOr pageQuery 1 in
  let limit := parseOr limitQuery 10 in
  let skip := (page - 1) * limit in
  let contacts := skipLimit skip limit found in
  let total := Z.of_nat (length found) in
  (contacts, mkPagination page limit total (ceilDiv total limit)).

End ContactList.

(** ** models/Settings.js *)

Module Settings.
Section Store.

(** The stored values are [Mixed]; the model is for any type of values. *)
Context {V : Type}.

Inductive settingType : Type := string_ | number_ | boolean_ | object_ | array_.

(** A setting document. The category is kept as the string it is stored
    as. [description] and [validation] are left out: what an update with an
    [undefined] value does to them depends on the version of the driver. *)
Record doc : Type := mkDoc {
  category : string;
  key : string;
  value : V;
  type : settingType;
  isPublic : bool;
  isRequired : bool;
  lastModifiedBy : nat
}.

(** The [options] argument of [setSetting]; an absent field is [None]. *)
Record optionsT : Type := mkOptions {
  optType : option settingType;
  optIsPublic : option bool;
  optIsRequired : option bool
}.

Definition sameKey (category' key' : string) (d : doc) : bool :=
  String.eqb (category d) category' && String.eqb (key d) key'.

(** [findOneAndUpdate({ category, key }, update, { upsert: true, new: true })]
    for an [update] that sets every modelled field. *)
Fixpoint findOneAndUpdate (new : doc) (coll : list doc) : list doc * doc :=
  match coll with
  | [] => ([new], new)
  | d :: rest =>
      if sameKey (category new) (key new) d then (new :: rest, new)
      else
        let '(rest', r) := findOneAndUpdate new rest in
        (d :: rest', r)
  end.

(** [settingsSchema.statics.setSetting]; the defaults of the destructuring
    stand in for the absent options. The schema trims [key]: the definition
    is the method for a key that [trim] leaves as it is. *)
Definition setSetting (category key : string) (value : V) (adminId : nat)
    (options : optionsT) (coll : list doc) : list doc * doc :=
  let type := default string_ (optType options) in
  let isPublic := default false (optIsPublic options) in
  let isRequired := default false (optIsRequired options) in
  findOneAndUpdate (mkDoc category key value type isPublic isRequired adminId)
    coll.

(** The two readers below build plain objects, on which a name that
    [Object.prototype] defines does not behave as a key ([__proto__] is not
    stored, and a category of that kind is not given an object of its own).
    The maps stand for these objects when no such name occurs among the
    categories and keys of the collection. *)
Definition plainNames (coll : list doc) : Prop :=
  forall d, d ∈ coll ->
    Js.inObjectPrototype (category d) = false /\
    Js.inObjectPrototype (key d) = false.

(** [settingsSchema.statics.getByCategory]. *)
Definition getByCategory (category' : string) (coll : list doc) : gmap string V :=
  let settings := filter (fun d => category d = category') coll in
  fold_left (fun result setting => <[ key setting := value setting ]> result)
    settings ∅.

(** [settingsSchema.statics.getPublicSettings]. *)
Definition getPublicSettings (coll : list doc) : gmap string (gmap string V) :=
  let settings := filter (fun d => isPublic d = true) coll in
  fold_left
    (fun result setting =>
       let inner := default ∅ (result !! category setting) in
       <[ category setting := <[ key setting := value setting ]> inner ]> result)
    settings ∅.

(** The pairs of the compound unique index. *)
Definition indexKeys (coll : list doc) : list (string * string) :=
  map (fun d => (category d, key d)) coll.

End Store.
Arguments doc : clear implicits.
End Settings.

(** ** controllers/analyticsController.js: the page report *)

Module AnalyticsReports.
Import Analytics.

(** [x.toFixed(1)] for a double [x >= 0], as the number of tenths. *)
Definition toFixed1 (x : Q) : Z := Qfloor (x * 10 + (1 # 2)).

(** A percentage of the reports: the number 0, or the string of
    [toFixed(1)], kept as its tenths. *)
Inductive percentageT : Type :=
| Zero
| Fixed1 (tenths : Z).

(** The [$match] stage of [getPageAnalytics]: page views since the start
    date that carry a page. *)
Definition pageMatch (startDate : Z) (e : event) : bool :=
  bool_decide (type e = page_view) && (startDate <=? createdAt e)
  && bool_decide (is_Some (page e)).

(** The rows after [$group] by page, [$project] and [$sort] by views,
    largest first. The size of the set of addresses is not modelled. *)
Definition moreViews (a b : option string * N) : Prop := (b.2 <= a.2)%N.

#[global] Instance moreViews_dec : RelDecision moreViews.
Proof. intros a b. unfold moreViews. apply _. Defined.

Definition pageStats (startDate : Z) (log : list event)
    : list (option string * N) :=
  merge_sort moreViews
    (groupCountBy page (filter (fun e => pageMatch startDate e = true) log)).

Record pageRow : Type := mkPageRow {
  rowPage : string;
  views : N;
  percentage : percentageT
}.

(** [getPageAnalytics], asked at the instant [now] for [daysNum] days: the
    result is [data.pages] and [data.totalViews]. *)
Definition getPageAnalytics (now daysNum : Z) (log : list event)
    : list pageRow * N :=
  let startDate := now - daysNum * msPerDay in
  let pageStats := pageStats startDate log in
  let totalViews := fold_left (fun sum row => (sum + row.2)%N) pageStats 0%N in
  let pagesWithPercentage :=
    map (fun row : option string * N =>
           mkPageRow (default "" row.1) row.2
             (if (0 <? totalViews)%N
              then Fixed1 (toFixed1 (Js.percentOf row.2 totalViews))
              else Zero))
        pageStats in
  (pagesWithPercentage, totalViews).

End AnalyticsReports.

(** ** controllers/analyticsController.js: the device and browser report *)

Module DeviceReport.
Import Analytics AnalyticsReports.

Definition toLowerChar (c : ascii) : ascii :=
  if Js.isUpper c then ascii_of_nat (nat_of_ascii c + 32) else c.

Fixpoint toLowerCase (s : string) : string :=
  match s with
  | EmptyString => EmptyString
  | String c s' => String (toLowerChar c) (toLowerCase s')
  end.

(** [needle] occurs somewhere in [s]. *)
Fixpoint occursIn (needle s : string) : bool :=
  String.prefix needle s ||
  match s with
  | EmptyString => false
  | String _ s' => occursIn needle s'
  end.

(** [$regexMatch] with a regex [/a|b|c/i] of plain words: one of the words
    occurs in the input, letter case aside. *)
Definition regexMatch (words : list string) (input : string) : bool :=
  existsb (fun w => occursIn (toLowerCase w) (toLowerCase input)) words.

(** The two [$cond] cascades of the [$project] stage. *)
Definition deviceType (userAgent : string) : string :=
  if regexMatch ["Mobile"; "Android"; "iPhone"] userAgent then "mobile"
  else if regexMatch ["iPad"; "Tablet"] userAgent then "tablet"
  else "desktop".

Definition browser (userAgent : string) : string :=
  if regexMatch ["Chrome"] userAgent then "chrome"
  else if regexMatch ["Firefox"] userAgent then "firefox"
  else if regexMatch ["Safari"] userAgent then "safari"
  else if regexMatch ["Edge"] userAgent then "edge"
  else "other".

(** [acc[name] = (acc[name] || 0) + 1] on an object whose keys are kept in
    insertion order, which is the order of [Object.entries]. *)
Fixpoint bump (name : string) (acc : list (string * N)) : list (string * N) :=
  match acc with
  | [] => [(name, 1%N)]
  | (k, n) :: rest =>
      if String.eqb k name then (k, (n + 1)%N) :: rest
      else (k, n) :: bump name rest
  end.

(** [names.reduce((acc, name) => { ...; return acc; }, {})], as the entries
    of the resulting object. *)
Definition tally (names : list string) : list (string * N) :=
  fold_left (fun acc name => bump name acc) names [].

(** [name.charAt(0).toUpperCase() + name.slice(1)]. *)
Definition capitalize (name : string) : string :=
  match name with
  | EmptyString => EmptyString
  | String c rest => String (Js.toUpperChar c) rest
  end.

Record entry : Type := mkEntry {
  name : string;
  value : N;
  percentage : Z
}.

(** [Object.entries(counts).map(([name, count]) => ({ ... }))]; the
    percentage is the string of [toFixed(1)], kept as its tenths. *)
Definition entries (counts : list (string * N)) (total : N) : list entry :=
  map (fun nc : string * N =>
         mkEntry (capitalize nc.1) nc.2
           (toFixed1 (Js.percentOf nc.2 total)))
      counts.

(** The [$match] stage: events since the start date that carry a user
    agent. *)
Definition agentsSince (startDate : Z) (log : list event) : list string :=
  omap (fun e => if startDate <=? createdAt e then userAgent e else None) log.

(** [getDeviceAnalytics], asked at the instant [now] for [daysNum] days: the
    result is [data.devices] and [data.browsers]. *)
Definition getDeviceAnalytics (now daysNum : Z) (log : list event)
    : list entry * list entry :=
  let startDate := now - daysNum * msPerDay in
  match agentsSince startDate log with
  | [] => ([], [])
  | agents =>
      let deviceBreakdown := map deviceType agents in
      let browserBreakdown := map browser agents in
      let deviceCounts := tally deviceBreakdown in
      let browserCounts := tally browserBreakdown in
      let totalDevices := N.of_nat (length deviceBreakdown) in
      let totalBrowsers := N.of_nat (length browserBreakdown) in
      (entries deviceCounts totalDevices, entries browserCounts totalBrowsers)
  end.

End DeviceReport.

(** ** controllers/partnerController.js: the performance report *)

Module PartnerAnalytics.
Import Db.

(** The [_id] of a group: the lead's code with the name and type of the
    partner joined to it. This is the grouping of a request whose [groupBy]
    is neither ['month'] nor ['week'] and that gives no date bounds, so that
    the creation time of the leads plays no part. *)
Definition groupId : Type := option string * string * Partner.partnerType.

#[global] Instance partnerType_eq_dec : EqDecision Partner.partnerType.
Proof. solve_decision. Defined.

#[global] Instance groupId_eq_dec : EqDecision groupId.
Proof. unfold groupId. apply _. Defined.

Record row : Type := mkRow {
  _id : groupId;
  totalLeads : N;
  totalTours : N;
  totalBookings : N;
  totalRevenue : Q;
  conversionRate : Q
}.

Record summaryT : Type := mkSummary {
  sumLeads : N;
  sumTours : N;
  sumBookings : N;
  sumRevenue : Q
}.

(** [matchStage]: [{ refCode: { $exists: true, $ne: null } }]. *)
Definition matchStage (c : Contact.doc) : bool :=
  bool_decide (is_Some (Contact.refCode c)).

(** [$lookup] into the partners on [refCode = code], then [$unwind]: one
    document per lead and partner with that code, none for a lead whose
    code no partner carries. *)
Definition lookupUnwind (partners : list Partner.doc) (leads : list Contact.doc)
    : list (Contact.doc * Partner.doc) :=
  flat_map
    (fun c => map (fun p => (c, p))
                (filter (fun p => Partner.code p = Contact.refCode c) partners))
    leads.

Definition keyOf (cp : Contact.doc * Partner.doc) : groupId :=
  (Contact.refCode cp.1, Partner.name cp.2, Partner.type cp.2).

Definition count {A : Type} (f : A -> bool) (l : list A) : N :=
  N.of_nat (length (filter (fun x => f x = true) l)).

(** [{ $sum: { $ifNull: ['$bookingAmount', 0] } }]. *)
Definition revenue (leads : list Contact.doc) : Q :=
  foldr (fun c acc => (default 0%Q (Contact.bookingAmount c) + acc)%Q) 0%Q leads.

(** [$group], then [$addFields] with the conversion rate, which here is the
    number that [$divide] and [$multiply] compute, not a rounded string. *)
Definition groupRows (joined : list (Contact.doc * Partner.doc)) : list row :=
  map (fun k =>
         let members :=
           map fst (filter (fun cp => keyOf cp = k) joined) in
         let leads := N.of_nat (length members) in
         let bookings := count Contact.booked members in
         mkRow k leads (count Contact.tourScheduled members) bookings
           (revenue members)
           (if (0 <? leads)%N
            then Js.percentOf bookings leads
            else 0%Q))
      (remove_dups (map keyOf joined)).

Inductive response : Type :=
| Report (analytics : list row) (summary : summaryT)
| Failed (status : nat) (message : string).

(** [Contact.aggregate(pipeline)]: a read of the lead collection, in the
    order of the identifiers. *)
Definition Contact_aggregate : M (list Contact.doc) :=
  guard ContactFindById "Contact.aggregate failed";;
  w ← get;
  mret (map snd (map_to_list (contacts w))).

(** [getPartnerAnalytics] for such a request; [partnerType] is the query
    parameter, absent or one of the three types. *)
Definition getPartnerAnalytics (partnerType : option Partner.partnerType)
    : M response :=
  tryCatch
    (leads ← Contact_aggregate;
     w ← get;
     let joined := lookupUnwind (partners w) (filter (fun c => matchStage c = true) leads) in
     let joined :=
       match partnerType with
       | Some t => filter (fun cp => Partner.type cp.2 = t) joined
       | None => joined
       end in
     let analytics := groupRows joined in
     leads' ← Contact_aggregate;
     let matched := filter (fun c => matchStage c = true) leads' in
     let summary :=
       match matched with
       | [] => mkSummary 0 0 0 0
       | _ :: _ =>
           mkSummary (N.of_nat (length matched))
             (count Contact.tourScheduled matched)
             (count Contact.booked matched) (revenue matched)
       end in
     mret (Report analytics summary))
    (fun _ =>
       consoleError "Get partner analytics error:";;
       mret (Failed 500 "Failed to fetch partner analytics")).

(** *** Vocabulary for the properties of the report *)

(** The partner has the type asked for, if one was. *)
Definition typeOk (partnerType : option Partner.partnerType) (p : Partner.doc)
    : bool :=
  match partnerType with
  | Some t => bool_decide (Partner.type p = t)
  | None => true
  end.

(** The lead carries a code, and a stored partner of the type asked for
    carries the same code. *)
Definition resolved (partners : list Partner.doc)
    (partnerType : option Partner.partnerType) (c : Contact.doc) : bool :=
  matchStage c &&
  existsb (fun p => bool_decide (Partner.code p = Contact.refCode c) &&
                    typeOk partnerType p)
          partners.

End PartnerAnalytics.

(** ** controllers/partnerController.js: the QR code of a partner *)

Module PartnerQR.
Import Db.

(** The partner type as the template string prints it. *)
Definition typeName (t : Partner.partnerType) : string :=
  match t with
  | Partner.affiliate => "affiliate"
  | Partner.influencer => "influencer"
  | Partner.vendor => "vendor"
  end.

(** The value that [code] contributes to the [ref] parameter. *)
Definition refParam (code : string) : string := Js.toUpperCase code.

(** [referralUrl]. *)
Definition referralUrl (baseUrl page code : string) (type : Partner.partnerType)
    : string :=
  baseUrl ++ "/" ++ page ++ "?ref=" ++ refParam code
  ++ "&utm_source=affiliate&utm_medium=qr&utm_campaign="
  ++ typeName type ++ "-" ++ DeviceReport.toLowerCase code.

(** The image is determined by the URL it encodes; the reply carries that
    URL in place of the buffer, and the file name of the disposition
    header. *)
Inductive response : Type :=
| Png (url : string) (filename : string)
| Failed (status : nat) (message : string).

(** [generatePartnerQR]. [frontendUrl] is [process.env.FRONTEND_URL],
    [page] the query parameter; [qrFails] tells for which texts
    [QRCode.toBuffer] throws. *)
Definition generatePartnerQR (qrFails : string -> bool)
    (frontendUrl : option string) (code : string) (page : option string)
    : M response :=
  tryCatch
    (let page := default "weddings" page in
     if negb (Js.truthy (Some code))
     then mret (Failed 400 "Partner code is required")
     else
       partner ← Partner_findByCode code;
       match partner with
       | None => mret (Failed 404 "Partner not found or inactive")
       | Some partner =>
           let baseUrl :=
             match frontendUrl with
             | Some u => if Js.truthy (Some u) then u
                         else "https://thewhitebarnfl.com"
             | None => "https://thewhitebarnfl.com"
             end in
           let referralUrl :=
             referralUrl baseUrl page code (Partner.type partner) in
           (if qrFails referralUrl then throw "QRCode.toBuffer failed"
            else mret tt);;
           mret (Png referralUrl ("partner-qr-" ++ code ++ ".png"))
       end)
    (fun _ =>
       consoleError "QR generation error:";;
       mret (Failed 500 "Failed to generate QR code")).

End PartnerQR.

(** ** Sample data *)

Module Examples.
Import Db.

Definition janeCode : string := "TWBFL-JANEDOEX7K".

Definition jane : Partner.doc :=
  Partner.mkDoc 1 "Jane Doe" Partner.affiliate "jane@example.com"
    (Some janeCode) true (Partner.mkStats 1 0 0 0).

(** A lead attributed to [jane], neither toured nor booked. *)
Definition lead : Contact.doc :=
  Contact.mkDoc 7 [("name", "Sam"); ("message", "We would like a tour")]
    Contact.new (Some Partner.affiliate) (Some janeCode)
    false None false None None.

Definition healthy : op -> bool := fun _ => false.

Definition w0 : world :=
  mkWorld [jane] {[ 7%nat := lead ]} [] [] 1000 healthy.

Definition tourReq : ContactController.leadStatusReq :=
  ContactController.mkLeadStatusReq (Some true) None None None None.

Definition bookReq : ContactController.leadStatusReq :=
  ContactController.mkLeadStatusReq None None (Some true) None (Some (5000 # 1)).

Definition submitWithCode : ContactController.submitReq :=
  ContactController.mkSubmitReq []
    [("name", "Alex"); ("message", "Looking for a venue")] (Some janeCode).

(** The partner collection refuses writes; everything else works. *)
Definition ledgerDown : op -> bool :=
  fun o => match o with PartnerSave => true | _ => false end.

Definition wLedgerDown : world :=
  mkWorld [jane] {[ 7%nat := lead ]} [] [] 1000 ledgerDown.

(** The event log refuses writes. *)
Definition logDown : op -> bool :=
  fun o => match o with AnalyticsCreate => true | _ => false end.

Definition wLogDown : world := mkWorld [jane] ∅ [] [] 1000 logDown.

Definition homeView : AnalyticsController.trackReq :=
  AnalyticsController.mkTrackReq (Some "/home") None (Some "s1")
    (Some "Mozilla/5.0") (Some "203.0.113.9").

(** Two applicants: one with the same name as [jane], one whose name has
    more than eight letters and digits. *)
Definition janeAgain : Partner.doc :=
  Partner.mkDoc 2 "Jane Doe" Partner.influencer "jane.doe@example.org"
    None true (Partner.mkStats 0 0 0 0).

Definition jonathan : Partner.doc :=
  Partner.mkDoc 3 "Jonathan Smith" Partner.vendor "jonathan@example.org"
    None true (Partner.mkStats 0 0 0 0).

(** A random source that keeps returning the number rendered ["0.x7k2m9"]. *)
Definition stuck : nat -> string := fun _ => "0.x7k2m9".

(** A random source that repeats itself twice and then moves on. *)
Definition stuckTwice : nat -> string :=
  fun k => if (k <? 2)%nat then "0.x7k2m9" else "0.q2z81".

(** One booking out of three leads. *)
Definition oneInThree : Partner.doc :=
  Partner.mkDoc 4 "Acme Flowers" Partner.vendor "acme@example.org"
    (Some "TWBFL-ACMEFLOWQ2Z") true (Partner.mkStats 3 1 1 0).

(** Twenty-three bookings out of 160 leads: [23 / 160 * 100] is 14.375,
    which the code computes as the double below it. *)
Definition twentyThreeIn160 : Partner.doc :=
  Partner.mkDoc 5 "Oak Catering" Partner.vendor "oak@example.org"
    (Some "TWBFL-OAKCATK3P") true (Partner.mkStats 160 40 23 0).

(** A day, 2025-01-01 in UTC, and the scenario of the specification: three
    views of ["/home"] from two addresses and one contact form. *)
Definition dayD : Z := 1735689600000.

Definition view (page : option string) (ip : string) (t : Z) : Analytics.event :=
  Analytics.mkEvent Analytics.page_view page (Some "Mozilla/5.0") (Some ip)
    None None t.

Definition scenarioLog : list Analytics.event :=
  [ view (Some "/home") "203.0.113.9" (dayD + 1000);
    view (Some "/home") "203.0.113.9" (dayD + 2000);
    view (Some "/home") "198.51.100.4" (dayD + 3000);
    Analytics.mkEvent Analytics.contact_form None (Some "Mozilla/5.0")
      (Some "198.51.100.4") None None (dayD + 4000) ].



(** Midday, five days after [dayD], and the same instant a moment later. *)
Definition noon : Z := dayD + 5 * Analytics.msPerDay + 43200000.
Definition noonLater : Z := noon + 40.

End Examples.

(** ** More sample data *)

Module Samples.
Import Db.

(** The store refuses new leads; everything else works. *)
Definition createDown : op -> bool :=
  fun o => match o with ContactCreate => true | _ => false end.

Definition wCreateDown : world :=
  mkWorld [Examples.jane] ∅ [] [] 1000 createDown.

(** A lead of [Examples.jane] that has had its tour, next to
    [Examples.lead]. *)
Definition touredLead : Contact.doc :=
  Contact.mkDoc 8 [("name", "Kim"); ("message", "Tour went well")]
    Contact.read (Some Partner.affiliate) (Some Examples.janeCode)
    true (Some 900) false None None.

Definition wTwoLeads : world :=
  mkWorld [Examples.jane; Examples.oneInThree]
    (<[ 8%nat := touredLead ]> {[ 7%nat := Examples.lead ]}) [] [] 1000
    Examples.healthy.

End Samples.

(** * Properties *)

(** Unfolds the monad and the persistence calls down to the store. *)
Ltac run :=
  unfold ContactController.submitContactForm,
    ContactController.getContactSubmission,
    ContactController.updateContactLeadStatus,
    AnalyticsController.trackPageView,
    ContactController.resolveReferral, ContactController.recordOnLedger,
    Db.orNext, Db.asyncHandler, Db.tryCatch, Db.attempt,
    Db.Partner_findByCode, Db.Partner_updateStats, Db.Partner_save,
    Db.Contact_findById, Db.Contact_save, Db.Contact_create,
    Db.Analytics_trackPageView,
    Db.consoleError, Db.guard, Db.get, Db.modify,
    mbind, Db.M_bind, Db.bind, mret, Db.M_ret, Db.ret, Db.throw in *;
  simpl in *.

(** Splits a conjunction of implications and closes what follows from the
    equations in the context. *)
Ltac fin :=
  simpl; repeat split; intros;
  repeat match goal with H : _ \/ _ |- _ => destruct H end;
  simplify_eq; try congruence; try done.

(** ** The request handlers *)

Section Handlers.
Import Db ContactController.

(** The funnel update never reaches the ledger: whatever the request and
    the store, the partner collection is left as it was. *)
Lemma updateContactLeadStatus_partners id req w :
  partners (updateContactLeadStatus id req w).1 = partners w.
Proof.
  run. destruct (failing w ContactFindById); [reflexivity|].
  destruct (contacts w !! id) as [c|]; [|reflexivity].
  destruct req as [ts td b bd ba]; simpl.
  destruct ts as [[]|], td, b as [[]|], bd, ba as [a|];
    simpl; try destruct (Qeq_bool a 0); simpl;
    destruct (failing w ContactSave); reflexivity.
Qed.

(** C1 (the code departs from the claim). A lead attributed to an active
    partner is moved to tour-scheduled, then the same request is sent
    again, then the lead is booked. The lead record follows, but the
    partner's tour and booking counters stay at zero after each call: the
    first call does not increment them, where the claim expects exactly one
    increment. *)
Theorem C1_first_transition_not_counted :
  let w1 := (updateContactLeadStatus 7 Examples.tourReq Examples.w0).1 in
  let w2 := (updateContactLeadStatus 7 Examples.tourReq w1).1 in
  let w3 := (updateContactLeadStatus 7 Examples.bookReq w2).1 in
  findActiveByCode (partners Examples.w0) Examples.janeCode = Some Examples.jane /\
  Contact.tourScheduled <$> (contacts Examples.w0 !! 7%nat) = Some false /\
  Contact.tourScheduled <$> (contacts w1 !! 7%nat) = Some true /\
  map (fun p => Partner.totalTours (Partner.stats p)) (partners w1) = [0%N] /\
  map (fun p => Partner.totalTours (Partner.stats p)) (partners w2) = [0%N] /\
  Contact.booked <$> (contacts w3 !! 7%nat) = Some true /\
  map (fun p => Partner.totalBookings (Partner.stats p)) (partners w3) = [0%N].
Proof. vm_compute. repeat split; reflexivity. Qed.

Lemma findActiveByCode_Some ps rc p :
  findActiveByCode ps rc = Some p ->
  Partner.code p = Some (Js.toUpperCase rc) /\ Partner.active p = true.
Proof.
  unfold findActiveByCode. intros H. apply find_some in H as [_ H].
  apply andb_prop in H as [H1 H2]. apply bool_decide_eq_true in H1. auto.
Qed.

(** After a save, the lookup that found [p] finds the saved document. *)
Lemma findActiveByCode_saved ps rc p k now :
  findActiveByCode ps rc = Some p ->
  findActiveByCode (savedPartners (Partner.bumpStats k now p) ps) rc
  = Some (Partner.bumpStats k now p).
Proof.
  intros Hp. destruct (findActiveByCode_Some _ _ _ Hp) as [Hc Ha].
  revert Hp. unfold findActiveByCode, savedPartners.
  induction ps as [|q ps IH]; simpl; [discriminate|].
  destruct (Partner._id q =? Partner._id p)%nat eqn:Hid.
  - intros _. simpl. rewrite Hc, Ha, bool_decide_eq_true_2 by reflexivity.
    reflexivity.
  - destruct (bool_decide (Partner.code q = Some (Js.toUpperCase rc))
              && Partner.active q) eqn:Hq.
    + intros [= ->]. rewrite Nat.eqb_refl in Hid. discriminate.
    + exact IH.
Qed.

(** C9, as stated, fails. In a store whose partner collection refuses the
    write, a submission with the code of [Examples.jane] is answered with
    201 and its lead carries [refSource = affiliate], for the code resolved;
    yet no counter has moved: the partner collection is as it was. The
    failure of [updateStats] is caught by the handler of lookup errors after
    [refSource] was assigned. *)
Lemma C9_ledger_failure_keeps_attribution :
  findActiveByCode (partners Examples.wLedgerDown) Examples.janeCode
  = Some Examples.jane /\
  exists (w' : world) (c : Contact.doc),
    submitContactForm Examples.submitWithCode Examples.wLedgerDown
    = (w', Ok (Json 201 (Submitted (Contact._id c)))) /\
    contacts w' !! Contact._id c = Some c /\
    Contact.refSource c = Some Partner.affiliate /\
    partners w' = partners Examples.wLedgerDown /\
    errorLog w' = ["Error looking up partner:"].
Proof.
  split; [reflexivity|].
  eexists _, (Contact.mkDoc _ _ _ _ _ _ _ _ _ _).
  split; [vm_compute; reflexivity|].
  split; [vm_compute; reflexivity|]. split; [reflexivity|].
  split; reflexivity.
Qed.

(** C9, amended. A submission whose fields passed validation and that the
    store accepts is answered with 201 and a new lead, whatever happens to
    the referral code. When the lookup throws or finds no active partner,
    the lead has [refSource = null] and the partner collection is untouched.
    When it finds a partner, the lead carries the partner's type; the
    partner's lead counter is one higher if the ledger write goes through,
    and if that write throws the partner collection is untouched although
    the lead is attributed. In every case the lead keeps the code it was
    submitted with, in upper case. *)
Theorem C9_submission_survives_referral_failure (w : world) (req : submitReq) :
  validationErrors req = [] ->
  failing w ContactCreate = false ->
  exists (w' : world) (c : Contact.doc),
    submitContactForm req w = (w', Ok (Json 201 (Submitted (Contact._id c)))) /\
    contacts w !! Contact._id c = None /\
    contacts w' = <[ Contact._id c := c ]> (contacts w) /\
    Contact.refCode c
    = (if Js.truthy (refCode req) then Js.toUpperCase <$> refCode req else None) /\
    (Js.truthy (refCode req) = false ->
       Contact.refSource c = None /\ partners w' = partners w) /\
    (forall rc, refCode req = Some rc -> rc <> "" ->
       failing w PartnerFindOne = true \/ findActiveByCode (partners w) rc = None ->
       Contact.refSource c = None /\ partners w' = partners w) /\
    (forall rc p, refCode req = Some rc -> rc <> "" ->
       failing w PartnerFindOne = false ->
       findActiveByCode (partners w) rc = Some p ->
       Contact.refSource c = Some (Partner.type p) /\
       (failing w PartnerSave = false ->
          partners w' = savedPartners (Partner.bumpStats Partner.lead (clock w) p) (partners w) /\
          exists p', findActiveByCode (partners w') rc = Some p' /\
            Partner.totalLeads (Partner.stats p')
            = (Partner.totalLeads (Partner.stats p) + 1)%N) /\
       (failing w PartnerSave = true -> partners w' = partners w)).
Proof.
  intros Hv Hc. destruct req as [errs flds rc]. simpl in Hv. subst errs.
  assert (Hfresh : forall cs : gmap nat Contact.doc, cs !! fresh (dom cs) = None).
  { intros cs. apply not_elem_of_dom, is_fresh. }
  run.
  destruct rc as [rc|]; simpl; [destruct (String.eqb rc "") eqn:Hrc; simpl|].
  - apply String.eqb_eq in Hrc. subst rc. rewrite Hc. simpl.
    eexists _, (Contact.mkDoc _ _ _ _ _ _ _ _ _ _).
    split; [reflexivity|]. fin; try exact (Hfresh _).
  - destruct (failing w PartnerFindOne) eqn:Hf; simpl.
    { rewrite Hc. simpl. eexists _, (Contact.mkDoc _ _ _ _ _ _ _ _ _ _).
      split; [reflexivity|]. fin; try exact (Hfresh _). }
    destruct (findActiveByCode (partners w) rc) as [p|] eqn:Hp; simpl.
    2:{ rewrite Hc. simpl. eexists _, (Contact.mkDoc _ _ _ _ _ _ _ _ _ _).
        split; [reflexivity|]. fin; try exact (Hfresh _). }
    destruct (failing w PartnerSave) eqn:Hs; simpl.
    { rewrite Hc. simpl. eexists _, (Contact.mkDoc _ _ _ _ _ _ _ _ _ _).
      split; [reflexivity|]. fin; try exact (Hfresh _). }
    rewrite Hc. simpl. eexists _, (Contact.mkDoc _ _ _ _ _ _ _ _ _ _).
    split; [reflexivity|]. fin; try exact (Hfresh _).
    eexists. split; [apply findActiveByCode_saved; eassumption|]. reflexivity.
  - rewrite Hc. simpl. eexists _, (Contact.mkDoc _ _ _ _ _ _ _ _ _ _).
    split; [reflexivity|]. fin; try exact (Hfresh _).
Qed.

(** The theorem at the sample store, for a submission with the code of
    [Examples.jane]. *)
Lemma C9_submission_survives_referral_failure_witness :
  validationErrors Examples.submitWithCode = [] /\
  failing Examples.w0 ContactCreate = false /\
  exists (w' : world) (c : Contact.doc),
    submitContactForm Examples.submitWithCode Examples.w0
    = (w', Ok (Json 201 (Submitted (Contact._id c)))) /\
    Contact.refSource c = Some Partner.affiliate.
Proof.
  split; [reflexivity|]. split; [reflexivity|].
  destruct (C9_submission_survives_referral_failure Examples.w0
              Examples.submitWithCode eq_refl eq_refl)
    as (w' & c & Hrun & _ & _ & _ & _ & _ & Hres).
  exists w', c. split; [exact Hrun|].
  apply (Hres Examples.janeCode Examples.jane); [reflexivity|discriminate|reflexivity..].
Defined.

(** C10. Fetching a single submission marks it as read when it was new,
    and stores that before answering; a submission in any other status is
    returned with the store exactly as it was. *)
Theorem C10_fetch_marks_new_as_read (w : world) (id : nat) (c : Contact.doc) :
  contacts w !! id = Some c ->
  Contact._id c = id ->
  failing w ContactFindById = false ->
  (Contact.status c = Contact.new ->
     failing w ContactSave = false ->
     getContactSubmission id w
     = (setContacts (<[ id := Contact.setStatus Contact.read c ]> (contacts w)) w,
        Ok (Json 200 (ContactData (Contact.setStatus Contact.read c))))) /\
  (Contact.status c <> Contact.new ->
     getContactSubmission id w = (w, Ok (Json 200 (ContactData c)))).
Proof.
  intros Hc Hid Hf. run. rewrite Hf, Hc. simpl. split.
  - intros Hn Hs. rewrite Hn, Hs. simpl. rewrite Hid. reflexivity.
  - intros Hn. destruct (Contact.status c); [congruence|reflexivity..].
Qed.

(** The theorem at the sample store: the new lead 7 is read afterwards. *)
Lemma C10_fetch_marks_new_as_read_witness :
  contacts Examples.w0 !! 7%nat = Some Examples.lead /\
  Contact.status <$>
    (contacts (getContactSubmission 7 Examples.w0).1 !! 7%nat)
  = Some Contact.read.
Proof.
  split; [reflexivity|].
  destruct (C10_fetch_marks_new_as_read Examples.w0 7 Examples.lead
              eq_refl eq_refl eq_refl) as [Hnew _].
  rewrite (Hnew eq_refl eq_refl). reflexivity.
Defined.

(** C8, as stated, fails: with the event log refusing the write,
    [trackPageView] sends no success response; the error goes to the error
    middleware. *)
Lemma C8_tracking_failure_reaches_caller :
  AnalyticsController.trackPageView Examples.homeView Examples.wLogDown
  = (Examples.wLogDown, Ok (Next "Analytics.create failed")).
Proof. reflexivity. Qed.

(** C8, amended. [trackPageView] awaits the event-log write. When the write
    goes through, the page view is appended to the log and the response is
    the success message; when it throws, nothing is stored and the error is
    handed to [next], so the request fails. *)
Theorem C8_tracking_is_awaited (w : world) (req : AnalyticsController.trackReq) :
  AnalyticsController.trackPageView req w =
  if failing w AnalyticsCreate
  then (w, Ok (Next "Analytics.create failed"))
  else (setAnalytics
          (analytics w ++
           [Analytics.mkEvent Analytics.page_view
              (AnalyticsController.page req) (AnalyticsController.userAgent req)
              (AnalyticsController.ip req) (AnalyticsController.referrer req)
              (AnalyticsController.sessionId req) (clock w)]) w,
        Ok (Json 200 (Message "Page view tracked"))).
Proof. run. destruct (failing w AnalyticsCreate); reflexivity. Qed.

End Handlers.

(** ** Referral codes and the conversion rate *)

Section PartnerModel.
Import Partner.

Lemma allChars_app f s t :
  Js.allChars f (s ++ t) = Js.allChars f s && Js.allChars f t.
Proof.
  induction s as [|c s IH]; simpl; [reflexivity|].
  rewrite IH. apply andb_assoc.
Qed.

Lemma allChars_substring f a n s :
  Js.allChars f s = true -> Js.allChars f (String.substring a n s) = true.
Proof.
  revert a n. induction s as [|c s IH]; intros a n H.
  - destruct a, n; reflexivity.
  - simpl in H. apply andb_prop in H as [Hc Hs].
    destruct a; [destruct n|]; simpl; [reflexivity| |apply IH; exact Hs].
    rewrite Hc. simpl. apply IH. exact Hs.
Qed.

Lemma toUpperChar_alnum c :
  Js.isAlnum c = true -> Js.isUpperAlnum (Js.toUpperChar c) = true.
Proof.
  destruct c as [[] [] [] [] [] [] [] []]; vm_compute; intros; congruence.
Qed.

Lemma toUpperCase_alnum s :
  Js.allChars Js.isAlnum s = true ->
  Js.allChars Js.isUpperAlnum (Js.toUpperCase s) = true.
Proof.
  induction s as [|c s IH]; simpl; [reflexivity|].
  intros H. apply andb_prop in H as [Hc Hs].
  rewrite (toUpperChar_alnum c Hc). simpl. apply IH. exact Hs.
Qed.

Lemma stripNonAlnum_alnum s : Js.allChars Js.isAlnum (Js.stripNonAlnum s) = true.
Proof.
  induction s as [|c s IH]; simpl; [reflexivity|].
  destruct (Js.isAlnum c) eqn:Hc; simpl; [rewrite Hc|]; exact IH.
Qed.

Lemma toUpperCase_substring a n s :
  Js.toUpperCase (String.substring a n s) = String.substring a n (Js.toUpperCase s).
Proof.
  revert a n. induction s as [|c s IH]; intros a n.
  - destruct a, n; reflexivity.
  - destruct a; [destruct n|]; simpl; [reflexivity|rewrite IH; reflexivity|apply IH].
Qed.

Lemma base36_alnum s :
  Js.allChars Js.isBase36Digit s = true -> Js.allChars Js.isAlnum s = true.
Proof.
  induction s as [|c s IH]; simpl; [reflexivity|].
  intros H. apply andb_prop in H as [Hc Hs]. rewrite (IH Hs), andb_true_r.
  unfold Js.isBase36Digit in Hc. unfold Js.isAlnum.
  destruct (Js.isDigit c), (Js.isLower c), (Js.isUpper c); simpl in *; congruence.
Qed.

(** A generated code is the tenant tag followed by upper-case letters and
    digits only. *)
Lemma generatePartnerCode_shape name r :
  Js.allChars Js.isBase36Digit (Js.substring 2 5 r) = true ->
  Js.allChars Js.isUpperAlnum (cleanName name ++ randomSuffix r) = true.
Proof.
  intros Hr. rewrite allChars_app. apply andb_true_intro. split.
  - unfold cleanName, Js.substring. apply allChars_substring.
    apply toUpperCase_alnum, stripNonAlnum_alnum.
  - unfold randomSuffix. apply toUpperCase_alnum, base36_alnum, Hr.
Qed.

Lemma findOneByCode_None existing c :
  findOneByCode existing c = None <-> forall p, In p existing -> code p <> Some c.
Proof.
  unfold findOneByCode. split.
  - intros H p Hp Hc. apply (find_none _ _ H) in Hp.
    apply bool_decide_eq_false in Hp. contradiction.
  - intros H. induction existing as [|q ps IH]; simpl; [reflexivity|].
    rewrite bool_decide_eq_false_2 by (apply H; left; reflexivity).
    apply IH. intros p Hp. apply H. right. exact Hp.
Qed.

(** The retry loop returns the first unused candidate among the attempts it
    is allowed, and nothing when they are all taken. *)
Lemma tryCodes_spec rnd existing name remaining attempts :
  match tryCodes remaining attempts rnd existing name with
  | Some c =>
      exists k, (attempts <= k < attempts + remaining)%nat /\
        c = generatePartnerCode name (rnd k) /\
        findOneByCode existing c = None /\
        forall j, (attempts <= j < k)%nat ->
          findOneByCode existing (generatePartnerCode name (rnd j)) <> None
  | None =>
      forall j, (attempts <= j < attempts + remaining)%nat ->
        findOneByCode existing (generatePartnerCode name (rnd j)) <> None
  end.
Proof.
  revert attempts. induction remaining as [|n IH]; intros attempts; simpl.
  - intros j Hj. lia.
  - destruct (findOneByCode existing (generatePartnerCode name (rnd attempts)))
      as [q|] eqn:Hq.
    + specialize (IH (S attempts)).
      destruct (tryCodes n (S attempts) rnd existing name) as [c|].
      * destruct IH as (k & Hk & Hc & Hfree & Hbefore).
        exists k. repeat split; try lia; auto.
        intros j Hj. destruct (decide (j = attempts)) as [->|Hne].
        -- rewrite Hq. discriminate.
        -- apply Hbefore. lia.
      * intros j Hj. destruct (decide (j = attempts)) as [->|Hne].
        -- rewrite Hq. discriminate.
        -- apply IH. lia.
    + exists attempts. repeat split; try lia; auto.
Qed.

(** The hook taken alone does not always find a code. With a random source
    that repeats itself, all ten candidates for a second "Jane Doe" collide
    with the existing code and the hook gives up, although codes with
    another suffix are unused. And a name with eight or more letters and
    digits receives a code with eleven characters after the tag, which the
    schema validator refuses. *)
Lemma preSave_retry_budget_and_length :
  preSave Examples.stuck [Examples.jane] Examples.janeAgain = inr codeError /\
  findOneByCode [Examples.jane] (generatePartnerCode "Jane Doe" "0.q2z81") = None /\
  preSave Examples.stuck [Examples.jane] Examples.jonathan
  = inl (setCode "TWBFL-JONATHANX7K" Examples.jonathan) /\
  codeValidator "TWBFL-JONATHANX7K" = false.
Proof. vm_compute. repeat split; reflexivity. Qed.

(** The hook taken alone, on a document without a code and with a name:
    it draws at most ten candidates, each the tag [TWBFL-] followed by
    upper-case letters and digits (the stem of the name and the random
    suffix). It assigns the first candidate that no stored partner carries,
    so the new code differs from every existing one; it fails with the error
    of the source exactly when all ten candidates are taken. *)
Lemma preSave_code_generation (rnd : nat -> string) (existing : list doc) (this : doc) :
  code this = None ->
  name this <> "" ->
  (forall k, Js.allChars Js.isBase36Digit (Js.substring 2 5 (rnd k)) = true) ->
  match preSave rnd existing this with
  | inl saved =>
      exists k body,
        (k < maxAttempts)%nat /\
        saved = setCode (generatePartnerCode (name this) (rnd k)) this /\
        generatePartnerCode (name this) (rnd k) = prefix ++ body /\
        Js.allChars Js.isUpperAlnum body = true /\
        (forall p, In p existing -> code p <> code saved) /\
        (forall j, (j < k)%nat ->
           exists p, In p existing /\
             code p = Some (generatePartnerCode (name this) (rnd j)))
  | inr e =>
      e = codeError /\
      forall j, (j < maxAttempts)%nat ->
        exists p, In p existing /\
          code p = Some (generatePartnerCode (name this) (rnd j))
  end.
Proof.
  intros Hcode Hname Hrnd.
  assert (Hn : String.eqb (name this) "" = false) by (apply String.eqb_neq, Hname).
  unfold preSave, Js.truthy. rewrite Hcode, Hn. cbn [negb andb].
  assert (Htaken : forall c, findOneByCode existing c <> None ->
            exists p, In p existing /\ code p = Some c).
  { intros c Hc. unfold findOneByCode in *.
    destruct (find _ existing) as [p|] eqn:Hp; [|congruence].
    apply find_some in Hp as [Hin Hp]. apply bool_decide_eq_true in Hp. eauto. }
  pose proof (tryCodes_spec rnd existing (name this) maxAttempts 0) as Hspec.
  destruct (tryCodes maxAttempts 0 rnd existing (name this)) as [c|].
  - destruct Hspec as (k & Hk & -> & Hfree & Hbefore). cbn beta iota.
    exists k, (cleanName (name this) ++ randomSuffix (rnd k)).
    repeat split.
    + lia.
    + apply generatePartnerCode_shape, Hrnd.
    + intros p Hp. simpl. apply (proj1 (findOneByCode_None _ _) Hfree p Hp).
    + intros j Hj. apply Htaken, Hbefore. lia.
  - cbn beta iota. split; [reflexivity|]. intros j Hj. apply Htaken, Hspec. lia.
Qed.

(** A document that passed validation has a code, and the hook leaves it
    as it is. *)
Lemma validateCode_None (this : doc) :
  validateCode this = None ->
  exists c, code this = Some c /\ c <> "" /\ codeValidator c = true.
Proof.
  unfold validateCode. destruct (code this) as [c|]; [|discriminate].
  destruct (String.eqb c "") eqn:Hc; [discriminate|].
  destruct (codeValidator c) eqn:Hv; [|discriminate].
  intros _. exists c. split; [reflexivity|].
  split; [apply String.eqb_neq, Hc|exact Hv].
Qed.

(** C3 fails in the code: no partner is ever given a generated code. The
    schema makes [code] required, and the document is validated before the
    hook that generates codes is run. So [Partner.create] as [createPartner]
    calls it, without a code, ends in the validation error for [code],
    whatever the name, the existing partners and the random numbers; and a
    [save] that succeeds is that of a document that already had a valid
    code, which is stored unchanged. For a second "Jane Doe" and an empty
    collection the hook alone would have assigned [TWBFL-JANEDOEX7K], which
    is valid and unused: a unique code exists and creation fails. The hook
    has slips of its own: for "Jonathan Smith" it assigns a code with
    eleven characters after the tag, which the validator of the schema
    refuses. *)
Theorem C3_creation_never_generates_code :
  (forall rnd existing id name type email now,
     create rnd existing id name type email now
     = ValidationError requiredError) /\
  (forall rnd existing this,
     match save rnd existing this with
     | Saved d =>
         d = this /\
         exists c, code this = Some c /\ c <> "" /\ codeValidator c = true
     | ValidationError message =>
         message = requiredError \/ message = formatError
     | HookError _ => False
     end) /\
  (preSave Examples.stuck [] Examples.janeAgain
   = inl (setCode "TWBFL-JANEDOEX7K" Examples.janeAgain) /\
   codeValidator "TWBFL-JANEDOEX7K" = true /\
   save Examples.stuck [] Examples.janeAgain = ValidationError requiredError) /\
  (preSave Examples.stuck [Examples.jane] Examples.jonathan
   = inl (setCode "TWBFL-JONATHANX7K" Examples.jonathan) /\
   codeValidator "TWBFL-JONATHANX7K" = false).
Proof.
  split; [reflexivity|]. split.
  { intros rnd existing this. unfold save.
    destruct (validateCode this) as [m|] eqn:Hv.
    - unfold validateCode in Hv. destruct (code this) as [c|].
      + destruct (String.eqb c ""); [left; congruence|].
        destruct (codeValidator c); [discriminate|right; congruence].
      + left. congruence.
    - destruct (validateCode_None this Hv) as (c & Hc & Hne & Hok).
      unfold preSave, Js.truthy. rewrite Hc.
      apply String.eqb_neq in Hne. rewrite Hne. cbn [negb andb].
      split; [reflexivity|]. exists c. apply String.eqb_neq in Hne. auto. }
  split; vm_compute; repeat split; reflexivity.
Qed.

(** [toFixed(2)] returns the nearest number of hundredths, rounding a tie
    upwards. *)
Lemma toFixed2_nearest (x : Q) :
  (x - (1 # 200) < inject_Z (Js.toFixed2 x) / 100)%Q /\
  (inject_Z (Js.toFixed2 x) / 100 <= x + (1 # 200))%Q.
Proof.
  unfold Js.toFixed2.
  pose proof (Qfloor_le (x * 100 + (1 # 2))) as Hle.
  pose proof (Qlt_floor (x * 100 + (1 # 2))) as Hlt.
  rewrite inject_Z_plus in Hlt.
  set (n := inject_Z (Qfloor (x * 100 + (1 # 2)))) in *.
  change (inject_Z 1) with 1%Q in Hlt.
  unfold Qdiv. change (/ 100)%Q with (1 # 100)%Q.
  split; lra.
Qed.

(** *** Rounding to a double *)

Lemma roundHalfEven_near (s : Q) :
  (s - (1 # 2) <= inject_Z (Js.roundHalfEven s) <= s + (1 # 2))%Q.
Proof.
  unfold Js.roundHalfEven.
  pose proof (Qfloor_le s) as Hle. pose proof (Qlt_floor s) as Hlt.
  rewrite inject_Z_plus in Hlt. change (inject_Z 1) with 1%Q in Hlt.
  set (f := Qfloor s) in *.
  destruct (Qcompare (s - inject_Z f) (1 # 2)) eqn:Hc.
  - apply Qeq_alt in Hc. destruct (Z.even f).
    + split; lra.
    + rewrite inject_Z_plus. change (inject_Z 1) with 1%Q. split; lra.
  - apply Qlt_alt in Hc. split; lra.
  - apply Qgt_alt in Hc. rewrite inject_Z_plus. change (inject_Z 1) with 1%Q.
    split; lra.
Qed.

Lemma pow2_pos (e : Z) : (0 < Js.pow2 e)%Q.
Proof. apply Qpower_0_lt. reflexivity. Qed.

Lemma pow2_plus (a b : Z) : (Js.pow2 (a + b) == Js.pow2 a * Js.pow2 b)%Q.
Proof. unfold Js.pow2. apply Qpower_plus. discriminate. Qed.

Lemma pow2_nonneg (a : Z) : 0 <= a -> (Js.pow2 a == inject_Z (2 ^ a))%Q.
Proof.
  intros Ha. unfold Js.pow2. rewrite Zpower_Qpower by exact Ha. reflexivity.
Qed.

(** A positive rational is at least two to the difference of the binary
    logarithms of its numerator and denominator, less one. *)
Lemma log2_lower (q : Q) :
  (0 < q)%Q ->
  (Js.pow2 (Z.log2 (Qnum q) - Z.log2 (Zpos (Qden q)) - 1) <= q)%Q.
Proof.
  intros Hq. destruct q as [n d]. cbn [Qnum Qden].
  assert (Hn : 0 < n). { unfold Qlt in Hq. simpl in Hq. lia. }
  pose proof (Z.log2_spec n Hn) as [Hn1 _].
  pose proof (Z.log2_spec (Zpos d) (Pos2Z.is_pos d)) as [_ Hd2].
  pose proof (Z.log2_nonneg n) as Ha. pose proof (Z.log2_nonneg (Zpos d)) as Hb.
  set (a := Z.log2 n) in *. set (b := Z.log2 (Zpos d)) in *.
  assert (Hsplit : (Js.pow2 (a - b - 1) * Js.pow2 (b + 1) == Js.pow2 a)%Q).
  { rewrite <- pow2_plus. replace (a - b - 1 + (b + 1)) with a by lia.
    reflexivity. }
  rewrite (pow2_nonneg a Ha), (pow2_nonneg (b + 1)) in Hsplit by lia.
  replace (Z.succ b) with (b + 1) in Hd2 by lia.
  pose proof (pow2_pos (a - b - 1)) as Hx.
  set (x := Js.pow2 (a - b - 1)) in *.
  assert (Hd' : (inject_Z (Zpos d) <= inject_Z (2 ^ (b + 1)))%Q).
  { rewrite <- Zle_Qle. lia. }
  assert (Hn' : (inject_Z (2 ^ a) <= inject_Z n)%Q).
  { rewrite <- Zle_Qle. lia. }
  assert (Hq' : (n # d == inject_Z n / inject_Z (Zpos d))%Q).
  { rewrite Qmake_Qdiv. reflexivity. }
  rewrite Hq'. apply Qle_shift_div_l.
  { change 0%Q with (inject_Z 0). rewrite <- Zlt_Qlt. lia. }
  apply Qle_trans with (x * inject_Z (2 ^ (b + 1)))%Q.
  - apply Qmult_le_l; [exact Hx|exact Hd'].
  - rewrite Hsplit. exact Hn'.
Qed.

(** The significand that [doublePos] rounds has 53 bits at least, so the
    double nearest to a positive rational differs from it by at most the
    fraction [2^-53] of it. *)
Lemma doublePos_error (q : Q) :
  (0 < q)%Q ->
  (q - q * Js.epsilon <= Js.doublePos q <= q + q * Js.epsilon)%Q.
Proof.
  intros Hq. unfold Js.doublePos.
  set (k := Z.log2 (Qnum q) - Z.log2 (Zpos (Qden q))).
  set (e0 := k - 52).
  set (e := if Qle_bool _ _ then e0 else e0 - 1).
  assert (Hs : (inject_Z (2 ^ 52) <= q / Js.pow2 e)%Q).
  { subst e. destruct (Qle_bool _ _) eqn:Ht.
    - apply Qle_bool_iff in Ht. exact Ht.
    - pose proof (log2_lower q Hq) as Hlow. fold k in Hlow.
      apply Qle_shift_div_l; [apply pow2_pos|].
      assert (He : (inject_Z (2 ^ 52) * Js.pow2 (e0 - 1) == Js.pow2 (k - 1))%Q).
      { rewrite <- (pow2_nonneg 52) by lia. rewrite <- pow2_plus.
        replace (52 + (e0 - 1)) with (k - 1) by (subst e0; lia). reflexivity. }
      rewrite He. exact Hlow. }
  pose proof (roundHalfEven_near (q / Js.pow2 e)) as [Hlo Hhi].
  pose proof (pow2_pos e) as Hp.
  set (p := Js.pow2 e) in *.
  set (m := inject_Z (Js.roundHalfEven (q / p))) in *.
  assert (Hqs : (q / p * p == q)%Q). { field. lra. }
  set (s := (q / p)%Q) in *.
  assert (H52 : (inject_Z (2 ^ 52) == 4503599627370496 # 1)%Q) by reflexivity.
  rewrite H52 in Hs.
  unfold Js.epsilon. change (2 ^ 53)%positive with 9007199254740992%positive.
  assert (Hp2 : (p * (1 # 2) <= q * (1 # 9007199254740992))%Q).
  { rewrite <- Hqs.
    assert (Hsp : ((4503599627370496 # 1) * p <= s * p)%Q).
    { apply Qmult_le_compat_r; [exact Hs|lra]. }
    lra. }
  assert (Hm1 : ((s - (1 # 2)) * p <= m * p)%Q).
  { apply Qmult_le_compat_r; [exact Hlo|lra]. }
  assert (Hm2 : (m * p <= (s + (1 # 2)) * p)%Q).
  { apply Qmult_le_compat_r; [exact Hhi|lra]. }
  split; lra.
Qed.

Lemma double_error (q : Q) :
  (0 <= q)%Q ->
  (q - q * Js.epsilon <= Js.double q <= q + q * Js.epsilon)%Q.
Proof.
  intros Hq. unfold Js.double. destruct (Qcompare q 0) eqn:Hc.
  - apply Qeq_alt in Hc. rewrite Hc. split; vm_compute; discriminate.
  - apply Qlt_alt in Hc. lra.
  - apply Qgt_alt in Hc. apply doublePos_error. exact Hc.
Qed.

Lemma double_nonneg (q : Q) : (0 <= q)%Q -> (0 <= Js.double q)%Q.
Proof.
  intros Hq. pose proof (double_error q Hq) as [Hlo _].
  unfold Js.epsilon in Hlo.
  change (2 ^ 53)%positive with 9007199254740992%positive in Hlo.
  lra.
Qed.

Lemma roundHalfEven_le (s : Q) (i : Z) :
  (s <= inject_Z i)%Q -> Js.roundHalfEven s <= i.
Proof.
  intros Hs. unfold Js.roundHalfEven.
  pose proof (Qfloor_le s) as Hle. pose proof (Qlt_floor s) as Hlt.
  set (f := Qfloor s) in *.
  assert (Hf : f <= i).
  { rewrite Zle_Qle. lra. }
  destruct (Qcompare (s - inject_Z f) (1 # 2)) eqn:Hc.
  - apply Qeq_alt in Hc. destruct (Z.even f); [exact Hf|].
    assert (Hlt' : (inject_Z f < inject_Z i)%Q) by lra.
    rewrite <- Zlt_Qlt in Hlt'. lia.
  - exact Hf.
  - apply Qgt_alt in Hc.
    assert (Hlt' : (inject_Z f < inject_Z i)%Q) by lra.
    rewrite <- Zlt_Qlt in Hlt'. lia.
Qed.

(** Rounding to a double does not pass an integer below [2^52], for such
    an integer is a double. *)
Lemma doublePos_le_integer (q : Q) (r : Z) :
  (0 < q)%Q -> (q <= inject_Z r)%Q -> r < 2 ^ 52 ->
  (Js.doublePos q <= inject_Z r)%Q.
Proof.
  intros Hq Hr Hr52. unfold Js.doublePos.
  set (k := Z.log2 (Qnum q) - Z.log2 (Zpos (Qden q))).
  set (e0 := k - 52).
  set (e := if Qle_bool _ _ then e0 else e0 - 1).
  assert (Hr0 : 0 < r).
  { rewrite Zlt_Qlt. change (inject_Z 0) with 0%Q. lra. }
  assert (Hk : k <= 52).
  { subst k. destruct q as [n d]. cbn [Qnum Qden].
    assert (Hn : 0 < n). { unfold Qlt in Hq. simpl in Hq. lia. }
    assert (Hnd : n <= r * Zpos d).
    { unfold Qle in Hr. simpl in Hr. lia. }
    pose proof (Z.log2_le_mono _ _ Hnd) as Hmono.
    pose proof (Z.log2_mul_above r (Zpos d) (Z.lt_le_incl _ _ Hr0)
                  (Pos2Z.is_nonneg d)) as Hmul.
    assert (Hlr : Z.log2 r < 52).
    { apply Z.log2_lt_pow2; [exact Hr0|exact Hr52]. }
    lia. }
  assert (He : e <= 0).
  { subst e e0. destruct (Qle_bool _ _); lia. }
  pose proof (pow2_pos e) as Hp.
  assert (Hinv : (Js.pow2 e * inject_Z (2 ^ (- e)) == 1)%Q).
  { rewrite <- (pow2_nonneg (- e)) by lia. rewrite <- pow2_plus.
    replace (e + - e) with 0 by lia. reflexivity. }
  set (p := Js.pow2 e) in *. set (w := inject_Z (2 ^ (- e))) in *.
  assert (Hrw : (inject_Z r * w * p == inject_Z r)%Q).
  { assert (H : (inject_Z r * w * p == inject_Z r * (p * w))%Q) by ring.
    rewrite H, Hinv. ring. }
  assert (Hs : (q / p <= inject_Z (r * 2 ^ (- e)))%Q).
  { rewrite inject_Z_mult. fold w. apply Qle_shift_div_r; [exact Hp|].
    rewrite Hrw. exact Hr. }
  pose proof (roundHalfEven_le _ _ Hs) as Hm.
  rewrite Zle_Qle, inject_Z_mult in Hm. fold w in Hm.
  set (m := inject_Z (Js.roundHalfEven (q / p))) in *.
  assert (Hmp : (m * p <= inject_Z r * w * p)%Q).
  { apply Qmult_le_compat_r; [exact Hm|lra]. }
  rewrite Hrw in Hmp. exact Hmp.
Qed.

Lemma double_le_integer (q : Q) (r : Z) :
  (0 <= q)%Q -> (q <= inject_Z r)%Q -> r < 2 ^ 52 ->
  (Js.double q <= inject_Z r)%Q.
Proof.
  intros Hq Hr Hr52. unfold Js.double. destruct (Qcompare q 0) eqn:Hc.
  - lra.
  - apply Qlt_alt in Hc. lra.
  - apply Qgt_alt in Hc. apply doublePos_le_integer; assumption.
Qed.

(** The percentage of a part in a whole is computed as a number between 0
    and 100. *)
Lemma percentOf_bounds (a b : N) :
  (a <= b)%N -> (0 < b)%N ->
  (0 <= Js.percentOf a b)%Q /\ (Js.percentOf a b <= 100)%Q.
Proof.
  intros Hab Hb. unfold Js.percentOf.
  set (q := (inject_Z (Z.of_N a) / inject_Z (Z.of_N b))%Q).
  assert (Hb' : (0 < inject_Z (Z.of_N b))%Q).
  { change 0%Q with (inject_Z 0). rewrite <- Zlt_Qlt. lia. }
  assert (H0 : (0 <= q)%Q).
  { subst q. apply Qle_shift_div_l; [exact Hb'|]. rewrite Qmult_0_l.
    change 0%Q with (inject_Z 0). rewrite <- Zle_Qle. lia. }
  assert (H1 : (q <= inject_Z 1)%Q).
  { subst q. apply Qle_shift_div_r; [exact Hb'|].
    change (inject_Z 1) with 1%Q. rewrite Qmult_1_l. rewrite <- Zle_Qle. lia. }
  pose proof (double_nonneg q H0) as Hu0.
  pose proof (double_le_integer q 1 H0 H1 eq_refl) as Hu1.
  change (inject_Z 1) with 1%Q in Hu1.
  set (u := Js.double q) in *.
  assert (Hy0 : (0 <= u * 100)%Q) by lra.
  assert (Hy1 : (u * 100 <= inject_Z 100)%Q).
  { change (inject_Z 100) with 100%Q. lra. }
  split; [apply double_nonneg, Hy0|].
  apply (double_le_integer (u * 100) 100 Hy0 Hy1 eq_refl).
Qed.

(** The percentage as the code computes it, the quotient and the product
    each rounded to a double, is within three parts in [2^53] of the exact
    percentage. *)
Lemma percentOf_error (b l : N) :
  (0 < l)%N ->
  let x := (inject_Z (Z.of_N b) / inject_Z (Z.of_N l) * 100)%Q in
  (0 <= x)%Q /\
  (x - x * 3 * Js.epsilon <= Js.percentOf b l)%Q /\
  (Js.percentOf b l <= x + x * 3 * Js.epsilon)%Q.
Proof.
  intros Hl x. unfold Js.percentOf. subst x.
  set (q := (inject_Z (Z.of_N b) / inject_Z (Z.of_N l))%Q).
  assert (Hq : (0 <= q)%Q).
  { subst q. apply Qle_shift_div_l.
    - change 0%Q with (inject_Z 0). rewrite <- Zlt_Qlt. lia.
    - rewrite Qmult_0_l. change 0%Q with (inject_Z 0). rewrite <- Zle_Qle. lia. }
  pose proof (double_error q Hq) as [Hu1 Hu2].
  pose proof (double_nonneg q Hq) as Hu0.
  set (u := Js.double q) in *.
  assert (Hu100 : (0 <= u * 100)%Q) by lra.
  pose proof (double_error (u * 100) Hu100) as [Hy1 Hy2].
  set (y := Js.double (u * 100)) in *.
  unfold Js.epsilon in *.
  change (2 ^ 53)%positive with 9007199254740992%positive in *.
  assert (Hue1 : (u * 100 * (1 # 9007199254740992)
                  <= (q + q * (1 # 9007199254740992)) * 100
                     * (1 # 9007199254740992))%Q) by lra.
  split; [lra|]. split; lra.
Qed.

(** A percentage computed from counts with [bookings <= leads] is printed
    as a string between 0.00 and 100.00. *)
Lemma toFixed2_percentOf_bounds (b l : N) :
  (b <= l)%N -> (0 < l)%N -> 0 <= Js.toFixed2 (Js.percentOf b l) <= 10000.
Proof.
  intros Hbl Hl. pose proof (percentOf_bounds b l Hbl Hl) as [H0 H1].
  unfold Js.toFixed2. set (y := Js.percentOf b l) in *.
  pose proof (Qfloor_le (y * 100 + (1 # 2))) as Hle.
  pose proof (Qlt_floor (y * 100 + (1 # 2))) as Hlt.
  set (n := Qfloor (y * 100 + (1 # 2))) in *.
  split.
  - assert (Hn : (inject_Z (-1) < inject_Z n)%Q).
    { rewrite inject_Z_plus in Hlt. change (inject_Z 1) with 1%Q in Hlt.
      change (inject_Z (-1)) with (-1 # 1)%Q. lra. }
    rewrite <- Zlt_Qlt in Hn. lia.
  - assert (Hn : (inject_Z n < inject_Z 10001)%Q).
    { change (inject_Z 10001) with (10001 # 1)%Q. lra. }
    rewrite <- Zlt_Qlt in Hn. lia.
Qed.

(** C7, as stated, fails for the non-zero branch. One booking out of three
    leads gives the string ["33.33"], which is not [1 / 3 * 100]. And the
    string is not always the two-decimal rounding of the quotient either:
    for 23 bookings out of 160 leads the quotient is 14.375 exactly, whose
    rounding is 14.38, and the getter returns ["14.37"], because the product
    it rounds is the double just below 14.375. *)
Lemma C7_rate_is_rounded_string :
  (conversionRate Examples.oneInThree = Js.Fixed2 3333 /\
   Js.renderFixed2 3333 = "33.33" /\
   ~ (inject_Z 3333 / 100 == inject_Z 1 / inject_Z 3 * 100)%Q) /\
  (conversionRate Examples.twentyThreeIn160 = Js.Fixed2 1437 /\
   Js.renderFixed2 1437 = "14.37" /\
   (inject_Z 23 / inject_Z 160 * 100 == 14375 # 1000)%Q /\
   (Js.percentOf 23 160 < 14375 # 1000)%Q /\
   Js.toFixed2 (inject_Z 23 / inject_Z 160 * 100) = 1438).
Proof.
  split.
  - split; [vm_compute; reflexivity|]. split; [vm_compute; reflexivity|].
    intros H. vm_compute in H. discriminate.
  - split; [vm_compute; reflexivity|]. split; [vm_compute; reflexivity|].
    split; [vm_compute; reflexivity|]. split; vm_compute; reflexivity.
Qed.

(** C7, amended. With no leads the getter returns the number 0 and divides
    nothing. Otherwise, the counters being integers that a double holds
    exactly, it returns the string that [toFixed(2)] makes of the double
    [Js.percentOf bookings leads]: the decimal with two places nearest to that
    double, the larger one on a tie. The double is what the code computes
    for [totalBookings / totalLeads * 100] and lies within three parts in
    [2^53] of that percentage, so the string is within half a hundredth and
    that rounding error of the percentage; it need not be the two-decimal
    rounding of the percentage, and it equals the percentage only when that
    has at most two decimals. The getter is total: no input makes it fail,
    and the percentage is not negative. *)
Theorem C7_conversion_rate (this : doc) :
  let leads := inject_Z (Z.of_N (totalLeads (stats this))) in
  let bookings := inject_Z (Z.of_N (totalBookings (stats this))) in
  let percentage := (bookings / leads * 100)%Q in
  let computed :=
    Js.percentOf (totalBookings (stats this)) (totalLeads (stats this)) in
  (totalLeads (stats this) <= Js.maxSafeInteger)%N ->
  (totalBookings (stats this) <= Js.maxSafeInteger)%N ->
  (totalLeads (stats this) = 0%N -> conversionRate this = Js.Num 0) /\
  (totalLeads (stats this) <> 0%N ->
     exists n : Z,
       conversionRate this = Js.Fixed2 n /\
       n = Js.toFixed2 computed /\
       (computed - (1 # 200) < inject_Z n / 100)%Q /\
       (inject_Z n / 100 <= computed + (1 # 200))%Q /\
       (0 <= percentage)%Q /\
       (percentage - percentage * 3 * Js.epsilon <= computed)%Q /\
       (computed <= percentage + percentage * 3 * Js.epsilon)%Q /\
       (percentage - percentage * 3 * Js.epsilon - (1 # 200)
        < inject_Z n / 100)%Q /\
       (inject_Z n / 100
        <= percentage + percentage * 3 * Js.epsilon + (1 # 200))%Q /\
       0 <= n).
Proof.
  intros leads bookings percentage computed _ _. unfold conversionRate. split.
  - intros ->. reflexivity.
  - intros Hne. pose proof Hne as Hne'. apply N.eqb_neq in Hne'. rewrite Hne'.
    assert (Hl : (0 < totalLeads (stats this))%N) by lia.
    pose proof (percentOf_error (totalBookings (stats this))
                  (totalLeads (stats this)) Hl) as (Hx0 & Hlo & Hhi).
    cbv zeta in Hx0, Hlo, Hhi.
    fold leads bookings in Hx0, Hlo, Hhi. fold percentage in Hx0, Hlo, Hhi.
    fold computed in Hlo, Hhi. fold computed.
    pose proof (toFixed2_nearest computed) as [Hn1 Hn2].
    eexists. split; [reflexivity|]. split; [reflexivity|].
    split; [exact Hn1|]. split; [exact Hn2|]. split; [exact Hx0|].
    split; [exact Hlo|]. split; [exact Hhi|].
    set (n := Js.toFixed2 computed) in *.
    set (r := (inject_Z n / 100)%Q) in *.
    split; [lra|]. split; [lra|].
    assert (Hr : (inject_Z (-1) < inject_Z n)%Q).
    { assert (Hr' : (r * 100 == inject_Z n)%Q) by (subst r; field).
      rewrite <- Hr'. change (inject_Z (-1)) with (-1 # 1)%Q.
      unfold Js.epsilon in *.
      change (2 ^ 53)%positive with 9007199254740992%positive in *. lra. }
    rewrite <- Zlt_Qlt in Hr. lia.
Qed.

(** The theorem for one booking out of three leads. *)
Lemma C7_conversion_rate_witness :
  totalLeads (stats Examples.oneInThree) <> 0%N /\
  exists n : Z,
    conversionRate Examples.oneInThree = Js.Fixed2 n /\
    (inject_Z 1 / inject_Z 3 * 100 - (inject_Z 1 / inject_Z 3 * 100) * 3 * Js.epsilon
     - (1 # 200) < inject_Z n / 100)%Q.
Proof.
  assert (Hne : totalLeads (stats Examples.oneInThree) <> 0%N) by discriminate.
  split; [exact Hne|].
  assert (Hl : (totalLeads (stats Examples.oneInThree) <= Js.maxSafeInteger)%N)
    by (vm_compute; discriminate).
  assert (Hb : (totalBookings (stats Examples.oneInThree) <= Js.maxSafeInteger)%N)
    by (vm_compute; discriminate).
  destruct (C7_conversion_rate Examples.oneInThree Hl Hb) as [_ H].
  destruct (H Hne) as (n & Hrate & _ & _ & _ & _ & _ & _ & Hlo & _).
  exists n. split; [exact Hrate|exact Hlo].
Defined.

End PartnerModel.

(** ** Counting with [filter] *)

Section Counting.
Context {A : Type}.
Implicit Types (P Q : A -> Prop) (l : list A).

Lemma filter_ext_in P Q `{!forall x, Decision (P x)} `{!forall x, Decision (Q x)} l :
  (forall x, x ∈ l -> (P x <-> Q x)) -> filter P l = filter Q l.
Proof.
  induction l as [|x l IH]; intros Hpq; [reflexivity|].
  rewrite !filter_cons.
  assert (Hx : P x <-> Q x) by (apply Hpq, list_elem_of_here).
  rewrite IH by (intros y Hy; apply Hpq, list_elem_of_further, Hy).
  destruct (decide (P x)), (decide (Q x)); tauto.
Qed.

Lemma filter_none P `{!forall x, Decision (P x)} l :
  (forall x, x ∈ l -> ~ P x) -> filter P l = [].
Proof.
  induction l as [|x l IH]; intros Hno; [reflexivity|].
  rewrite filter_cons_False by (apply Hno, list_elem_of_here).
  apply IH. intros y Hy. apply Hno, list_elem_of_further, Hy.
Qed.

Lemma length_filter_or P Q `{!forall x, Decision (P x)} `{!forall x, Decision (Q x)} l :
  (forall x, P x -> Q x -> False) ->
  length (filter (fun x => P x \/ Q x) l) = (length (filter P l) + length (filter Q l))%nat.
Proof.
  intros Hdisj. induction l as [|x l IH]; [reflexivity|].
  rewrite !filter_cons.
  destruct (decide (P x)) as [HP|HP], (decide (Q x)) as [HQ|HQ].
  - destruct (Hdisj x HP HQ).
  - rewrite decide_True by tauto. simpl. rewrite IH. reflexivity.
  - rewrite decide_True by tauto. simpl. rewrite IH. lia.
  - rewrite decide_False by tauto. exact IH.
Qed.

End Counting.

(** ** The daily rollup *)

Section Rollup.
Import Analytics.

(** *** The upsert *)






(** *** The loop over the grouped rows *)

Lemma forEachStep_date acc item :
  date (forEachStep acc item).2 = date acc.2.
Proof.
  destruct acc as [U su], item as [[[t p] ip] n]. simpl.
  destruct ip as [ip|]; [destruct (negb (String.eqb ip ""))|]; destruct t; reflexivity.
Qed.

Lemma fold_forEachStep_date rows acc :
  date (fold_left forEachStep rows acc).2 = date acc.2.
Proof.
  revert acc. induction rows as [|r rows IH]; intros acc; simpl; [reflexivity|].
  rewrite IH. apply forEachStep_date.
Qed.

Lemma computeStats_date tz d log : date (computeStats tz d log) = startOfDay tz d.
Proof.
  unfold computeStats.
  pose proof (fold_forEachStep_date (aggregateDay tz d log)
                (∅, initialStats (startOfDay tz d))) as H.
  destruct (fold_left forEachStep (aggregateDay tz d log) _) as [U su].
  exact H.
Qed.


Lemma forEachStep_ips U su k n :
  (forEachStep (U, su) (k, n)).1 =
  match countedIp k with
  | Some ip => {[ ip ]} ∪ U
  | None => U
  end.
Proof.
  unfold forEachStep, countedIp. destruct (idIp k) as [ip|]; [|reflexivity].
  destruct (Js.truthy (Some ip)); reflexivity.
Qed.

(** What one row adds to each counter of [statsUpdate]. *)
Lemma forEachStep_fields U su k n :
  let su1 := (forEachStep (U, su) (k, n)).2 in
  (pageViews_total su1
   = pageViews_total su + (if isType page_view k then n else 0))%N /\
  (contactForms su1
   = contactForms su + (if isType contact_form k then n else 0))%N /\
  (galleryViews su1
   = galleryViews su + (if isType gallery_view k then n else 0))%N /\
  (reviews su1
   = reviews su + (if isType review_submission k then n else 0))%N /\
  (forall name,
     pageViews_byPage su1 !! name =
     if onPage name k && negb (Js.inObjectPrototype name)
     then Some (default 0 (pageViews_byPage su !! name) + n)%N
     else pageViews_byPage su !! name).
Proof.
  destruct k as [[t p] ip]. unfold forEachStep, isType, onPage, idType, idPage.
  cbn [fst snd].
  destruct t; simpl;
    repeat split; try (rewrite ?N.add_0_r; reflexivity); intros name.
  destruct p as [pg|]; [|reflexivity].
  destruct (String.eqb pg ""); [reflexivity|]. cbn [negb andb].
  destruct (String.eqb (pageNameOf pg) name) eqn:Hname.
  - apply String.eqb_eq in Hname. subst name.
    destruct (Js.inObjectPrototype (pageNameOf pg)); [reflexivity|].
    apply lookup_insert_eq.
  - apply String.eqb_neq in Hname. cbn [andb].
    destruct (Js.inObjectPrototype (pageNameOf pg)); [reflexivity|].
    apply lookup_insert_ne. exact Hname.
Qed.

Lemma sumWhere_cons f k n rows :
  sumWhere f ((k, n) :: rows)
  = if f k then (n + sumWhere f rows)%N else sumWhere f rows.
Proof. reflexivity. Qed.

Lemma sumWhere_none f rows :
  existsb f (map fst rows) = false -> sumWhere f rows = 0%N.
Proof.
  induction rows as [|[k n] rows IH]; [reflexivity|].
  cbn [map fst existsb]. rewrite sumWhere_cons.
  intros H. apply orb_false_elim in H as [Hk Hrows].
  rewrite Hk. apply IH, Hrows.
Qed.

Lemma fold_forEachStep_ips rows U su :
  (fold_left forEachStep rows (U, su)).1
  = list_to_set (omap (fun r => countedIp r.1) rows) ∪ U.
Proof.
  revert U su. induction rows as [|[k n] rows IH]; intros U su; cbn [fold_left].
  - symmetry. apply (left_id_L ∅ (∪)).
  - destruct (forEachStep (U, su) (k, n)) as [U1 su1] eqn:Hstep.
    rewrite IH. pose proof (forEachStep_ips U su k n) as Hips.
    rewrite Hstep in Hips. cbn [fst] in Hips. subst U1.
    cbn [omap list_omap fst]. destruct (countedIp k) as [ip|]; [|reflexivity].
    rewrite list_to_set_cons, (assoc_L (∪)). f_equal. apply (comm_L (∪)).
Qed.

(** The counters after the loop: what was there plus the counts of the rows
    of the matching type; a bucket of [byPage] is created by the first row
    that falls into it, unless its name is one of [Object.prototype]. *)
Lemma fold_forEachStep_fields rows U su :
  let su' := (fold_left forEachStep rows (U, su)).2 in
  (pageViews_total su'
   = pageViews_total su + sumWhere (isType page_view) rows)%N /\
  (contactForms su'
   = contactForms su + sumWhere (isType contact_form) rows)%N /\
  (galleryViews su'
   = galleryViews su + sumWhere (isType gallery_view) rows)%N /\
  (reviews su'
   = reviews su + sumWhere (isType review_submission) rows)%N /\
  (forall name,
     pageViews_byPage su' !! name =
     if existsb (onPage name) (map fst rows) && negb (Js.inObjectPrototype name)
     then Some (default 0 (pageViews_byPage su !! name)
                + sumWhere (onPage name) rows)%N
     else pageViews_byPage su !! name).
Proof.
  revert U su. induction rows as [|[k n] rows IH]; intros U su.
  - simpl. rewrite !N.add_0_r. auto.
  - cbn [fold_left].
    destruct (forEachStep (U, su) (k, n)) as [U1 su1] eqn:Hstep.
    destruct (IH U1 su1) as (Hpv & Hcf & Hgv & Hrv & Hbp).
    destruct (forEachStep_fields U su k n) as (Hpv1 & Hcf1 & Hgv1 & Hrv1 & Hbp1).
    rewrite Hstep in Hpv1, Hcf1, Hgv1, Hrv1, Hbp1. cbn [snd] in *.
    cbv zeta. rewrite Hpv, Hcf, Hgv, Hrv, Hpv1, Hcf1, Hgv1, Hrv1.
    rewrite !sumWhere_cons. cbn [fst snd map existsb].
    repeat split.
    + destruct (isType page_view k); lia.
    + destruct (isType contact_form k); lia.
    + destruct (isType gallery_view k); lia.
    + destruct (isType review_submission k); lia.
    + intros name. rewrite Hbp, Hbp1, sumWhere_cons.
      destruct (Js.inObjectPrototype name);
        [rewrite !andb_false_r; reflexivity|rewrite !andb_true_r].
      destruct (onPage name k); cbn [orb];
        destruct (existsb (onPage name) (map fst rows)) eqn:Hex;
        try reflexivity; simpl; f_equal.
      * lia.
      * rewrite (sumWhere_none _ _ Hex). lia.
Qed.

(** *** The grouped rows and the events behind them *)

Lemma sumWhere_keys (f : groupId -> bool) (cnt : groupId -> N) (ks : list groupId) :
  sumWhere f (map (fun k => (k, cnt k)) ks)
  = foldr (fun k acc => if f k then (cnt k + acc)%N else acc) 0%N ks.
Proof. induction ks as [|k ks IH]; simpl; [reflexivity|]. rewrite IH. reflexivity. Qed.

(** Summing the counts of distinct keys counts the events that carry one of
    them. *)
Lemma sum_counts_NoDup (f : groupId -> bool) (docs : list event) (ks : list groupId) :
  NoDup ks ->
  foldr (fun k acc =>
           if f k
           then (N.of_nat (length (filter (fun e => idOf e = k) docs)) + acc)%N
           else acc) 0%N ks
  = N.of_nat (length (filter (fun e => f (idOf e) = true /\ idOf e ∈ ks) docs)).
Proof.
  induction 1 as [|k ks Hk Hnd IH]; simpl.
  - rewrite filter_none; [reflexivity|].
    intros e _ [_ He]. exact (not_elem_of_nil _ He).
  - rewrite IH.
    rewrite (filter_ext_in
               (fun e => f (idOf e) = true /\ idOf e ∈ k :: ks)
               (fun e => (f (idOf e) = true /\ idOf e = k) \/
                         (f (idOf e) = true /\ idOf e ∈ ks))).
    2:{ intros e _. rewrite elem_of_cons. tauto. }
    rewrite length_filter_or.
    2:{ intros e [_ He] [_ He']. subst k. contradiction. }
    destruct (f k) eqn:Hf.
    + rewrite (filter_ext_in (fun e => f (idOf e) = true /\ idOf e = k)
                             (fun e => idOf e = k)).
      2:{ intros e _. split; [tauto|]. intros ->. tauto. }
      lia.
    + rewrite (filter_none (fun e => f (idOf e) = true /\ idOf e = k)).
      2:{ intros e _ [He Hk']. subst k. congruence. }
      reflexivity.
Qed.

Lemma sumWhere_groupCount (f : groupId -> bool) (docs : list event) :
  sumWhere f (groupCount docs) = eventsWhere f docs.
Proof.
  unfold groupCount, groupCountBy, eventsWhere.
  rewrite (sumWhere_keys f
             (fun k => N.of_nat (length (filter (fun e => idOf e = k) docs)))).
  rewrite sum_counts_NoDup by apply NoDup_remove_dups.
  f_equal. f_equal. apply filter_ext_in. intros e He. split; [tauto|].
  intros Hf. split; [exact Hf|].
  apply elem_of_remove_dups, list_elem_of_fmap. exists e. tauto.
Qed.

Lemma groupCount_keys (docs : list event) :
  map fst (groupCount docs) = remove_dups (map idOf docs).
Proof.
  unfold groupCount, groupCountBy. rewrite map_map. simpl. apply map_id.
Qed.

Lemma existsb_keys (f : groupId -> bool) (docs : list event) :
  existsb f (map fst (groupCount docs)) = negb (eventsWhere f docs =? 0)%N.
Proof.
  rewrite groupCount_keys. unfold eventsWhere.
  destruct (existsb f (remove_dups (map idOf docs))) eqn:Hex.
  - apply existsb_exists in Hex as (k & Hk & Hf).
    apply list_elem_of_In, elem_of_remove_dups, list_elem_of_fmap in Hk
      as (e & -> & He).
    assert (Hin : e ∈ filter (fun e => f (idOf e) = true) docs)
      by (apply list_elem_of_filter; tauto).
    destruct (filter (fun e => f (idOf e) = true) docs);
      [exact (False_ind _ (not_elem_of_nil _ Hin))|reflexivity].
  - destruct (filter (fun e => f (idOf e) = true) docs) as [|e l] eqn:Hfl;
      [reflexivity|].
    assert (Hin : e ∈ filter (fun e => f (idOf e) = true) docs)
      by (rewrite Hfl; apply list_elem_of_here).
    apply list_elem_of_filter in Hin as [Hf He].
    assert (Hex' : existsb f (remove_dups (map idOf docs)) = true).
    { apply existsb_exists. exists (idOf e). split; [|exact Hf].
      apply list_elem_of_In, elem_of_remove_dups, list_elem_of_fmap. eauto. }
    congruence.
Qed.

Lemma groupCount_ips (docs : list event) :
  list_to_set (omap (fun r => countedIp r.1) (groupCount docs))
  =@{gset string} list_to_set (omap (fun e => countedIp (idOf e)) docs).
Proof.
  apply set_eq. intros ip.
  rewrite !elem_of_list_to_set, !list_elem_of_omap. split.
  - intros (r & Hr & Hip).
    assert (Hk : r.1 ∈ map fst (groupCount docs))
      by (apply list_elem_of_fmap; eauto).
    rewrite groupCount_keys in Hk.
    apply elem_of_remove_dups, list_elem_of_fmap in Hk as (e & Hk & He).
    exists e. rewrite <- Hk. auto.
  - intros (e & He & Hip).
    assert (Hk : idOf e ∈ map fst (groupCount docs)).
    { rewrite groupCount_keys. apply elem_of_remove_dups, list_elem_of_fmap. eauto. }
    apply list_elem_of_fmap in Hk as (r & Hk & Hr).
    exists r. rewrite <- Hk. auto.
Qed.

(** The statistics of a day in terms of the events of that day. *)
Lemma computeStats_spec tz d log :
  let evs := eventsOfDay tz d log in
  let su := computeStats tz d log in
  date su = startOfDay tz d /\
  visitors_total su = N.of_nat (length (remove_dups (map idOf evs))) /\
  visitors_unique su
  = N.of_nat (size (list_to_set (omap (fun e => countedIp (idOf e)) evs)
                    : gset string)) /\
  pageViews_total su = eventsWhere (isType page_view) evs /\
  contactForms su = eventsWhere (isType contact_form) evs /\
  galleryViews su = eventsWhere (isType gallery_view) evs /\
  reviews su = eventsWhere (isType review_submission) evs /\
  forall name,
    pageViews_byPage su !! name =
    if Js.inObjectPrototype name then None
    else if (eventsWhere (onPage name) evs =? 0)%N then None
    else Some (eventsWhere (onPage name) evs).
Proof.
  intros evs su. split; [apply computeStats_date|].
  subst su. unfold computeStats, aggregateDay. fold (eventsOfDay tz d log).
  fold evs.
  pose proof (fold_forEachStep_ips (groupCount evs) ∅
                (initialStats (startOfDay tz d))) as Hips.
  pose proof (fold_forEachStep_fields (groupCount evs) ∅
                (initialStats (startOfDay tz d))) as Hfields.
  destruct (fold_left forEachStep (groupCount evs)
              (∅, initialStats (startOfDay tz d))) as [U su0].
  cbv zeta in Hfields. cbn [fst snd] in Hips, Hfields.
  destruct Hfields as (Hpv & Hcf & Hgv & Hrv & Hbp).
  rewrite !sumWhere_groupCount in *. cbn [initialStats pageViews_total
    contactForms galleryViews reviews pageViews_byPage] in *.
  unfold setVisitors. cbn [visitors_total visitors_unique pageViews_total
    contactForms galleryViews reviews pageViews_byPage].
  repeat split.
  - f_equal. rewrite <- groupCount_keys. symmetry. apply length_map.
  - rewrite Hips, (right_id_L ∅ (∪)), groupCount_ips. reflexivity.
  - rewrite Hpv. apply N.add_0_l.
  - rewrite Hcf. apply N.add_0_l.
  - rewrite Hgv. apply N.add_0_l.
  - rewrite Hrv. apply N.add_0_l.
  - intros name. rewrite Hbp, existsb_keys, sumWhere_groupCount, lookup_empty.
    destruct (Js.inObjectPrototype name);
      [rewrite andb_false_r; reflexivity|rewrite andb_true_r].
    destruct (eventsWhere (onPage name) evs =? 0)%N; reflexivity.
Qed.




(** *** The scenario of the specification *)

Lemma eventsWhere_perm f (l l' : list event) :
  l ≡ₚ l' -> eventsWhere f l = eventsWhere f l'.
Proof. intros H. unfold eventsWhere. rewrite H. reflexivity. Qed.

(** C5, as stated, fails: in the scenario the grouped rows are three (two
    for the page views, one per address, and one for the contact form), so
    [visitors.total] is 3 and not 4. *)
Lemma C5_scenario_total_is_three :
  let su := computeStats 0 Examples.dayD Examples.scenarioLog in
  length (aggregateDay 0 Examples.dayD Examples.scenarioLog) = 3%nat /\
  visitors_total su = 3%N /\
  visitors_total su <> 4%N.
Proof. vm_compute. repeat split; congruence. Qed.

(** C5, amended. If the events of the day are three page views of
    ["/home"] from two distinct addresses and one contact form, in any order
    and whatever else the log holds for other days, then the rollup has
    [visitors.total = 3] (the rows grouped by type, page and address),
    [pageViews.total = 3], [pageViews.byPage.home = 3], [contactForms = 1],
    and [visitors.unique = 2] when the contact form carries no address or one
    of the two, 3 otherwise. *)
Theorem C5_scenario_rollup (tz d : Z) (log : list event) (a b : string)
    (e1 e2 e3 cf : event) :
  eventsOfDay tz d log ≡ₚ [e1; e2; e3; cf] ->
  a <> b -> a <> "" -> b <> "" ->
  idOf e1 = (page_view, Some "/home", Some a) ->
  idOf e2 = (page_view, Some "/home", Some b) ->
  idOf e3 = idOf e1 \/ idOf e3 = idOf e2 ->
  type cf = contact_form ->
  let su := computeStats tz d log in
  visitors_total su = 3%N /\
  pageViews_total su = 3%N /\
  pageViews_byPage su !! "home" = Some 3%N /\
  contactForms su = 1%N /\
  visitors_unique su =
    match countedIp (idOf cf) with
    | Some c => if bool_decide (c = a \/ c = b) then 2%N else 3%N
    | None => 2%N
    end.
Proof.
  intros Hperm Hab Ha Hb H1 H2 H3 Hcf su.
  destruct (computeStats_spec tz d log)
    as (_ & Htot & Huniq & Hpv & Hcfs & _ & _ & Hbp).
  fold su in Htot, Huniq, Hpv, Hcfs, Hbp.
  assert (H4 : idOf cf = (contact_form, page cf, ipAddress cf))
    by (unfold idOf; rewrite Hcf; reflexivity).
  assert (H3' : exists ip, idOf e3 = (page_view, Some "/home", Some ip))
    by (destruct H3 as [->| ->]; eauto).
  destruct H3' as (ip3 & H3').
  assert (Hcount : forall f,
            eventsWhere f (eventsOfDay tz d log)
            = N.of_nat (length (filter (fun k => f k = true)
                [ (page_view, Some "/home", Some a);
                  (page_view, Some "/home", Some b);
                  (page_view, Some "/home", Some ip3);
                  (contact_form, page cf, ipAddress cf) ]))).
  { intros f. rewrite (eventsWhere_perm f _ _ Hperm). unfold eventsWhere.
    rewrite !filter_cons, !filter_nil, H1, H2, H3', H4. 
    repeat (destruct (decide _)); reflexivity. }
  split; [|split; [|split; [|split]]].
  - rewrite Htot. change 3%N with (N.of_nat 3). f_equal.
    transitivity (length [idOf e1; idOf e2; idOf cf]); [|reflexivity].
    apply Permutation_length, NoDup_Permutation.
    + apply NoDup_remove_dups.
    + rewrite H1, H2, H4, !NoDup_cons, !not_elem_of_cons.
      repeat split; try congruence; try apply not_elem_of_nil.
      apply NoDup_nil_2.
    + intros k. rewrite elem_of_remove_dups, Hperm. cbn [map].
      rewrite !elem_of_cons. destruct H3 as [-> | ->]; tauto.
  - rewrite Hpv, Hcount. reflexivity.
  - rewrite Hbp, Hcount. reflexivity.
  - rewrite Hcfs, Hcount. reflexivity.
  - rewrite Huniq.
    assert (Hset : list_to_set
                     (omap (fun e => countedIp (idOf e)) (eventsOfDay tz d log))
                   =@{gset string}
                   {[ a ]} ∪ ({[ b ]} ∪
                     match countedIp (idOf cf) with
                     | Some c => {[ c ]}
                     | None => ∅
                     end)).
    { rewrite Hperm. cbn [omap list_omap].
      assert (Hta : countedIp (idOf e1) = Some a).
      { rewrite H1. unfold countedIp, idIp, Js.truthy. cbn [snd].
        apply String.eqb_neq in Ha. rewrite Ha. reflexivity. }
      assert (Htb : countedIp (idOf e2) = Some b).
      { rewrite H2. unfold countedIp, idIp, Js.truthy. cbn [snd].
        apply String.eqb_neq in Hb. rewrite Hb. reflexivity. }
      rewrite Hta, Htb.
      destruct H3 as [-> | ->]; rewrite ?Hta, ?Htb;
        destruct (countedIp (idOf cf)) as [c|];
        rewrite ?list_to_set_cons, ?list_to_set_nil;
        apply set_eq; intros x;
        rewrite ?elem_of_union, ?elem_of_singleton, ?elem_of_empty; tauto. }
    rewrite Hset.
    destruct (countedIp (idOf cf)) as [c|].
    + destruct (bool_decide (c = a \/ c = b)) eqn:Hc.
      * apply bool_decide_eq_true in Hc.
        assert (Hsame : {[ a ]} ∪ ({[ b ]} ∪ {[ c ]}) =@{gset string} {[ a ]} ∪ {[ b ]}).
        { apply set_eq. intros x.
          rewrite ?elem_of_union, ?elem_of_singleton. destruct Hc; subst; tauto. }
        rewrite Hsame, size_union, !size_singleton; [reflexivity|].
        apply disjoint_singleton_l. rewrite elem_of_singleton. exact Hab.
      * apply bool_decide_eq_false in Hc.
        rewrite size_union, size_union, !size_singleton; [reflexivity|..];
          apply disjoint_singleton_l;
          rewrite ?elem_of_union, !elem_of_singleton; intuition congruence.
    + rewrite (right_id_L ∅ (∪)), size_union, !size_singleton; [reflexivity|].
      apply disjoint_singleton_l. rewrite elem_of_singleton. exact Hab.
Qed.

(** The theorem for the scenario log, whose contact form comes from one
    of the two addresses. *)
Lemma C5_scenario_rollup_witness :
  "203.0.113.9" <> "198.51.100.4" /\
  visitors_total (computeStats 0 Examples.dayD Examples.scenarioLog) = 3%N /\
  visitors_unique (computeStats 0 Examples.dayD Examples.scenarioLog) = 2%N /\
  pageViews_byPage (computeStats 0 Examples.dayD Examples.scenarioLog) !! "home"
  = Some 3%N.
Proof.
  assert (Hab : "203.0.113.9" <> "198.51.100.4") by discriminate.
  assert (Hperm :
    eventsOfDay 0 Examples.dayD Examples.scenarioLog ≡ₚ
    [ Examples.view (Some "/home") "203.0.113.9" (Examples.dayD + 1000);
      Examples.view (Some "/home") "198.51.100.4" (Examples.dayD + 3000);
      Examples.view (Some "/home") "203.0.113.9" (Examples.dayD + 2000);
      Analytics.mkEvent Analytics.contact_form None (Some "Mozilla/5.0")
        (Some "198.51.100.4") None None (Examples.dayD + 4000) ]).
  { change (eventsOfDay 0 Examples.dayD Examples.scenarioLog)
      with Examples.scenarioLog.
    unfold Examples.scenarioLog. apply perm_skip, perm_swap. }
  destruct (C5_scenario_rollup 0 Examples.dayD Examples.scenarioLog
              "203.0.113.9" "198.51.100.4" _ _ _ _ Hperm Hab
              ltac:(discriminate) ltac:(discriminate)
              eq_refl eq_refl (or_introl eq_refl) eq_refl)
    as (Htot & _ & Hhome & _ & Huniq).
  split; [exact Hab|]. split; [exact Htot|]. split; [exact Huniq|exact Hhome].
Defined.

(** *** The per-page breakdown *)


Lemma onPage_iff name k :
  onPage name k = true <->
  idType k = page_view /\
  exists p, idPage k = Some p /\ p <> "" /\ pageNameOf p = name.
Proof.
  unfold onPage, Js.truthy. rewrite andb_true_iff, bool_decide_eq_true.
  destruct (idPage k) as [p|].
  - rewrite andb_true_iff, negb_true_iff, String.eqb_neq, String.eqb_eq.
    split.
    + intros (Ht & Hp & Hn). eauto.
    + intros (Ht & q & [= <-] & Hp & Hn). auto.
  - split; [intros [_ ?]; discriminate|].
    intros (_ & q & ? & _). discriminate.
Qed.






End Rollup.

(** ** The gap-filled time series *)

Section TimeSeries.
Import Analytics AnalyticsController.

(** A row of the aggregation stands for at least one matching event of its
    day. *)
Lemma aggregateTimeSeries_find startDate type log d row :
  List.find (fun item => _id item =? d) (aggregateTimeSeries startDate type log)
  = Some row ->
  _id row = d /\
  exists e, e ∈ log /\ matchCondition startDate type e = true /\
            dateStr (createdAt e) = d.
Proof.
  intros Hfind. apply find_some in Hfind as [Hin Hid].
  apply Z.eqb_eq in Hid. split; [exact Hid|].
  unfold aggregateTimeSeries in Hin.
  apply list_elem_of_In, list_elem_of_fmap in Hin as (d' & -> & Hd').
  cbn [_id] in Hid. subst d'.
  rewrite merge_sort_Permutation in Hd'.
  apply elem_of_remove_dups, list_elem_of_fmap in Hd' as (r & -> & Hr).
  unfold groupCountBy in Hr.
  apply list_elem_of_fmap in Hr as (k & -> & Hk).
  apply elem_of_remove_dups, list_elem_of_fmap in Hk as (e & -> & He).
  apply list_elem_of_filter in He as [Hm He].
  exists e. auto.
Qed.

(** The loop runs once per day from [currentDate] to [endDate] and then
    stops; [n] is the number of those days. *)
Lemma fillLoop_run timeSeriesData endDate n :
  forall fuel currentDate filledData,
    (n < fuel)%nat ->
    endDate < currentDate + Z.of_nat n * msPerDay ->
    ((0 < n)%nat -> currentDate + (Z.of_nat n - 1) * msPerDay <= endDate) ->
    fillLoop fuel timeSeriesData currentDate endDate filledData
    = Some (filledData ++
            map (fun i : nat =>
                   entryAt timeSeriesData (currentDate + Z.of_nat i * msPerDay))
                (seq 0 n))%list.
Proof.
  induction n as [|m IH]; intros fuel cur acc Hfuel Hend Hstart;
    (destruct fuel as [|fuel]; [lia|]); cbn [fillLoop]; unfold msPerDay in *.
  - rewrite (proj2 (Z.leb_gt cur endDate)) by lia.
    cbn [seq map]. rewrite app_nil_r. reflexivity.
  - rewrite (proj2 (Z.leb_le cur endDate)) by lia.
    fold (entryAt timeSeriesData cur).
    assert (Hpush :
      (match List.find (fun item => _id item =? dateStr cur) timeSeriesData with
       | Some existingData => acc ++ [entryOf existingData]
       | None => acc ++ [zeroEntry (dateStr cur)]
       end = acc ++ [entryAt timeSeriesData cur])%list).
    { unfold entryAt. destruct (List.find _ timeSeriesData); reflexivity. }
    rewrite Hpush, IH by lia.
    rewrite <- app_assoc. cbn [app]. f_equal. f_equal.
    cbn [seq map]. rewrite <- seq_shift, map_map. f_equal.
    + f_equal. lia.
    + apply map_ext. intros i. f_equal. lia.
Qed.

Lemma entryAt_date timeSeriesData t : date (entryAt timeSeriesData t) = dateStr t.
Proof.
  unfold entryAt.
  destruct (List.find _ timeSeriesData) as [row|] eqn:Hfind; [|reflexivity].
  apply find_some in Hfind as [_ Hid]. apply Z.eqb_eq in Hid. exact Hid.
Qed.

Lemma dateStr_days t (i : nat) :
  dateStr (t + Z.of_nat i * msPerDay) = dateStr t + Z.of_nat i.
Proof. unfold dateStr, msPerDay. apply Z.div_add. discriminate. Qed.

(** C2, as stated, fails: a window of 7 days gives 8 entries, one for each
    calendar day from the day seven days ago to today, both included. *)
Lemma C2_seven_days_eight_entries :
  length <$> getTimeSeriesData 20 Examples.noon Examples.noonLater 7 None
               Examples.scenarioLog
  = Some 8%nat.
Proof. vm_compute. reflexivity. Qed.

(** C2, amended. For a window of [days >= 0] days, with the aggregation
    answered within a day, the loop ends and the series has exactly
    [days + 1] entries: one per calendar day from the start date to the end
    date, both included, in order. The entry of a day without any matching
    event is the zero-valued record. *)
Theorem C2_series_has_days_plus_one (now later daysNum : Z)
    (type : option eventType) (log : list event) :
  0 <= daysNum ->
  now <= later ->
  later < now + msPerDay ->
  let startDate := now - daysNum * msPerDay in
  exists filled : list entry,
    (forall fuel, (Z.to_nat daysNum + 1 < fuel)%nat ->
       getTimeSeriesData fuel now later daysNum type log = Some filled) /\
    length filled = (Z.to_nat daysNum + 1)%nat /\
    forall i : nat, (i <= Z.to_nat daysNum)%nat ->
      exists e,
        filled !! i = Some e /\
        date e = dateStr startDate + Z.of_nat i /\
        ((forall ev, ev ∈ log -> matchCondition startDate type ev = true ->
            dateStr (createdAt ev) <> date e) ->
         e = zeroEntry (date e)).
Proof.
  intros Hdays Hnow Hlater startDate.
  set (data := aggregateTimeSeries startDate type log).
  exists (map (fun i : nat => entryAt data (startDate + Z.of_nat i * msPerDay))
              (seq 0 (Z.to_nat daysNum + 1))).
  split; [|split].
  - intros fuel Hfuel. unfold getTimeSeriesData. fold startDate. fold data.
    rewrite (fillLoop_run data later (Z.to_nat daysNum + 1)); [reflexivity|..].
    + exact Hfuel.
    + subst startDate. unfold msPerDay in *. lia.
    + intros _. subst startDate. unfold msPerDay in *. lia.
  - rewrite length_map, length_seq. reflexivity.
  - intros i Hi.
    exists (entryAt data (startDate + Z.of_nat i * msPerDay)).
    split; [|split].
    + rewrite list_lookup_fmap, lookup_seq_lt by lia. reflexivity.
    + rewrite entryAt_date. apply dateStr_days.
    + rewrite entryAt_date. intros Hnone. unfold entryAt.
      destruct (List.find _ data) as [row|] eqn:Hfind; [|reflexivity].
      apply aggregateTimeSeries_find in Hfind as (_ & ev & Hev & Hm & Hd).
      destruct (Hnone ev Hev Hm Hd).
Qed.

(** The theorem for a window of seven days asked at midday. *)
Lemma C2_series_has_days_plus_one_witness :
  0 <= 7 /\ Examples.noon <= Examples.noonLater /\
  Examples.noonLater < Examples.noon + msPerDay /\
  exists filled : list entry,
    getTimeSeriesData 20 Examples.noon Examples.noonLater 7 None
      Examples.scenarioLog = Some filled /\
    length filled = 8%nat.
Proof.
  assert (H0 : 0 <= 7) by discriminate.
  assert (H1 : Examples.noon <= Examples.noonLater) by discriminate.
  assert (H2 : Examples.noonLater < Examples.noon + msPerDay) by reflexivity.
  split; [exact H0|]. split; [exact H1|]. split; [exact H2|].
  destruct (C2_series_has_days_plus_one Examples.noon Examples.noonLater 7 None
              Examples.scenarioLog H0 H1 H2) as (filled & Hrun & Hlen & _).
  exists filled. split; [|exact Hlen].
  apply Hrun. vm_compute. lia.
Defined.

End TimeSeries.

(** * Further properties of the handlers *)

(** [run], for the handlers of [ContactAdmin] and [PartnerController] too. *)
Ltac run_more :=
  unfold ContactAdmin.updateContactStatus, ContactAdmin.deleteContactSubmission,
    ContactAdmin.Contact_findByIdAndUpdate, ContactAdmin.Contact_findByIdAndDelete,
    PartnerController.lookupPartner, PartnerController.deletePartner,
    PartnerController.getPartner, PartnerController.Partner_findById,
    PartnerController.Contact_countDocuments,
    PartnerController.twoLeadsInterleaved, PartnerController.twoLeadsInSequence
    in *;
  run.

Section ContactAdminProps.
Import Db ContactController ContactAdmin.

Lemma statusOfString_name st : statusOfString (statusName st) = Some st.
Proof. destruct st; reflexivity. Qed.

Lemma statusOfString_Some s st : statusOfString s = Some st -> s = statusName st.
Proof.
  unfold statusOfString.
  destruct (String.eqb s "new") eqn:H1;
    [apply String.eqb_eq in H1; intros [= <-]; exact H1|].
  destruct (String.eqb s "read") eqn:H2;
    [apply String.eqb_eq in H2; intros [= <-]; exact H2|].
  destruct (String.eqb s "replied") eqn:H3;
    [apply String.eqb_eq in H3; intros [= <-]; exact H3|].
  destruct (String.eqb s "archived") eqn:H4;
    [apply String.eqb_eq in H4; intros [= <-]; exact H4|].
  discriminate.
Qed.

(** X1. [updateContactStatus] accepts exactly the four status names, in
    lower case. Any other status, or none, is answered 400 and leaves the
    whole store as it was, whether or not the database works; an accepted
    status for an unknown lead is answered 404, also without a change. *)
Theorem updateContactStatus_rejects (w : world) (id : nat) (status : option string) :
  ((exists st, status = Some (statusName st)) \/
   updateContactStatus id status w
   = (w, Ok (Json 400 (ErrorMessage "Invalid status value")))) /\
  (forall st, status = Some (statusName st) ->
     failing w ContactSave = false -> contacts w !! id = None ->
     updateContactStatus id status w
     = (w, Ok (Json 404 (ErrorMessage "Contact submission not found")))).
Proof.
  split.
  - destruct status as [s|]; [|right; reflexivity].
    destruct (statusOfString s) as [st|] eqn:Hs.
    + left. exists st. f_equal. apply statusOfString_Some, Hs.
    + right. run_more. rewrite Hs. reflexivity.
  - intros st -> Hf Hid. run_more. rewrite statusOfString_name. simpl.
    rewrite Hf, Hid. reflexivity. 
Qed.

(** The theorem for a status in the wrong letter case, and for a status
    that is accepted while the lead does not exist. *)
Lemma updateContactStatus_rejects_witness :
  updateContactStatus 9 (Some "New") Examples.w0
  = (Examples.w0, Ok (Json 400 (ErrorMessage "Invalid status value"))) /\
  updateContactStatus 9 (Some "read") Examples.w0
  = (Examples.w0, Ok (Json 404 (ErrorMessage "Contact submission not found"))).
Proof.
  split.
  - destruct (proj1 (updateContactStatus_rejects Examples.w0 9 (Some "New")))
      as [[st Hst]|H]; [destruct st; discriminate|exact H].
  - apply (proj2 (updateContactStatus_rejects Examples.w0 9 (Some "read"))
             Contact.read); reflexivity.
Defined.

(** X2. Setting a status and then fetching the lead shows that status,
    except that a lead set back to ["new"] is shown, and stored, as
    ["read"]: the fetch marks it again. Nothing else of the lead changes. *)
Theorem status_update_then_fetch (w : world) (id : nat) (st : Contact.statusT)
    (c : Contact.doc) :
  contacts w !! id = Some c ->
  Contact._id c = id ->
  failing w ContactSave = false ->
  failing w ContactFindById = false ->
  let w1 := (updateContactStatus id (Some (statusName st)) w).1 in
  let shown := match st with Contact.new => Contact.read | _ => st end in
  getContactSubmission id w1
  = (setContacts (<[ id := Contact.setStatus shown c ]> (contacts w)) w,
     Ok (Json 200 (ContactData (Contact.setStatus shown c)))).
Proof.
  intros Hc Hid Hs Hf. run_more. rewrite statusOfString_name. simpl.
  rewrite Hs, Hc. simpl. rewrite Hf. simpl. rewrite lookup_insert_eq. simpl.
  destruct st; simpl; rewrite ?Hs; simpl; rewrite ?Hid;
    unfold setContacts; simpl; rewrite ?insert_insert_eq; reflexivity.
Qed.

(** The theorem for the sample lead, set back to new. *)
Lemma status_update_then_fetch_witness :
  contacts Examples.w0 !! 7%nat = Some Examples.lead /\
  (getContactSubmission 7
     (updateContactStatus 7 (Some "new") Examples.w0).1).2
  = Ok (Json 200 (ContactData (Contact.setStatus Contact.read Examples.lead))).
Proof.
  split; [reflexivity|].
  pose proof (status_update_then_fetch Examples.w0 7 Contact.new Examples.lead
                eq_refl eq_refl eq_refl eq_refl) as H.
  cbv zeta in H. change (statusName Contact.new) with "new" in H.
  rewrite H. reflexivity.
Defined.

(** X3. Deleting a stored lead removes exactly that lead: every other lead
    stays as it was, partners are untouched, and afterwards a fetch, a status
    update and a second delete of the same identifier are all answered 404.
    Deleting an unknown identifier is answered 404 and changes nothing. *)
Theorem delete_then_not_found (w : world) (id : nat) :
  failing w ContactSave = false ->
  failing w ContactFindById = false ->
  let w1 := (deleteContactSubmission id w).1 in
  let notFound := Ok (Json 404 (ErrorMessage "Contact submission not found")) in
  (contacts w !! id = None -> deleteContactSubmission id w = (w, notFound)) /\
  (is_Some (contacts w !! id) ->
     deleteContactSubmission id w
     = (setContacts (delete id (contacts w)) w,
        Ok (Json 200 (Message "Contact submission deleted successfully")))) /\
  (forall j, j <> id -> contacts w1 !! j = contacts w !! j) /\
  partners w1 = partners w /\
  getContactSubmission id w1 = (w1, notFound) /\
  (forall st, updateContactStatus id (Some (statusName st)) w1 = (w1, notFound)) /\
  deleteContactSubmission id w1 = (w1, notFound).
Proof.
  intros Hs Hf. cbv zeta.
  assert (Hgone : contacts (deleteContactSubmission id w).1 !! id = None).
  { run_more. rewrite Hs. simpl. destruct (contacts w !! id) eqn:Hid; simpl.
    - apply lookup_delete_eq.
    - exact Hid. }
  assert (Hfl : failing (deleteContactSubmission id w).1 = failing w).
  { run_more. rewrite Hs. simpl. destruct (contacts w !! id); reflexivity. }
  split; [|split; [|split; [|split; [|split; [|split]]]]].
  - intros Hid. run_more. rewrite Hs. simpl. rewrite Hid. reflexivity.
  - intros [c Hid]. run_more. rewrite Hs. simpl. rewrite Hid. reflexivity.
  - intros j Hj. run_more. rewrite Hs. simpl.
    destruct (contacts w !! id); simpl; [apply lookup_delete_ne; congruence|reflexivity].
  - run_more. rewrite Hs. simpl. destruct (contacts w !! id); reflexivity.
  - generalize dependent (deleteContactSubmission id w).1. intros w1 Hgone Hfl.
    run_more. rewrite Hfl, Hf. simpl. rewrite Hgone. reflexivity.
  - intros st. generalize dependent (deleteContactSubmission id w).1.
    intros w1 Hgone Hfl.
    run_more. rewrite statusOfString_name. simpl. rewrite Hfl, Hs. simpl.
    rewrite Hgone. reflexivity.
  - generalize dependent (deleteContactSubmission id w).1. intros w1 Hgone Hfl.
    run_more. rewrite Hfl, Hs. simpl. rewrite Hgone. reflexivity.
Qed.

(** The theorem for the sample lead. *)
Lemma delete_then_not_found_witness :
  is_Some (contacts Examples.w0 !! 7%nat) /\
  getContactSubmission 7 (deleteContactSubmission 7 Examples.w0).1
  = ((deleteContactSubmission 7 Examples.w0).1,
     Ok (Json 404 (ErrorMessage "Contact submission not found"))).
Proof.
  split; [eexists; reflexivity|].
  destruct (delete_then_not_found Examples.w0 7 eq_refl eq_refl)
    as (_ & _ & _ & _ & Hfetch & _).
  exact Hfetch.
Defined.

Lemma sameLead_refl c : sameLead c c.
Proof. repeat split. Qed.

Lemma sameLead_trans c1 c2 c3 : sameLead c1 c2 -> sameLead c2 c3 -> sameLead c1 c3.
Proof. unfold sameLead. intuition congruence. Qed.

(** One admin operation rewrites at most the lead it names, keeping what
    [sameLead] lists, and leaves the partners alone. *)
Lemma runOp_step (o : adminOp) (w : world) :
  partners (runOp o w).1 = partners w /\
  (contacts (runOp o w).1 = contacts w \/
   exists id c c',
     contacts w !! id = Some c /\ sameLead c c' /\
     (contacts (runOp o w).1 = <[ id := c' ]> (contacts w) \/
      contacts (runOp o w).1 = <[ Contact._id c' := c' ]> (contacts w))).
Proof.
  destruct o as [id|id status|id req]; cbn [runOp].
  - run_more. destruct (failing w ContactFindById); [auto|]. simpl.
    destruct (contacts w !! id) as [c|] eqn:Hc; [|auto]. simpl.
    destruct (Contact.status c); simpl; auto.
    destruct (failing w ContactSave); simpl; [auto|].
    split; [reflexivity|]. right.
    exists id, c, (Contact.setStatus Contact.read c). repeat split; auto.
  - run_more. destruct status as [s|]; simpl; [|auto].
    destruct (statusOfString s) as [st|]; [|auto]. simpl.
    destruct (failing w ContactSave); [auto|]. simpl.
    destruct (contacts w !! id) as [c|] eqn:Hc; [|auto]. simpl.
    split; [reflexivity|]. right.
    exists id, c, (Contact.setStatus st c). repeat split; auto.
  - split; [apply updateContactLeadStatus_partners|].
    run_more. destruct (failing w ContactFindById); [auto|]. simpl.
    destruct (contacts w !! id) as [c|] eqn:Hc; [|auto].
    destruct req as [ts td b bd ba]; simpl.
    destruct ts as [[]|], td, b as [[]|], bd, ba as [a|];
      simpl; try destruct (Qeq_bool a 0); simpl;
      (destruct (failing w ContactSave); simpl; [auto|]);
      right;
      match goal with
      | |- context [ <[ _ := ?d ]> (contacts w) ] => exists id, c, d
      end;
      (split; [exact Hc|]); (split; [|right; reflexivity]); repeat split.
Qed.

(** X4. Whatever sequence of fetches, status updates and funnel updates the
    admin side runs, and whatever the database does meanwhile, every lead
    keeps its identifier, its submitted fields and its attribution
    ([refSource], [refCode]), and no lead appears or disappears. *)
Theorem admin_operations_keep_attribution (ops : list adminOp) (w : world) :
  wellKeyed (contacts w) ->
  wellKeyed (contacts (runOps ops w)) /\
  (forall j, contacts (runOps ops w) !! j = None <-> contacts w !! j = None) /\
  (forall j c c',
     contacts w !! j = Some c -> contacts (runOps ops w) !! j = Some c' ->
     sameLead c c').
Proof.
  unfold runOps. revert w. induction ops as [|o ops IH]; intros w Hwk.
  - cbn [fold_left]. split; [exact Hwk|].
    split; [intros j; tauto|].
    intros j c c' H1 H2. rewrite H1 in H2. injection H2 as <-. apply sameLead_refl.
  - cbn [fold_left].
    destruct (runOp_step o w) as [Hp Hcs].
    assert (Hstep : wellKeyed (contacts (runOp o w).1) /\
              (forall j, contacts (runOp o w).1 !! j = None <-> contacts w !! j = None) /\
              (forall j c c', contacts w !! j = Some c ->
                 contacts (runOp o w).1 !! j = Some c' -> sameLead c c')).
    { destruct Hcs as [-> | (id & c & c' & Hc & Hsame & Hins)].
      - split; [exact Hwk|]. split; [intros j; tauto|].
        intros j c c' H1 H2. rewrite H1 in H2. injection H2 as <-.
        apply sameLead_refl.
      - assert (Hid : Contact._id c' = id).
        { destruct Hsame as [-> _]. apply Hwk, Hc. }
        rewrite Hid in Hins. assert (Hins' := Hins).
        destruct Hins' as [-> | ->]; clear Hins.
        + split; [|split].
          * intros j d. rewrite lookup_insert. case_decide.
            -- intros [= <-]. congruence.
            -- apply Hwk.
          * intros j. rewrite lookup_insert. case_decide; [|tauto].
            subst j. rewrite Hc. split; discriminate.
          * intros j d d'. rewrite lookup_insert. case_decide.
            -- subst j. rewrite Hc. intros [= <-] [= <-]. exact Hsame.
            -- intros H1 H2. rewrite H1 in H2. injection H2 as <-.
               apply sameLead_refl.
        + split; [|split].
          * intros j d. rewrite lookup_insert. case_decide.
            -- intros [= <-]. congruence.
            -- apply Hwk.
          * intros j. rewrite lookup_insert. case_decide; [|tauto].
            subst j. rewrite Hc. split; discriminate.
          * intros j d d'. rewrite lookup_insert. case_decide.
            -- subst j. rewrite Hc. intros [= <-] [= <-]. exact Hsame.
            -- intros H1 H2. rewrite H1 in H2. injection H2 as <-.
               apply sameLead_refl. }
    destruct Hstep as (Hwk1 & Hnone1 & Hsame1).
    destruct (IH (runOp o w).1 Hwk1) as (Hwk2 & Hnone2 & Hsame2).
    split; [exact Hwk2|]. split.
    + intros j. rewrite Hnone2. apply Hnone1.
    + intros j c c' Hc Hc'.
      destruct (contacts (runOp o w).1 !! j) as [d|] eqn:Hd.
      * eapply sameLead_trans; [eapply Hsame1; eassumption|].
        eapply Hsame2; eassumption.
      * apply Hnone1 in Hd. congruence.
Qed.

(** The theorem for the sample store and three operations on lead 7. *)
Lemma admin_operations_keep_attribution_witness :
  wellKeyed (contacts Examples.w0) /\
  forall c',
    contacts (runOps [Fetch 7; SetLeadStatus 7 Examples.bookReq;
                      SetStatus 7 (Some "archived")] Examples.w0) !! 7%nat
    = Some c' ->
    sameLead Examples.lead c'.
Proof.
  assert (Hwk : wellKeyed (contacts Examples.w0)).
  { intros j c. unfold Examples.w0. cbn [contacts].
    rewrite lookup_singleton. case_decide; [|discriminate].
    intros [= <-]. subst j. reflexivity. }
  split; [exact Hwk|].
  intros c'.
  apply (proj2 (proj2 (admin_operations_keep_attribution _ _ Hwk))).
  reflexivity.
Defined.

(** X5. The counter update of a resolved referral is not undone when the
    lead itself cannot be stored: the request fails, no lead exists, and the
    partner's lead counter is one higher all the same. *)
Theorem failed_creation_keeps_increment (w : world) (req : submitReq)
    (rc : string) (p : Partner.doc) :
  validationErrors req = [] ->
  refCode req = Some rc -> rc <> "" ->
  findActiveByCode (partners w) rc = Some p ->
  failing w PartnerFindOne = false ->
  failing w PartnerSave = false ->
  failing w ContactCreate = true ->
  let w' := (submitContactForm req w).1 in
  (submitContactForm req w).2 = Ok (Next "Contact.create failed") /\
  contacts w' = contacts w /\
  exists p',
    findActiveByCode (partners w') rc = Some p' /\
    Partner.totalLeads (Partner.stats p')
    = (Partner.totalLeads (Partner.stats p) + 1)%N.
Proof.
  intros Hv Hrc Hne Hp Hf Hs Hc. destruct req as [errs flds rc'].
  simpl in Hv, Hrc. subst errs rc'. run.
  apply String.eqb_neq in Hne. rewrite Hne. simpl.
  rewrite Hf. simpl. rewrite Hp. simpl. rewrite Hs. simpl. rewrite Hc. simpl.
  split; [reflexivity|]. split; [reflexivity|].
  eexists. split; [apply findActiveByCode_saved, Hp|]. reflexivity.
Qed.

(** The theorem for a submission with the code of [Examples.jane] while the
    store refuses new leads. *)
Lemma failed_creation_keeps_increment_witness :
  failing Samples.wCreateDown ContactCreate = true /\
  contacts (submitContactForm Examples.submitWithCode Samples.wCreateDown).1 = ∅ /\
  exists p',
    findActiveByCode
      (partners (submitContactForm Examples.submitWithCode Samples.wCreateDown).1)
      Examples.janeCode = Some p' /\
    Partner.totalLeads (Partner.stats p') = 2%N.
Proof.
  split; [reflexivity|].
  destruct (failed_creation_keeps_increment Samples.wCreateDown
              Examples.submitWithCode Examples.janeCode Examples.jane
              eq_refl eq_refl ltac:(discriminate) eq_refl eq_refl eq_refl eq_refl)
    as (_ & Hcs & p' & Hp' & Hleads).
  split; [exact Hcs|]. exists p'. split; [exact Hp'|exact Hleads].
Defined.

(** X6. A lead can be fetched under the identifier that the submission
    returned: the fetch answers with the submitted fields, the attribution
    stamped at creation and the status ["read"]. A second submission receives
    a different identifier, and the first lead is still there. *)
Theorem submit_then_fetch (w : world) (req req2 : submitReq) :
  validationErrors req = [] ->
  validationErrors req2 = [] ->
  (forall o, failing w o = false) ->
  exists (id : nat) (c : Contact.doc),
    let w1 := (submitContactForm req w).1 in
    (submitContactForm req w).2 = Ok (Json 201 (Submitted id)) /\
    contacts w1 !! id = Some c /\
    Contact._id c = id /\
    Contact.fields c = formFields req /\
    Contact.status c = Contact.new /\
    (getContactSubmission id w1).2
    = Ok (Json 200 (ContactData (Contact.setStatus Contact.read c))) /\
    exists id2,
      (submitContactForm req2 w1).2 = Ok (Json 201 (Submitted id2)) /\
      id2 <> id /\
      contacts (submitContactForm req2 w1).1 !! id = Some c.
Proof.
  intros Hv Hv2 Hok.
  assert (Hshape : forall (r : submitReq) (v : world),
            validationErrors r = [] -> (forall o, failing v o = false) ->
            exists c,
              Contact._id c = fresh (dom (contacts v)) /\
              Contact.fields c = formFields r /\
              Contact.status c = Contact.new /\
              (submitContactForm r v).2
              = Ok (Json 201 (Submitted (fresh (dom (contacts v))))) /\
              contacts (submitContactForm r v).1
              = <[ fresh (dom (contacts v)) := c ]> (contacts v) /\
              failing (submitContactForm r v).1 = failing v).
  { intros [errs flds rc] v Hr Hv0. simpl in Hr. subst errs. run.
    destruct rc as [rc|]; simpl; [destruct (String.eqb rc ""); simpl|].
    - rewrite (Hv0 ContactCreate). simpl.
      eexists (Contact.mkDoc _ _ _ _ _ _ _ _ _ _). repeat split.
    - rewrite (Hv0 PartnerFindOne). simpl.
      destruct (findActiveByCode (partners v) rc) as [p|]; simpl.
      + rewrite (Hv0 PartnerSave). simpl. rewrite (Hv0 ContactCreate). simpl.
        eexists (Contact.mkDoc _ _ _ _ _ _ _ _ _ _). repeat split.
      + rewrite (Hv0 ContactCreate). simpl.
        eexists (Contact.mkDoc _ _ _ _ _ _ _ _ _ _). repeat split.
    - rewrite (Hv0 ContactCreate). simpl.
      eexists (Contact.mkDoc _ _ _ _ _ _ _ _ _ _). repeat split. }
  destruct (Hshape req w Hv Hok) as (c & Hid & Hfl & Hst & Hres & Hcs & Hfail).
  exists (fresh (dom (contacts w))), c. cbv zeta.
  set (w1 := (submitContactForm req w).1) in *.
  assert (Hok1 : forall o, failing w1 o = false) by (intros o; rewrite Hfail; apply Hok).
  assert (Hc1 : contacts w1 !! fresh (dom (contacts w)) = Some c)
    by (rewrite Hcs; apply lookup_insert_eq).
  split; [exact Hres|]. split; [exact Hc1|]. split; [exact Hid|].
  split; [exact Hfl|]. split; [exact Hst|]. split.
  - clearbody w1. run. rewrite (Hok1 ContactFindById). simpl. rewrite Hc1. simpl.
    rewrite Hst. simpl. rewrite (Hok1 ContactSave). reflexivity.
  - destruct (Hshape req2 w1 Hv2 Hok1) as (c2 & _ & _ & _ & Hres2 & Hcs2 & _).
    exists (fresh (dom (contacts w1))). split; [exact Hres2|].
    assert (Hne : fresh (dom (contacts w1)) <> fresh (dom (contacts w))).
    { intros Heq. pose proof (is_fresh (dom (contacts w1))) as Hfresh.
      rewrite Heq in Hfresh. apply Hfresh, elem_of_dom. eauto. }
    split; [exact Hne|].
    rewrite Hcs2, lookup_insert_ne by exact Hne. exact Hc1.
Qed.

(** The theorem for two submissions to the sample store. *)
Lemma submit_then_fetch_witness :
  validationErrors Examples.submitWithCode = [] /\
  exists id c,
    (submitContactForm Examples.submitWithCode Examples.w0).2
    = Ok (Json 201 (Submitted id)) /\
    contacts (submitContactForm Examples.submitWithCode Examples.w0).1 !! id
    = Some c /\
    Contact.status c = Contact.new.
Proof.
  split; [reflexivity|].
  destruct (submit_then_fetch Examples.w0 Examples.submitWithCode
              Examples.submitWithCode eq_refl eq_refl (fun _ => eq_refl))
    as (id & c & Hres & Hc & _ & _ & Hst & _).
  exists id, c. split; [exact Hres|]. split; [exact Hc|exact Hst].
Defined.

End ContactAdminProps.

(** ** Further properties of the partner model *)

Section PartnerProps.
Import Partner.

Lemma toUpperChar_idem c : Js.toUpperChar (Js.toUpperChar c) = Js.toUpperChar c.
Proof. destruct c as [[] [] [] [] [] [] [] []]; reflexivity. Qed.

Lemma toUpperCase_idem s : Js.toUpperCase (Js.toUpperCase s) = Js.toUpperCase s.
Proof.
  induction s as [|c s IH]; simpl; [reflexivity|].
  rewrite toUpperChar_idem, IH. reflexivity.
Qed.

Lemma toUpperChar_upperAlnum c : Js.isUpperAlnum c = true -> Js.toUpperChar c = c.
Proof. destruct c as [[] [] [] [] [] [] [] []]; vm_compute; congruence. Qed.

Lemma toUpperCase_upperAlnum s :
  Js.allChars Js.isUpperAlnum s = true -> Js.toUpperCase s = s.
Proof.
  induction s as [|c s IH]; simpl; [reflexivity|].
  intros H. apply andb_prop in H as [Hc Hs].
  rewrite (toUpperChar_upperAlnum c Hc), (IH Hs). reflexivity.
Qed.

Lemma toUpperCase_app s t :
  Js.toUpperCase (s ++ t) = Js.toUpperCase s ++ Js.toUpperCase t.
Proof. induction s as [|c s IH]; simpl; [reflexivity|]. rewrite IH. reflexivity. Qed.

Lemma substring_full s : String.substring 0 (String.length s) s = s.
Proof. induction s as [|c s IH]; simpl; [reflexivity|]. rewrite IH. reflexivity. Qed.

Lemma length_append s t :
  String.length (s ++ t) = (String.length s + String.length t)%nat.
Proof. induction s as [|c s IH]; simpl; [reflexivity|]. rewrite IH. reflexivity. Qed.

Lemma length_toUpperCase s : String.length (Js.toUpperCase s) = String.length s.
Proof. induction s as [|c s IH]; simpl; [reflexivity|]. rewrite IH. reflexivity. Qed.

Lemma length_substring_0 n s :
  String.length (String.substring 0 n s) = Nat.min n (String.length s).
Proof.
  revert n. induction s as [|c s IH]; intros [|n]; simpl; try reflexivity.
  rewrite IH. reflexivity.
Qed.

Lemma length_substring_le a n s : (String.length (String.substring a n s) <= n)%nat.
Proof.
  revert a n. induction s as [|c s IH]; intros a n.
  - destruct a, n; simpl; lia.
  - destruct a; [destruct n|]; simpl; [lia| |apply IH].
    specialize (IH 0%nat n). lia.
Qed.

(** A code that passes the validator is the tag followed by its body. *)
Lemma codeValidator_shape v :
  codeValidator v = true ->
  exists body,
    v = prefix ++ body /\
    Js.allChars Js.isUpperAlnum body = true /\
    (4 <= String.length body <= 10)%nat.
Proof.
  unfold codeValidator. intros H.
  apply andb_prop in H as [Hpre H]. apply andb_prop in H as [H Hmax].
  apply andb_prop in H as [Hchars Hmin].
  apply Nat.leb_le in Hmin, Hmax.
  apply prefix_correct in Hpre. cbn [prefix String.length] in Hpre.
  destruct v as [|c1 [|c2 [|c3 [|c4 [|c5 [|c6 body]]]]]]; try discriminate Hpre.
  cbn [String.substring] in Hpre. injection Hpre as -> -> -> -> -> ->.
  unfold Js.substring in *. cbn [String.length Nat.sub String.substring] in *.
  rewrite Nat.sub_0_r, substring_full in Hmin, Hmax, Hchars.
  exists body. auto.
Qed.

Lemma validator_of_tagged body :
  codeValidator (prefix ++ body)
  = Js.allChars Js.isUpperAlnum body
    && (4 <=? String.length body)%nat && (String.length body <=? 10)%nat.
Proof.
  unfold codeValidator, Partner.prefix, Js.substring.
  change ("TWBFL-" ++ body)
    with (String "T" (String "W" (String "B" (String "F" (String "L"
           (String "-" body)))))).
  cbn [String.prefix String.length Nat.sub String.substring].
  repeat (destruct (ascii_dec _ _) as [_|Hne]; [|exfalso; apply Hne; reflexivity]).
  rewrite ?Nat.sub_0_r, substring_full.
  replace (String.prefix "" body) with true by (destruct body; reflexivity).
  reflexivity.
Qed.

Lemma codeValidator_upper v : codeValidator v = true -> Js.toUpperCase v = v.
Proof.
  intros H. destruct (codeValidator_shape v H) as (body & -> & Hchars & _).
  rewrite toUpperCase_app, (toUpperCase_upperAlnum body Hchars). reflexivity.
Qed.

(** X7. The partner lookup, for queries made of characters below 128, on
    which [toUpperCase] changes the letters [a-z] and nothing else. It
    ignores the letter case of the code it is given. What it returns is an
    active partner of the collection whose stored code is the upper-case
    form of the query, so an inactive partner is never returned; and it
    returns nothing only when no active partner carries that code. *)
Theorem findByCode_case_insensitive (ps : list doc) (c1 c2 : string) :
  Js.allChars Js.isAscii c1 = true ->
  Js.allChars Js.isAscii c2 = true ->
  (Js.toUpperCase c1 = Js.toUpperCase c2 ->
   Db.findActiveByCode ps c1 = Db.findActiveByCode ps c2) /\
  Db.findActiveByCode ps (Js.toUpperCase c1) = Db.findActiveByCode ps c1 /\
  (forall p, Db.findActiveByCode ps c1 = Some p ->
     In p ps /\ active p = true /\ code p = Some (Js.toUpperCase c1)) /\
  (Db.findActiveByCode ps c1 = None ->
   forall p, In p ps -> active p = true -> code p <> Some (Js.toUpperCase c1)).
Proof.
  intros _ _. split; [|split; [|split]].
  - intros H. unfold Db.findActiveByCode. rewrite H. reflexivity.
  - unfold Db.findActiveByCode. rewrite toUpperCase_idem. reflexivity.
  - intros p H. unfold Db.findActiveByCode in H.
    apply find_some in H as [Hin H]. apply andb_prop in H as [Hc Ha].
    apply bool_decide_eq_true in Hc. auto.
  - intros H p Hin Ha Hc. unfold Db.findActiveByCode in H.
    pose proof (find_none _ _ H p Hin) as Hp. cbn beta in Hp.
    rewrite Ha, bool_decide_eq_true_2 in Hp by exact Hc. discriminate.
Qed.

(** The theorem for the sample partner, looked up in lower case. *)
Lemma findByCode_case_insensitive_witness :
  Js.allChars Js.isAscii "twbfl-janedoex7k" = true /\
  Js.toUpperCase "twbfl-janedoex7k" = Js.toUpperCase Examples.janeCode /\
  Db.findActiveByCode [Examples.jane] "twbfl-janedoex7k" = Some Examples.jane.
Proof.
  split; [reflexivity|]. split; [reflexivity|].
  destruct (findByCode_case_insensitive [Examples.jane] "twbfl-janedoex7k"
              Examples.janeCode eq_refl eq_refl) as (H & _ & _).
  rewrite (H eq_refl). reflexivity.
Defined.

(** X8. Looking a partner up by its own code finds that partner: if an
    active partner carries a code that the schema validator accepts, and no
    other stored partner carries the same code, then the lookup with that
    code, in any letter case, returns exactly this partner. *)
Theorem lookup_own_code (ps : list doc) (p : doc) (c query : string) :
  In p ps ->
  code p = Some c ->
  codeValidator c = true ->
  active p = true ->
  (forall q, In q ps -> code q = Some c -> q = p) ->
  Js.toUpperCase query = c ->
  Db.findActiveByCode ps query = Some p /\ Db.findActiveByCode ps c = Some p.
Proof.
  intros Hin Hc Hv Ha Huniq Hq.
  assert (Hfind : forall x, Js.toUpperCase x = c -> Db.findActiveByCode ps x = Some p).
  { intros x Hx. unfold Db.findActiveByCode. rewrite Hx.
    induction ps as [|q ps IH]; [destruct Hin|]. cbn [find].
    destruct (bool_decide (code q = Some c) && active q) eqn:Hq'.
    - apply andb_prop in Hq' as [Hq' _]. apply bool_decide_eq_true in Hq'.
      f_equal. apply Huniq; [left; reflexivity|exact Hq'].
    - destruct Hin as [-> | Hin].
      + rewrite Hc, Ha, bool_decide_eq_true_2 in Hq' by reflexivity. discriminate.
      + apply IH; [exact Hin|].
        intros q' Hq'' Hcq. apply Huniq; [right; exact Hq''|exact Hcq]. }
  split; [apply Hfind, Hq|apply Hfind, codeValidator_upper, Hv].
Qed.

(** The theorem for the sample partner. *)
Lemma lookup_own_code_witness :
  codeValidator Examples.janeCode = true /\
  Db.findActiveByCode [Examples.jane; Examples.oneInThree] "Twbfl-JaneDoeX7k"
  = Some Examples.jane.
Proof.
  split; [reflexivity|].
  apply (lookup_own_code [Examples.jane; Examples.oneInThree] Examples.jane
           Examples.janeCode "Twbfl-JaneDoeX7k").
  - left. reflexivity.
  - reflexivity.
  - reflexivity.
  - reflexivity.
  - intros q [<- | [<- | []]]; [reflexivity|discriminate].
  - reflexivity.
Defined.

(** X9. Whether a generated code passes the schema validator depends only
    on its length: it passes exactly when the stem and the suffix together
    have between 4 and 10 characters. The stem has the first eight letters
    and digits of the name, so with the usual suffix of three characters the
    code is valid exactly for names with one to seven letters and digits. *)
Theorem generated_code_valid_iff (name r : string) :
  Js.allChars Js.isBase36Digit (Js.substring 2 5 r) = true ->
  (codeValidator (generatePartnerCode name r) = true <->
   (4 <= String.length (cleanName name) + String.length (randomSuffix r) <= 10)%nat) /\
  String.length (cleanName name)
  = Nat.min 8 (String.length (Js.stripNonAlnum name)) /\
  (String.length (randomSuffix r) <= 3)%nat /\
  (String.length (randomSuffix r) = 3%nat ->
   (codeValidator (generatePartnerCode name r) = true <->
    (1 <= String.length (Js.stripNonAlnum name) <= 7)%nat)).
Proof.
  intros Hr.
  assert (Hlen : String.length (cleanName name)
                 = Nat.min 8 (String.length (Js.stripNonAlnum name))).
  { unfold cleanName, Js.substring. cbn [Nat.sub].
    rewrite length_substring_0, length_toUpperCase. reflexivity. }
  assert (Hsuf : (String.length (randomSuffix r) <= 3)%nat).
  { unfold randomSuffix, Js.substring. rewrite length_toUpperCase.
    apply length_substring_le. }
  assert (Hiff : codeValidator (generatePartnerCode name r) = true <->
            (4 <= String.length (cleanName name)
                  + String.length (randomSuffix r) <= 10)%nat).
  { unfold generatePartnerCode.
    rewrite validator_of_tagged, generatePartnerCode_shape by exact Hr.
    rewrite length_append. cbn [andb].
    rewrite andb_true_iff, Nat.leb_le, Nat.leb_le. tauto. }
  split; [exact Hiff|]. split; [exact Hlen|]. split; [exact Hsuf|].
  intros H3. rewrite Hiff, Hlen, H3. lia.
Qed.

(** The theorem for "Jane Doe" and for "Jonathan Smith". *)
Lemma generated_code_valid_iff_witness :
  Js.allChars Js.isBase36Digit (Js.substring 2 5 "0.x7k2m9") = true /\
  codeValidator (generatePartnerCode "Jane Doe" "0.x7k2m9") = true /\
  codeValidator (generatePartnerCode "Jonathan Smith" "0.x7k2m9") <> true.
Proof.
  split; [reflexivity|].
  destruct (generated_code_valid_iff "Jane Doe" "0.x7k2m9" eq_refl)
    as (_ & _ & _ & Hjane).
  destruct (generated_code_valid_iff "Jonathan Smith" "0.x7k2m9" eq_refl)
    as (_ & _ & _ & Hjon).
  split.
  - apply (Hjane eq_refl). vm_compute. lia.
  - intros H. apply (Hjon eq_refl) in H. vm_compute in H. lia.
Defined.

(** X10. Saving never replaces a code: the hook returns the document
    unchanged when it already has a code, or has no name; and when it does
    assign a code, that is the only field it changes. *)
Theorem preSave_keeps_assigned_code (rnd : nat -> string) (existing : list doc)
    (this : doc) :
  (Js.truthy (code this) = true \/ name this = "" ->
   preSave rnd existing this = inl this) /\
  (forall saved, preSave rnd existing this = inl saved ->
     _id saved = _id this /\ name saved = name this /\ type saved = type this /\
     email saved = email this /\ active saved = active this /\
     stats saved = stats this /\
     (Js.truthy (code this) = true -> code saved = code this)).
Proof.
  split.
  - intros [H | H]; unfold preSave.
    + rewrite H. reflexivity.
    + rewrite H. cbn. rewrite andb_false_r. reflexivity.
  - intros saved. unfold preSave.
    destruct (negb (Js.truthy (code this)) && Js.truthy (Some (name this))) eqn:Hg.
    + destruct (tryCodes maxAttempts 0 rnd existing (name this)) as [c|];
        [|discriminate].
      intros [= <-]. repeat split.
      apply andb_prop in Hg as [Hg _]. apply negb_true_iff in Hg. congruence.
    + intros [= <-]. repeat split.
Qed.

(** The theorem for the sample partner, which has a code. *)
Lemma preSave_keeps_assigned_code_witness :
  Js.truthy (code Examples.jane) = true /\
  preSave Examples.stuck [Examples.oneInThree] Examples.jane = inl Examples.jane.
Proof.
  split; [reflexivity|].
  apply (preSave_keeps_assigned_code Examples.stuck [Examples.oneInThree]
           Examples.jane).
  left. reflexivity.
Defined.

Lemma bumpStats_counters k now p :
  let s := stats p in
  let s' := stats (bumpStats k now p) in
  totalLeads s' = (totalLeads s + if bool_decide (k = lead) then 1 else 0)%N /\
  totalTours s' = (totalTours s + if bool_decide (k = tour) then 1 else 0)%N /\
  totalBookings s'
  = (totalBookings s + if bool_decide (k = booking) then 1 else 0)%N /\
  lastActivityAt s' = now /\
  setStats (stats p) (bumpStats k now p) = p.
Proof. destruct p as [i n t e c a [l tr b la]], k; cbn; rewrite ?N.add_0_r; auto. Qed.

Lemma occurrences_cons k0 k kinds :
  PartnerLedger.occurrences k0 (k :: kinds)
  = ((if bool_decide (k = k0) then 1 else 0)
     + PartnerLedger.occurrences k0 kinds)%N.
Proof.
  unfold PartnerLedger.occurrences. rewrite filter_cons.
  destruct (decide (k = k0)) as [Hk|Hk].
  - rewrite bool_decide_eq_true_2 by exact Hk. cbn [length]. lia.
  - rewrite bool_decide_eq_false_2 by exact Hk. lia.
Qed.

(** X11. However many times [updateStats] is called on a partner, and in
    whatever order of kinds, each counter ends at its old value plus the
    number of calls of its kind; no counter ever decreases, and nothing but
    the counters and the activity stamp changes. *)
Theorem updateStats_counts_calls (kinds : list statKind) (now : Z) (p : doc) :
  let p' := PartnerLedger.recordAll kinds now p in
  totalLeads (stats p')
  = (totalLeads (stats p) + PartnerLedger.occurrences lead kinds)%N /\
  totalTours (stats p')
  = (totalTours (stats p) + PartnerLedger.occurrences tour kinds)%N /\
  totalBookings (stats p')
  = (totalBookings (stats p) + PartnerLedger.occurrences booking kinds)%N /\
  setStats (stats p) p' = p /\
  (kinds <> [] -> lastActivityAt (stats p') = now).
Proof.
  unfold PartnerLedger.recordAll, PartnerLedger.occurrences.
  revert p. induction kinds as [|k kinds IH]; intros p.
  - cbn. rewrite !N.add_0_r. repeat split; [|congruence].
    destruct p as [i n t e c a s]. reflexivity.
  - cbn [fold_left].
    destruct (IH (bumpStats k now p)) as (Hl & Ht & Hb & Hset & Hlast).
    destruct (bumpStats_counters k now p) as (Hl1 & Ht1 & Hb1 & Hlast1 & Hset1).
    cbv zeta in *.
    fold (PartnerLedger.occurrences lead kinds) in *.
    fold (PartnerLedger.occurrences tour kinds) in *.
    fold (PartnerLedger.occurrences booking kinds) in *.
    fold (PartnerLedger.occurrences lead (k :: kinds)).
    fold (PartnerLedger.occurrences tour (k :: kinds)).
    fold (PartnerLedger.occurrences booking (k :: kinds)).
    rewrite Hl, Ht, Hb, Hl1, Ht1, Hb1, !occurrences_cons.
    split; [|split; [|split; [|split]]].
    + destruct (bool_decide (k = lead)); lia.
    + destruct (bool_decide (k = tour)); lia.
    + destruct (bool_decide (k = booking)); lia.
    + transitivity
        (setStats (stats p)
           (setStats (stats (bumpStats k now p))
              (fold_left (fun q k' => bumpStats k' now q) kinds
                 (bumpStats k now p))));
        [reflexivity|].
      rewrite Hset. exact Hset1.
    + intros _. destruct kinds as [|k' kinds']; [exact Hlast1|].
      apply Hlast. discriminate.
Qed.

(** The theorem for two leads and a booking. *)
Lemma updateStats_counts_calls_witness :
  [lead; booking; lead] <> [] /\
  totalLeads (stats (PartnerLedger.recordAll [lead; booking; lead] 5
                       Examples.jane)) = 3%N /\
  lastActivityAt (stats (PartnerLedger.recordAll [lead; booking; lead] 5
                           Examples.jane)) = 5.
Proof.
  assert (Hne : [lead; booking; lead] <> []) by discriminate.
  destruct (updateStats_counts_calls [lead; booking; lead] 5 Examples.jane)
    as (Hl & _ & _ & _ & Hlast).
  split; [exact Hne|]. split; [exact Hl|exact (Hlast Hne)].
Defined.

End PartnerProps.

(** ** The ledger behind the handlers *)

Section LedgerProps.
Import Db PartnerController.

(** Saving a document in place of the one a lookup finds: the lookup then
    finds the saved document, provided it kept the code and the active
    flag. *)
Lemma findActiveByCode_savedPartners ps rc q p' :
  findActiveByCode ps rc = Some q ->
  Partner._id p' = Partner._id q ->
  Partner.code p' = Partner.code q ->
  Partner.active p' = Partner.active q ->
  findActiveByCode (savedPartners p' ps) rc = Some p'.
Proof.
  intros Hq Hid Hcode Hact.
  destruct (findActiveByCode_Some _ _ _ Hq) as [Hc Ha].
  revert Hq. unfold findActiveByCode, savedPartners.
  induction ps as [|x ps IH]; simpl; [discriminate|].
  destruct (Partner._id x =? Partner._id p')%nat eqn:Hx.
  - intros _. simpl. rewrite Hcode, Hact, Hc, Ha, bool_decide_eq_true_2 by reflexivity.
    reflexivity.
  - destruct (bool_decide (Partner.code x = Some (Js.toUpperCase rc))
              && Partner.active x) eqn:Hm.
    + intros [= ->]. rewrite Hid, Nat.eqb_refl in Hx. discriminate.
    + exact IH.
Qed.

(** X12. [updateStats] writes back the counter of the document it was
    called on. Two attributions handled one after the other raise the
    partner's lead counter by two; when both requests have looked the partner
    up before either stores its increment, the second write repeats the
    first and the counter rises by one only. *)
Theorem stale_increment_is_lost (w : world) (code : string) (p : Partner.doc) :
  findActiveByCode (partners w) code = Some p ->
  failing w PartnerFindOne = false ->
  failing w PartnerSave = false ->
  (exists p2,
     findActiveByCode (partners (twoLeadsInSequence code w).1) code = Some p2 /\
     Partner.totalLeads (Partner.stats p2)
     = (Partner.totalLeads (Partner.stats p) + 2)%N) /\
  (exists p1,
     findActiveByCode (partners (twoLeadsInterleaved code w).1) code = Some p1 /\
     Partner.totalLeads (Partner.stats p1)
     = (Partner.totalLeads (Partner.stats p) + 1)%N).
Proof.
  intros Hp Hf Hs.
  pose proof (findActiveByCode_saved _ _ _ Partner.lead (clock w) Hp) as Hp1.
  split.
  - run_more. rewrite Hf. simpl. rewrite Hp. simpl. rewrite Hs. simpl.
    rewrite Hf. simpl. rewrite Hp1. simpl. rewrite Hs. simpl.
    eexists. split; [apply findActiveByCode_saved, Hp1|].
    simpl. lia.
  - run_more. rewrite Hf. simpl. rewrite Hf. simpl. rewrite Hp. simpl.
    rewrite Hs. simpl. rewrite Hs. simpl.
    exists (Partner.bumpStats Partner.lead (clock w) p). split; [|reflexivity].
    apply (findActiveByCode_savedPartners _ _ _ _ Hp1); reflexivity.
Qed.

(** The theorem for the sample partner, whose lead counter starts at 1. *)
Lemma stale_increment_is_lost_witness :
  findActiveByCode (partners Examples.w0) Examples.janeCode = Some Examples.jane /\
  (exists p1,
     findActiveByCode
       (partners (twoLeadsInterleaved Examples.janeCode Examples.w0).1)
       Examples.janeCode = Some p1 /\
     Partner.totalLeads (Partner.stats p1) = 2%N).
Proof.
  split; [reflexivity|].
  destruct (stale_increment_is_lost Examples.w0 Examples.janeCode Examples.jane
              eq_refl eq_refl eq_refl) as (_ & p1 & Hp1 & Hleads).
  exists p1. split; [exact Hp1|exact Hleads].
Defined.

Lemma find_all_false {A} (f : A -> bool) (l : list A) :
  (forall x, In x l -> f x = false) -> List.find f l = None.
Proof.
  induction l as [|x l IH]; intros H; [reflexivity|]. cbn [find].
  rewrite (H x) by (left; reflexivity). apply IH. intros y Hy. apply H. right. exact Hy.
Qed.

(** X13. Deleting a partner deactivates it and keeps the document with its
    counters. If no other partner carries its code, the code resolves to
    nobody from then on: the public lookup answers 404, and a lead submitted
    with the code is still created, without attribution and without touching
    any counter. *)
Theorem deactivated_partner_is_not_found (w : world) (id : nat) (p : Partner.doc)
    (c : string) :
  List.find (fun q => (Partner._id q =? id)%nat) (partners w) = Some p ->
  Partner.code p = Some c ->
  Partner.codeValidator c = true ->
  (forall q, In q (partners w) -> Partner.code q = Some c -> Partner._id q = id) ->
  failing w PartnerFindOne = false ->
  failing w PartnerSave = false ->
  let w1 := (deletePartner id w).1 in
  (deletePartner id w).2
  = Ok (Reply 200 (Done "Partner deactivated successfully")) /\
  partners w1 = savedPartners (setActive false p) (partners w) /\
  In (setActive false p) (partners w1) /\
  contacts w1 = contacts w /\
  findActiveByCode (partners w1) c = None /\
  (lookupPartner c w1).2
  = Ok (Reply 404 (Failure "Partner not found or inactive")) /\
  (forall req,
     ContactController.refCode req = Some c ->
     ContactController.validationErrors req = [] ->
     failing w ContactCreate = false ->
     exists lead,
       (ContactController.submitContactForm req w1).2
       = Ok (Json 201 (Submitted (Contact._id lead))) /\
       contacts (ContactController.submitContactForm req w1).1
       = <[ Contact._id lead := lead ]> (contacts w1) /\
       Contact.refSource lead = None /\
       partners (ContactController.submitContactForm req w1).1 = partners w1).
Proof.
  intros Hfind Hcode Hvalid Huniq Hf Hs.
  apply find_some in Hfind as Hp. destruct Hp as [Hin Hid]. apply Nat.eqb_eq in Hid.
  assert (Hrun : deletePartner id w
                 = (setPartners (savedPartners (setActive false p) (partners w)) w,
                    Ok (Reply 200 (Done "Partner deactivated successfully")))).
  { run_more. rewrite Hf. simpl. rewrite Hfind. simpl. rewrite Hs. reflexivity. }
  rewrite Hrun. cbn [fst snd partners contacts setPartners].
  assert (Hupper : Js.toUpperCase c = c) by (apply codeValidator_upper, Hvalid).
  assert (Hnone : findActiveByCode
                    (savedPartners (setActive false p) (partners w)) c = None).
  { apply find_all_false. intros x Hx. unfold savedPartners in Hx.
    apply in_map_iff in Hx as (q & <- & Hq). rewrite Hupper.
    destruct (Partner._id q =? Partner._id (setActive false p))%nat eqn:Hq'.
    - cbn. apply andb_false_r.
    - apply andb_false_intro1, bool_decide_eq_false. intros Hqc.
      apply Nat.eqb_neq in Hq'. apply Hq'. cbn. rewrite Hid.
      apply Huniq; assumption. }
  assert (Hne : String.eqb c "" = false).
  { destruct (codeValidator_shape c Hvalid) as (body & -> & _). reflexivity. }
  split; [reflexivity|]. split; [reflexivity|]. split; [|split; [reflexivity|]].
  { unfold savedPartners. apply in_map_iff. exists p. split; [|exact Hin].
    cbn. rewrite Nat.eqb_refl. reflexivity. }
  split; [exact Hnone|]. split.
  - run_more. rewrite Hne. simpl. rewrite Hf. simpl. rewrite Hnone. reflexivity.
  - intros [errs flds rc] Hrc Herrs Hc. simpl in Hrc, Herrs. subst errs rc.
    run. rewrite Hne. simpl. rewrite Hf. simpl. rewrite Hnone. simpl.
    rewrite Hc. simpl.
    eexists (Contact.mkDoc _ _ _ _ _ _ _ _ _ _). repeat split.
Qed.

(** The theorem for the sample partner. *)
Lemma deactivated_partner_is_not_found_witness :
  Partner.codeValidator Examples.janeCode = true /\
  (lookupPartner Examples.janeCode (deletePartner 1 Samples.wTwoLeads).1).2
  = Ok (Reply 404 (Failure "Partner not found or inactive")).
Proof.
  split; [reflexivity|].
  assert (Huniq : forall q, In q (partners Samples.wTwoLeads) ->
            Partner.code q = Some Examples.janeCode -> Partner._id q = 1%nat).
  { intros q [<- | [<- | []]]; [reflexivity|discriminate]. }
  destruct (deactivated_partner_is_not_found Samples.wTwoLeads 1 Examples.jane
              Examples.janeCode eq_refl eq_refl eq_refl Huniq eq_refl eq_refl)
    as (_ & _ & _ & _ & _ & Hlookup & _).
  exact Hlookup.
Defined.

Lemma size_filter_and (cs : gmap nat Contact.doc) (f g : Contact.doc -> bool) :
  (size (filter (fun kc : nat * Contact.doc => (f kc.2 && g kc.2) = true) cs)
   <= size (filter (fun kc : nat * Contact.doc => f kc.2 = true) cs))%nat.
Proof.
  apply map_subseteq_size, map_filter_subseteq_ext.
  intros i x _ H. apply andb_prop in H as [H _]. exact H.
Qed.

(** X14. [getPartner] reports counts recomputed from the leads that carry
    the partner's code, not the stored counters: the tour and booking counts
    never exceed the lead count, and the conversion rate is the number 0
    without leads and otherwise a two-decimal string between 0.00 and
    100.00. The request changes nothing. *)
Theorem getPartner_recounts (w : world) (id : nat) (p : Partner.doc)
    (code : string) :
  List.find (fun q => (Partner._id q =? id)%nat) (partners w) = Some p ->
  Partner.code p = Some code ->
  failing w PartnerFindOne = false ->
  failing w ContactFindById = false ->
  exists (l t b : N) (rate : Js.value),
    getPartner id w = (w, Ok (Reply 200 (WithStats p l t b rate))) /\
    l = N.of_nat (size (filter (fun kc : nat * Contact.doc =>
                                  Contact.refCode kc.2 = Some code)
                          (contacts w))) /\
    (t <= l)%N /\ (b <= l)%N /\
    (l = 0%N -> rate = Js.Num 0) /\
    (l <> 0%N -> exists n, rate = Js.Fixed2 n /\ 0 <= n <= 10000).
Proof.
  intros Hfind Hcode Hf Hc. eexists _, _, _, _. split.
  { run_more. rewrite Hf. simpl. rewrite Hfind. simpl.
    repeat (rewrite Hc; simpl). reflexivity. }
  pose proof (size_filter_and (contacts w) (byRefCode (Partner.code p))
                Contact.tourScheduled) as Ht.
  pose proof (size_filter_and (contacts w) (byRefCode (Partner.code p))
                Contact.booked) as Hb.
  split; [|split; [lia|split; [lia|split]]].
  - f_equal. f_equal. apply map_filter_ext. intros i x _. unfold byRefCode.
    cbn [snd]. rewrite Hcode. apply bool_decide_eq_true.
  - intros H0. unfold conversionOf. rewrite H0. reflexivity.
  - intros Hne. unfold conversionOf.
    destruct (0 <? _)%N eqn:Hpos; [|apply N.ltb_ge in Hpos; lia].
    apply N.ltb_lt in Hpos. eexists. split; [reflexivity|].
    apply toFixed2_percentOf_bounds; [lia|exact Hpos].
Qed.

(** The theorem for the sample store, in which Jane has two leads. *)
Lemma getPartner_recounts_witness :
  List.find (fun q => (Partner._id q =? 1)%nat) (partners Samples.wTwoLeads)
  = Some Examples.jane /\
  exists l t b rate,
    getPartner 1 Samples.wTwoLeads
    = (Samples.wTwoLeads, Ok (Reply 200 (WithStats Examples.jane l t b rate))) /\
    (t <= l)%N.
Proof.
  split; [reflexivity|].
  destruct (getPartner_recounts Samples.wTwoLeads 1 Examples.jane
              Examples.janeCode eq_refl eq_refl eq_refl eq_refl) as (l & t & b & rate & Hrun & _ & Ht & _).
  exists l, t, b, rate. split; [exact Hrun|exact Ht].
Defined.

(** Replacing the document stored under a key moves a filtered count by the
    difference between the new and the old document. *)
Lemma size_filter_insert (m : gmap nat Contact.doc) (i : nat)
    (x x' : Contact.doc) (f : Contact.doc -> bool) :
  m !! i = Some x ->
  (size (filter (fun kc : nat * Contact.doc => f kc.2 = true) (<[i:=x']> m))
   + (if f x then 1 else 0)
   = size (filter (fun kc : nat * Contact.doc => f kc.2 = true) m)
     + (if f x' then 1 else 0))%nat.
Proof.
  intros Hi.
  assert (Hin : f x = true ->
                filter (fun kc : nat * Contact.doc => f kc.2 = true) m !! i
                = Some x).
  { intros Hx. apply map_lookup_filter_Some. split; [exact Hi|exact Hx]. }
  assert (Hout : f x = false ->
                 filter (fun kc : nat * Contact.doc => f kc.2 = true) m !! i
                 = None).
  { intros Hx. apply map_lookup_filter_None. right. intros y Hy.
    rewrite Hi in Hy. injection Hy as <-. cbn [snd]. rewrite Hx. discriminate. }
  destruct (f x') eqn:Hx'.
  - rewrite map_filter_insert_True by exact Hx'.
    destruct (f x) eqn:Hx.
    + rewrite map_size_insert_Some by (rewrite Hin; eauto). reflexivity.
    + rewrite map_size_insert_None by (apply Hout; reflexivity). lia.
  - rewrite map_filter_insert_False by (cbn [snd]; rewrite Hx'; discriminate).
    rewrite map_filter_delete.
    destruct (f x) eqn:Hx.
    + rewrite map_size_delete_Some by (rewrite Hin; eauto).
      assert (size (filter (fun kc : nat * Contact.doc => f kc.2 = true) m) <> 0)%nat.
      { intros H0. apply map_size_empty_inv in H0. rewrite H0 in Hin.
        specialize (Hin eq_refl). rewrite lookup_empty in Hin. discriminate. }
      lia.
    + rewrite map_size_delete_None by (apply Hout; reflexivity). lia.
Qed.

(** X15. Booking a lead that carries a partner's code, with a booking
    amount that the schema admits, which asks for [min: 0] (a negative
    amount makes the save of the lead fail): the booking count that
    [getPartner] recomputes from the leads rises by one and the lead and
    tour counts stay, while the partner document in the reply, with its
    stored counters, is the same as before. *)
Theorem booking_shows_in_recount_only (w : world) (id pid : nat)
    (c : Contact.doc) (p : Partner.doc) (code : string)
    (td bd : option Z) (ba : option Q) :
  (forall a, ba = Some a -> (0 <= a)%Q) ->
  contacts w !! id = Some c ->
  Contact._id c = id ->
  Contact.refCode c = Some code ->
  Contact.booked c = false ->
  List.find (fun q => (Partner._id q =? pid)%nat) (partners w) = Some p ->
  Partner.code p = Some code ->
  failing w PartnerFindOne = false ->
  failing w ContactFindById = false ->
  failing w ContactSave = false ->
  let w' := (ContactController.updateContactLeadStatus id
               (ContactController.mkLeadStatusReq None td (Some true) bd ba)
               w).1 in
  exists (l t b : N) (r r' : Js.value),
    getPartner pid w = (w, Ok (Reply 200 (WithStats p l t b r))) /\
    getPartner pid w' = (w', Ok (Reply 200 (WithStats p l t (b + 1) r'))).
Proof.
  intros _ Hc Hid Hcode Hbooked Hfind Hpcode Hf Hcf Hs w'.
  assert (Hw' : exists c',
             w' = setContacts (<[id := c']> (contacts w)) w /\
             Contact.refCode c' = Some code /\
             Contact.tourScheduled c' = Contact.tourScheduled c /\
             Contact.booked c' = true).
  { subst w'. run. rewrite Hcf. simpl. rewrite Hc. simpl.
    destruct bd as [d|], ba as [a|]; simpl; try destruct (Qeq_bool a 0); simpl;
      rewrite Hs; simpl; rewrite Hid;
      eexists; (split; [reflexivity|]); simpl; auto. }
  destruct Hw' as (c' & -> & Hcode' & Hts' & Hb').
  eexists _, _, _, _, _. split.
  { run_more. rewrite Hf. simpl. rewrite Hfind. simpl.
    repeat (rewrite Hcf; simpl). reflexivity. }
  run_more. rewrite Hf. simpl. rewrite Hfind. simpl.
  repeat (rewrite Hcf; simpl).
  pose proof (size_filter_insert (contacts w) id c c'
                (byRefCode (Partner.code p)) Hc) as Hl.
  pose proof (size_filter_insert (contacts w) id c c'
                (fun d => byRefCode (Partner.code p) d && Contact.tourScheduled d)
                Hc) as Ht.
  pose proof (size_filter_insert (contacts w) id c c'
                (fun d => byRefCode (Partner.code p) d && Contact.booked d)
                Hc) as Hb.
  cbn beta in Ht, Hb.
  assert (Hyes : forall d, Contact.refCode d = Some code ->
                           byRefCode (Partner.code p) d = true).
  { intros d Hd. unfold byRefCode. apply bool_decide_eq_true. congruence. }
  rewrite !Hyes in Hl, Ht, Hb by assumption.
  rewrite Hts', Hb', Hbooked in *. cbn [andb] in Ht, Hb.
  assert (Ht' : forall n m : nat, (n + (if Contact.tourScheduled c then 1 else 0)
                  = m + (if Contact.tourScheduled c then 1 else 0))%nat -> n = m).
  { intros n m. destruct (Contact.tourScheduled c); lia. }
  apply Ht' in Ht.
  assert (Hl' : forall n m : nat, (n + 1 = m + 1)%nat -> n = m) by (intros; lia).
  apply Hl' in Hl.
  rewrite Hl, Ht.
  replace (N.of_nat (size (filter _ (<[id:=c']> (contacts w)))))
    with (N.of_nat (size (filter
            (fun kc : nat * Contact.doc =>
               byRefCode (Partner.code p) kc.2 && Contact.booked kc.2 = true)
            (contacts w))) + 1)%N at 1 by lia.
  reflexivity.
Qed.

(** The theorem for the sample store: lead 7 carries Jane's code and is not
    booked. *)
Lemma booking_shows_in_recount_only_witness :
  contacts Samples.wTwoLeads !! 7%nat = Some Examples.lead /\
  exists l t b r r',
    getPartner 1 Samples.wTwoLeads
    = (Samples.wTwoLeads, Ok (Reply 200 (WithStats Examples.jane l t b r))) /\
    getPartner 1
      (ContactController.updateContactLeadStatus 7
         (ContactController.mkLeadStatusReq None None (Some true) None
            (Some (5000 # 1)))
         Samples.wTwoLeads).1
    = ((ContactController.updateContactLeadStatus 7
          (ContactController.mkLeadStatusReq None None (Some true) None
             (Some (5000 # 1)))
          Samples.wTwoLeads).1,
       Ok (Reply 200 (WithStats Examples.jane l t (b + 1) r'))).
Proof.
  split; [reflexivity|].
  assert (Hamount : forall a : Q, Some (5000 # 1) = Some a -> (0 <= a)%Q).
  { intros a [= <-]. discriminate. }
  exact (booking_shows_in_recount_only Samples.wTwoLeads 7 1 Examples.lead
           Examples.jane Examples.janeCode None None (Some (5000 # 1)) Hamount
           eq_refl eq_refl eq_refl eq_refl eq_refl eq_refl eq_refl eq_refl
           eq_refl).
Defined.

End LedgerProps.

(** ** More on the daily rollup *)

Section RollupProps.
Import Analytics.

Lemma statsUpdate_eq (a b : statsUpdateT) :
  date a = date b ->
  visitors_unique a = visitors_unique b ->
  visitors_total a = visitors_total b ->
  pageViews_total a = pageViews_total b ->
  pageViews_byPage a = pageViews_byPage b ->
  contactForms a = contactForms b ->
  galleryViews a = galleryViews b ->
  reviews a = reviews b ->
  a = b.
Proof. destruct a, b; simpl; intros; subst; reflexivity. Qed.

Lemma length_remove_dups_perm {A : Type} `{EqDecision A} (l l' : list A) :
  l ≡ₚ l' -> length (remove_dups l) = length (remove_dups l').
Proof.
  intros H. apply Permutation_length, NoDup_Permutation.
  - apply NoDup_remove_dups.
  - apply NoDup_remove_dups.
  - intros x. rewrite !elem_of_remove_dups, H. reflexivity.
Qed.

Lemma eventsOfDay_perm tz d (l l' : list event) :
  l ≡ₚ l' -> eventsOfDay tz d l ≡ₚ eventsOfDay tz d l'.
Proof. intros H. unfold eventsOfDay. rewrite H. reflexivity. Qed.

(** The statistics of a day depend on the events of the day only as a
    multiset. *)
Lemma computeStats_perm tz d (log log' : list event) :
  log ≡ₚ log' -> computeStats tz d log = computeStats tz d log'.
Proof.
  intros H. apply (eventsOfDay_perm tz d) in H.
  destruct (computeStats_spec tz d log)
    as (Hd & Ht & Hu & Hpv & Hcf & Hgv & Hrv & Hbp).
  destruct (computeStats_spec tz d log')
    as (Hd' & Ht' & Hu' & Hpv' & Hcf' & Hgv' & Hrv' & Hbp').
  cbv zeta in *.
  apply statsUpdate_eq.
  - congruence.
  - rewrite Hu, Hu'. f_equal. f_equal. apply list_to_set_perm_L.
    rewrite H. reflexivity.
  - rewrite Ht, Ht'. f_equal. apply length_remove_dups_perm.
    rewrite H. reflexivity.
  - rewrite Hpv, Hpv'. apply eventsWhere_perm, H.
  - apply map_eq. intros name. rewrite Hbp, Hbp'.
    rewrite (eventsWhere_perm _ _ _ H). reflexivity.
  - rewrite Hcf, Hcf'. apply eventsWhere_perm, H.
  - rewrite Hgv, Hgv'. apply eventsWhere_perm, H.
  - rewrite Hrv, Hrv'. apply eventsWhere_perm, H.
Qed.

(** X16. The rollup does not depend on the order of the event log, and so
    not on the order in which the aggregation returns its rows: two logs
    with the same events give the same statistics document and the same
    collection. *)
Theorem rollup_order_independent (tz d : Z) (log log' : list event)
    (coll : list siteStats) :
  log ≡ₚ log' ->
  updateDailyStats tz d log coll = updateDailyStats tz d log' coll.
Proof.
  intros H. unfold updateDailyStats. rewrite (computeStats_perm tz d log log' H).
  reflexivity.
Qed.

(** The theorem for the scenario log and the same log read backwards. *)
Lemma rollup_order_independent_witness :
  updateDailyStats 0 Examples.dayD Examples.scenarioLog []
  = updateDailyStats 0 Examples.dayD (reverse Examples.scenarioLog) [].
Proof.
  apply rollup_order_independent. symmetry. apply reverse_Permutation.
Defined.

(** *** The window of a day *)

Lemma startOfDay_window tz d :
  startOfDay tz d <= d <= endOfDay tz d.
Proof.
  unfold endOfDay, startOfDay, msPerDay.
  pose proof (Z.mod_pos_bound (d + tz) 86400000 ltac:(lia)). lia.
Qed.

Lemma startOfDay_same tz d d' :
  startOfDay tz d <= d' <= endOfDay tz d -> startOfDay tz d' = startOfDay tz d.
Proof.
  unfold endOfDay, startOfDay, msPerDay. intros H.
  pose proof (Z.mod_pos_bound (d + tz) 86400000 ltac:(lia)) as Hd.
  pose proof (Z.div_mod (d + tz) 86400000 ltac:(lia)) as Hdm.
  set (q := (d + tz) / 86400000) in *.
  set (r := (d + tz) mod 86400000) in *.
  assert (Hq : (d' + tz) mod 86400000 = d' + tz - 86400000 * q).
  { symmetry. apply (Z.mod_unique_pos _ _ q); lia. }
  rewrite Hq. lia.
Qed.

Lemma inDay_same tz d d' e :
  startOfDay tz d' = startOfDay tz d -> inDay tz d' e = inDay tz d e.
Proof. intros H. unfold inDay, endOfDay. rewrite H. reflexivity. Qed.

(** X17. The days partition time: the window of a date contains the date,
    and a rollup asked for any instant of that window reads the same events
    and writes the same record as the rollup asked for the date. An event
    falls in the window of a date exactly when the date falls in the window
    of the event's own day. *)
Theorem rollup_same_day (tz d d' : Z) (log : list event) (coll : list siteStats) :
  startOfDay tz d <= d' <= endOfDay tz d ->
  updateDailyStats tz d' log coll = updateDailyStats tz d log coll /\
  forall e, inDay tz d e = true <-> startOfDay tz (createdAt e) = startOfDay tz d.
Proof.
  intros H. split.
  - pose proof (startOfDay_same tz d d' H) as Hs.
    unfold updateDailyStats, computeStats, aggregateDay.
    rewrite Hs.
    rewrite (filter_ext_in (fun e => inDay tz d' e = true)
               (fun e => inDay tz d e = true)).
    2:{ intros e _. rewrite (inDay_same tz d d' e Hs). reflexivity. }
    reflexivity.
  - intros e. unfold inDay. rewrite andb_true_iff, !Z.leb_le. split.
    + intros He. apply startOfDay_same. lia.
    + intros He. pose proof (startOfDay_window tz (createdAt e)) as Hw.
      unfold endOfDay in *. rewrite He in Hw. lia.
Qed.

(** The theorem for midnight and the following noon, in UTC. *)
Lemma rollup_same_day_witness :
  updateDailyStats 0 (Examples.dayD + 43200000) Examples.scenarioLog []
  = updateDailyStats 0 Examples.dayD Examples.scenarioLog [].
Proof.
  apply (rollup_same_day 0 Examples.dayD (Examples.dayD + 43200000)).
  vm_compute. split; discriminate.
Defined.

(** *** Bounds *)

Lemma size_list_to_set_le (l : list string) :
  (size (list_to_set l : gset string) <= length l)%nat.
Proof.
  induction l as [|x l IH].
  - rewrite list_to_set_nil, size_empty. simpl. lia.
  - rewrite list_to_set_cons, size_union_alt, size_singleton. cbn [length].
    assert (size (list_to_set l ∖ {[x]} : gset string)
            <= size (list_to_set l : gset string))%nat.
    { apply subseteq_size. intros y Hy. apply elem_of_difference in Hy. tauto. }
    lia.
Qed.

Lemma length_omap_le {A B : Type} (f : A -> option B) (l : list A) :
  (length (omap f l) <= length l)%nat.
Proof.
  induction l as [|x l IH]; [simpl; lia|].
  cbn [omap list_omap length]. fold (omap f l).
  destruct (f x); cbn [length]; lia.
Qed.

Lemma length_remove_dups_le {A : Type} `{EqDecision A} (l : list A) :
  (length (remove_dups l) <= length l)%nat.
Proof.
  induction l as [|x l IH]; cbn [remove_dups length]; [lia|].
  destruct (decide_rel elem_of x l); cbn [length]; lia.
Qed.

Lemma length_filter_le {A : Type} (P : A -> Prop) `{!forall x, Decision (P x)}
    (l : list A) :
  (length (filter P l) <= length l)%nat.
Proof.
  induction l as [|x l IH]; [simpl; lia|].
  rewrite filter_cons. destruct (decide (P x)); simpl; lia.
Qed.

Lemma length_filter_mono {A : Type} (P Q : A -> Prop)
    `{!forall x, Decision (P x)} `{!forall x, Decision (Q x)} (l : list A) :
  (forall x, P x -> Q x) ->
  (length (filter P l) <= length (filter Q l))%nat.
Proof.
  intros Hpq. induction l as [|x l IH]; [simpl; lia|].
  rewrite !filter_cons.
  destruct (decide (P x)) as [HP|HP], (decide (Q x)) as [HQ|HQ]; simpl;
    try lia.
  destruct (HQ (Hpq x HP)).
Qed.

(** Every event has one of the five types. *)
Lemma events_by_type (evs : list event) :
  (eventsWhere (isType page_view) evs + eventsWhere (isType contact_form) evs
   + eventsWhere (isType gallery_view) evs
   + eventsWhere (isType review_submission) evs
   + eventsWhere (isType admin_login) evs)%N
  = N.of_nat (length evs).
Proof.
  unfold eventsWhere. induction evs as [|e evs IH]; [reflexivity|].
  rewrite !filter_cons. unfold isType, idType, idOf in *. cbn [fst snd] in *.
  destruct (type e); cbn [bool_decide decide_rel]; simpl length; lia.
Qed.

Lemma computeStats_unique_le_total tz d log :
  (visitors_unique (computeStats tz d log)
   <= visitors_total (computeStats tz d log))%N.
Proof.
  destruct (computeStats_spec tz d log) as (_ & Ht & Hu & _).
  cbv zeta in *. rewrite Hu, Ht.
  set (evs := eventsOfDay tz d log).
  assert (Hset : (list_to_set (omap (fun e => countedIp (idOf e)) evs)
                  : gset string)
                 = list_to_set (omap countedIp (remove_dups (map idOf evs)))).
  { apply set_eq. intros ip.
    rewrite !elem_of_list_to_set, !list_elem_of_omap. split.
    - intros (e & He & Hip). exists (idOf e). split; [|exact Hip].
      apply elem_of_remove_dups, list_elem_of_fmap. eauto.
    - intros (k & Hk & Hip).
      apply elem_of_remove_dups, list_elem_of_fmap in Hk as (e & -> & He).
      eauto. }
  rewrite Hset.
  pose proof (size_list_to_set_le
                (omap countedIp (remove_dups (map idOf evs)))) as H1.
  pose proof (length_omap_le countedIp (remove_dups (map idOf evs))) as H2.
  lia.
Qed.

Lemma computeStats_total_le_events tz d log :
  (visitors_total (computeStats tz d log)
   <= N.of_nat (length (eventsOfDay tz d log)))%N.
Proof.
  destruct (computeStats_spec tz d log) as (_ & Ht & _).
  cbv zeta in *. rewrite Ht.
  pose proof (length_remove_dups_le (map idOf (eventsOfDay tz d log))) as H.
  rewrite length_map in H. lia.
Qed.

(** X18. Bounds on the statistics of a day: the distinct addresses are at
    most the grouped rows, which are at most the events of the day; the four
    counters and the admin logins, which have no counter, add up to the
    events of the day; every numeric bucket of the per-page breakdown is
    positive and at most the total of page views (a page named after a
    property of [Object.prototype] has no numeric bucket: what the code
    stores under such a name is a string). *)
Theorem rollup_bounds (tz d : Z) (log : list event) :
  let evs := eventsOfDay tz d log in
  let su := computeStats tz d log in
  (visitors_unique su <= visitors_total su)%N /\
  (visitors_total su <= N.of_nat (length evs))%N /\
  (pageViews_total su + contactForms su + galleryViews su + reviews su
   + eventsWhere (isType admin_login) evs)%N = N.of_nat (length evs) /\
  forall name v, pageViews_byPage su !! name = Some v ->
                 (0 < v <= pageViews_total su)%N.
Proof.
  intros evs su.
  destruct (computeStats_spec tz d log)
    as (_ & Ht & Hu & Hpv & Hcf & Hgv & Hrv & Hbp).
  fold evs su in Ht, Hu, Hpv, Hcf, Hgv, Hrv, Hbp.
  split; [|split; [|split]].
  - apply computeStats_unique_le_total.
  - apply computeStats_total_le_events.
  - rewrite Hpv, Hcf, Hgv, Hrv. apply events_by_type.
  - intros name v Hv. rewrite Hbp in Hv.
    destruct (Js.inObjectPrototype name); [discriminate|].
    destruct (eventsWhere (onPage name) evs =? 0)%N eqn:H0; [discriminate|].
    injection Hv as <-. apply N.eqb_neq in H0. split; [lia|].
    rewrite Hpv. unfold eventsWhere.
    pose proof (length_filter_mono
                  (fun e => onPage name (idOf e) = true)
                  (fun e => isType page_view (idOf e) = true) evs) as Hm.
    assert (Himp : forall e, onPage name (idOf e) = true ->
                             isType page_view (idOf e) = true).
    { intros e He. apply onPage_iff in He as [He _].
      unfold isType. apply bool_decide_eq_true. exact He. }
    specialize (Hm Himp). lia.
Qed.

(** The bounds, read at one bucket of the scenario. *)
Lemma rollup_bounds_witness :
  pageViews_byPage (computeStats 0 Examples.dayD Examples.scenarioLog) !! "home"
  = Some 3%N /\
  (0 < 3 <= pageViews_total (computeStats 0 Examples.dayD Examples.scenarioLog))%N.
Proof.
  assert (H : pageViews_byPage
                (computeStats 0 Examples.dayD Examples.scenarioLog) !! "home"
              = Some 3%N) by (vm_compute; reflexivity).
  split; [exact H|].
  exact (proj2 (proj2 (proj2
           (rollup_bounds 0 Examples.dayD Examples.scenarioLog))) "home" 3%N H).
Defined.

(** *** The upsert and the other records *)

Lemma findOneAndUpdate_frame su coll :
  (forall r, r ∈ coll -> date (rolled r) <> date su ->
             r ∈ (findOneAndUpdate su coll).1) /\
  (forall r, r ∈ (findOneAndUpdate su coll).1 ->
             r = (findOneAndUpdate su coll).2 \/
             (r ∈ coll /\ (NoDup (storedDates coll) -> date (rolled r) <> date su))) /\
  length (findOneAndUpdate su coll).1
  = (if bool_decide (date su ∈ storedDates coll)
     then length coll else S (length coll)) /\
  (devices (findOneAndUpdate su coll).2, browsers (findOneAndUpdate su coll).2,
   topReferrers (findOneAndUpdate su coll).2)
  = match List.find (fun r => date (rolled r) =? date su) coll with
    | Some r0 => (devices r0, browsers r0, topReferrers r0)
    | None => ((0, 0, 0)%N, (0, 0, 0, 0, 0)%N, [])
    end.
Proof.
  induction coll as [|r0 rest IH].
  - simpl. split; [|split; [|split]].
    + intros r Hr. destruct (not_elem_of_nil _ Hr).
    + intros r Hr. apply list_elem_of_singleton in Hr. left. exact Hr.
    + reflexivity.
    + reflexivity.
  - destruct IH as (IH1 & IH2 & IH3 & IH4). cbn [findOneAndUpdate List.find].
    destruct (date (rolled r0) =? date su) eqn:Hd.
    + apply Z.eqb_eq in Hd. cbn [fst snd]. split; [|split; [|split]].
      * intros r Hr Hne. apply elem_of_cons in Hr as [->|Hr]; [congruence|].
        apply list_elem_of_further, Hr.
      * intros r Hr. apply elem_of_cons in Hr as [->|Hr]; [left; reflexivity|].
        right. split; [apply list_elem_of_further, Hr|].
        intros Hnd Heq. unfold storedDates in Hnd. cbn [map] in Hnd.
        apply NoDup_cons in Hnd as [Hnot _]. apply Hnot.
        apply list_elem_of_fmap. exists r. split; [congruence|exact Hr].
      * unfold storedDates. cbn [map length].
        rewrite bool_decide_eq_true_2 by (rewrite Hd; apply list_elem_of_here).
        reflexivity.
      * reflexivity.
    + apply Z.eqb_neq in Hd.
      destruct (findOneAndUpdate su rest) as [rest' r'] eqn:Hrest.
      cbn [fst snd] in *. split; [|split; [|split]].
      * intros r Hr Hne. apply elem_of_cons in Hr as [->|Hr];
          [apply list_elem_of_here|].
        apply list_elem_of_further, IH1; assumption.
      * intros r Hr. apply elem_of_cons in Hr as [->|Hr].
        -- right. split; [apply list_elem_of_here|]. intros _. exact Hd.
        -- destruct (IH2 r Hr) as [->|[Hin Hne]]; [left; reflexivity|].
           right. split; [apply list_elem_of_further, Hin|].
           intros Hnd. apply Hne. unfold storedDates in Hnd. cbn [map] in Hnd.
           apply NoDup_cons in Hnd as [_ Hnd]. exact Hnd.
      * cbn [length]. rewrite IH3. unfold storedDates. cbn [map].
        destruct (bool_decide (date su ∈ map _ rest)) eqn:Hin.
        -- apply bool_decide_eq_true in Hin.
           rewrite bool_decide_eq_true_2 by (apply list_elem_of_further, Hin).
           reflexivity.
        -- apply bool_decide_eq_false in Hin.
           rewrite bool_decide_eq_false_2; [reflexivity|].
           rewrite elem_of_cons. intros [?|?]; [congruence|contradiction].
      * exact IH4.
Qed.

(** X19. A rollup touches one record only. The records of the other days
    stay in the collection as they are; the collection keeps its length when
    the day has a record and grows by one otherwise; and the record of the
    day keeps the device, browser and referrer breakdowns it had (the schema
    defaults on a new record), which the rollup never computes. *)
Theorem rollup_touches_one_record (tz d : Z) (log : list event)
    (coll : list siteStats) :
  let res := updateDailyStats tz d log coll in
  (forall r, r ∈ coll -> date (rolled r) <> startOfDay tz d -> r ∈ res.1) /\
  (forall r, r ∈ res.1 -> r = res.2 \/ r ∈ coll) /\
  length res.1
  = (if bool_decide (startOfDay tz d ∈ storedDates coll)
     then length coll else S (length coll)) /\
  (devices res.2, browsers res.2, topReferrers res.2)
  = match List.find (fun r => date (rolled r) =? startOfDay tz d) coll with
    | Some r0 => (devices r0, browsers r0, topReferrers r0)
    | None => ((0, 0, 0)%N, (0, 0, 0, 0, 0)%N, [])
    end.
Proof.
  intros res. subst res. unfold updateDailyStats.
  destruct (findOneAndUpdate_frame (computeStats tz d log) coll)
    as (H1 & H2 & H3 & H4).
  rewrite computeStats_date in H1, H3, H4.
  split; [exact H1|]. split; [|split; [exact H3|exact H4]].
  intros r Hr. destruct (H2 r Hr) as [->|[Hin _]]; [left; reflexivity|].
  right. exact Hin.
Qed.

(** The theorem for a collection that holds the record of the day before:
    after the rollup of the scenario's day it is still there. *)
Lemma rollup_touches_one_record_witness :
  let yesterday :=
    mkSiteStats (initialStats (Examples.dayD - msPerDay)) (4, 2, 1)%N
      (3, 2, 1, 1, 0)%N [] in
  yesterday ∈ (updateDailyStats 0 Examples.dayD Examples.scenarioLog
                 [yesterday]).1.
Proof.
  intros yesterday.
  apply (proj1 (rollup_touches_one_record 0 Examples.dayD Examples.scenarioLog
                  [yesterday])).
  - apply list_elem_of_here.
  - vm_compute. discriminate.
Defined.

End RollupProps.

(** ** Tracking and the rollup together *)

Section TrackingProps.
Import Db Analytics.

Lemma eventsWhere_snoc f (evs : list event) (e : event) :
  eventsWhere f (evs ++ [e])
  = (eventsWhere f evs + (if f (idOf e) then 1 else 0))%N.
Proof.
  unfold eventsWhere. rewrite filter_app, length_app, filter_cons, filter_nil.
  destruct (decide (f (idOf e) = true)) as [H|H].
  - rewrite H. cbn [length]. lia.
  - apply not_true_is_false in H. rewrite H. cbn [length]. lia.
Qed.

Lemma length_remove_dups_snoc {A : Type} `{EqDecision A} (l : list A) (x : A) :
  (length (remove_dups l) <= length (remove_dups (l ++ [x]))
   <= S (length (remove_dups l)))%nat.
Proof.
  rewrite (length_remove_dups_perm (l ++ [x]) (x :: l))
    by (rewrite Permutation_app_comm; reflexivity).
  cbn [remove_dups]. destruct (decide_rel elem_of x l); cbn [length]; lia.
Qed.

Lemma size_list_to_set_snoc (l : list string) (o : option string) :
  (size (list_to_set l : gset string)
   <= size (list_to_set (l ++ option_list o) : gset string)
   <= S (size (list_to_set l : gset string)))%nat.
Proof.
  rewrite list_to_set_app_L. split.
  - apply subseteq_size, union_subseteq_l.
  - rewrite size_union_alt.
    assert (size (list_to_set (option_list o) ∖ list_to_set l : gset string)
            <= size (list_to_set (option_list o) : gset string))%nat.
    { apply subseteq_size. intros y Hy. apply elem_of_difference in Hy. tauto. }
    pose proof (size_list_to_set_le (option_list o)).
    assert (length (option_list o) <= 1)%nat by (destruct o; simpl; lia).
    lia.
Qed.

(** X20. A page view that was tracked is counted by the rollup of its day:
    the rollup asked for the instant of the request, with the log as it is
    after the request, has one page view more than with the log as it was
    before, the other three counters are the same, and the rows and the
    distinct addresses grow by at most one. *)
Theorem tracked_view_is_counted (tz : Z) (w : world)
    (req : AnalyticsController.trackReq) :
  failing w AnalyticsCreate = false ->
  let w' := (AnalyticsController.trackPageView req w).1 in
  let before := computeStats tz (clock w) (analytics w) in
  let after := computeStats tz (clock w) (analytics w') in
  pageViews_total after = (pageViews_total before + 1)%N /\
  contactForms after = contactForms before /\
  galleryViews after = galleryViews before /\
  reviews after = reviews before /\
  (visitors_total before <= visitors_total after <= visitors_total before + 1)%N /\
  (visitors_unique before <= visitors_unique after <= visitors_unique before + 1)%N.
Proof.
  intros Hf w' before after.
  set (e := mkEvent page_view (AnalyticsController.page req)
              (AnalyticsController.userAgent req) (AnalyticsController.ip req)
              (AnalyticsController.referrer req)
              (AnalyticsController.sessionId req) (clock w)).
  assert (Hw' : analytics w' = (analytics w ++ [e])%list).
  { subst w'. run. rewrite Hf. reflexivity. }
  assert (Hin : inDay tz (clock w) e = true).
  { unfold inDay. cbn [createdAt e].
    pose proof (startOfDay_window tz (clock w)).
    apply andb_true_iff. rewrite !Z.leb_le. lia. }
  assert (Hevs : eventsOfDay tz (clock w) (analytics w')
                 = (eventsOfDay tz (clock w) (analytics w) ++ [e])%list).
  { rewrite Hw'. unfold eventsOfDay.
    rewrite filter_app, filter_cons_True by exact Hin. reflexivity. }
  destruct (computeStats_spec tz (clock w) (analytics w))
    as (_ & Ht & Hu & Hpv & Hcf & Hgv & Hrv & _).
  destruct (computeStats_spec tz (clock w) (analytics w'))
    as (_ & Ht' & Hu' & Hpv' & Hcf' & Hgv' & Hrv' & _).
  cbv zeta in *. fold before in Ht, Hu, Hpv, Hcf, Hgv, Hrv.
  fold after in Ht', Hu', Hpv', Hcf', Hgv', Hrv'.
  rewrite Hevs in *. clear Hevs.
  rewrite eventsWhere_snoc in Hpv', Hcf', Hgv', Hrv'.
  change (isType page_view (idOf e)) with true in Hpv'.
  change (isType contact_form (idOf e)) with false in Hcf'.
  change (isType gallery_view (idOf e)) with false in Hgv'.
  change (isType review_submission (idOf e)) with false in Hrv'.
  cbv iota in Hpv', Hcf', Hgv', Hrv'.
  rewrite N.add_0_r in Hcf', Hgv', Hrv'.
  split; [congruence|]. split; [congruence|]. split; [congruence|].
  split; [congruence|]. split.
  - rewrite Ht, Ht', map_app. cbn [map].
    pose proof (length_remove_dups_snoc
                  (map idOf (eventsOfDay tz (clock w) (analytics w))) (idOf e)).
    lia.
  - rewrite Hu, Hu', omap_app.
    pose proof (size_list_to_set_snoc
                  (omap (fun e0 => countedIp (idOf e0))
                     (eventsOfDay tz (clock w) (analytics w)))
                  (countedIp (idOf e))) as H.
    assert (Hone : omap (fun e0 => countedIp (idOf e0)) [e]
                   = option_list (countedIp (idOf e))).
    { cbn [omap list_omap]. destruct (countedIp (idOf e)); reflexivity. }
    rewrite Hone. lia.
Qed.

(** The theorem for a view of the home page on an empty log. *)
Lemma tracked_view_is_counted_witness :
  pageViews_total
    (computeStats 0 (clock Examples.w0)
       (analytics (AnalyticsController.trackPageView Examples.homeView
                     Examples.w0).1))
  = (pageViews_total
       (computeStats 0 (clock Examples.w0) (analytics Examples.w0)) + 1)%N.
Proof.
  exact (proj1 (tracked_view_is_counted 0 Examples.w0 Examples.homeView
                  eq_refl)).
Defined.

(** X21. The handlers of the lead records never write to the event log:
    submitting a form, fetching a lead, setting its status or its funnel
    flags and deleting it leave the log as it was, whatever the request and
    whichever calls fail. So no rollup counts a submitted form unless a
    [contact_form] event reaches the log by another way. *)
Theorem contact_handlers_never_log (w : world) :
  (forall req, analytics (ContactController.submitContactForm req w).1
               = analytics w) /\
  (forall id, analytics (ContactController.getContactSubmission id w).1
              = analytics w) /\
  (forall id st, analytics (ContactAdmin.updateContactStatus id st w).1
                 = analytics w) /\
  (forall id req, analytics (ContactController.updateContactLeadStatus id req w).1
                  = analytics w) /\
  (forall id, analytics (ContactAdmin.deleteContactSubmission id w).1
              = analytics w).
Proof.
  split; [|split; [|split; [|split]]].
  - intros [errs fields rc]. run. destruct errs; [|reflexivity].
    destruct rc as [rc|]; simpl.
    + destruct (negb (String.eqb rc "")); simpl.
      * destruct (failing w PartnerFindOne); simpl.
        -- destruct (failing w ContactCreate); reflexivity.
        -- destruct (findActiveByCode (partners w) rc); simpl.
           ++ destruct (failing w PartnerSave); simpl;
                destruct (failing w ContactCreate); reflexivity.
           ++ destruct (failing w ContactCreate); reflexivity.
      * destruct (failing w ContactCreate); reflexivity.
    + destruct (failing w ContactCreate); reflexivity.
  - intros id. run. destruct (failing w ContactFindById); [reflexivity|].
    destruct (contacts w !! id) as [c|]; [|reflexivity]. simpl.
    destruct (Contact.status c); simpl; try reflexivity.
    destruct (failing w ContactSave); reflexivity.
  - intros id st. run_more. destruct st as [s|]; simpl; [|reflexivity].
    destruct (ContactAdmin.statusOfString s); simpl; [|reflexivity].
    destruct (failing w ContactSave); [reflexivity|]. simpl.
    destruct (contacts w !! id); reflexivity.
  - intros id req. run. destruct (failing w ContactFindById); [reflexivity|].
    destruct (contacts w !! id) as [c|]; [|reflexivity].
    destruct req as [ts td b bd ba]; simpl.
    destruct ts as [[]|], td, b as [[]|], bd, ba as [a|];
      simpl; try destruct (Qeq_bool a 0); simpl;
      destruct (failing w ContactSave); reflexivity.
  - intros id. run_more. destruct (failing w ContactSave); [reflexivity|]. simpl.
    destruct (contacts w !! id); reflexivity.
Qed.

End TrackingProps.

(** ** More on the time series *)

Section TimeSeriesProps.
Import Analytics AnalyticsController SeriesCounts.

(** Summing the counts of distinct keys of any grouping counts the documents
    that carry one of them. *)
Lemma sum_counts_by {E K : Type} `{EqDecision K} (key : E -> K)
    (f : K -> bool) (docs : list E) (ks : list K) :
  NoDup ks ->
  foldr (fun k acc =>
           if f k
           then (N.of_nat (length (filter (fun e => key e = k) docs)) + acc)%N
           else acc) 0%N ks
  = N.of_nat (length (filter (fun e => f (key e) = true /\ key e ∈ ks) docs)).
Proof.
  induction 1 as [|k ks Hk Hnd IH]; simpl.
  - rewrite filter_none; [reflexivity|].
    intros e _ [_ He]. exact (not_elem_of_nil _ He).
  - rewrite IH.
    rewrite (filter_ext_in
               (fun e => f (key e) = true /\ key e ∈ k :: ks)
               (fun e => (f (key e) = true /\ key e = k) \/
                         (f (key e) = true /\ key e ∈ ks))).
    2:{ intros e _. rewrite elem_of_cons. tauto. }
    rewrite length_filter_or.
    2:{ intros e [_ He] [_ He']. subst k. contradiction. }
    destruct (f k) eqn:Hf.
    + rewrite (filter_ext_in (fun e => f (key e) = true /\ key e = k)
                             (fun e => key e = k)).
      2:{ intros e _. split; [tauto|]. intros ->. tauto. }
      lia.
    + rewrite (filter_none (fun e => f (key e) = true /\ key e = k)).
      2:{ intros e _ [He Hk']. subst k. congruence. }
      reflexivity.
Qed.

Lemma sum_groupCountBy {K : Type} `{EqDecision K} (key : event -> K)
    (f : K -> bool) (docs : list event) :
  foldr (fun r acc => if f r.1 then (r.2 + acc)%N else acc) 0%N
        (groupCountBy key docs)
  = N.of_nat (length (filter (fun e => f (key e) = true) docs)).
Proof.
  unfold groupCountBy.
  transitivity
    (foldr (fun k acc =>
              if f k
              then (N.of_nat (length (filter (fun e => key e = k) docs)) + acc)%N
              else acc) 0%N (remove_dups (map key docs))).
  { induction (remove_dups (map key docs)) as [|k ks IH]; simpl;
      [reflexivity|]. rewrite IH. reflexivity. }
  rewrite sum_counts_by by apply NoDup_remove_dups.
  f_equal. f_equal. apply filter_ext_in. intros e He. split; [tauto|].
  intros Hf. split; [exact Hf|].
  apply elem_of_remove_dups, list_elem_of_fmap. exists e. tauto.
Qed.

Lemma foldr_sum_filter {K : Type} (P : K * N -> Prop)
    `{!forall r, Decision (P r)} (rows : list (K * N)) :
  foldr (fun r acc => (r.2 + acc)%N) 0%N (filter P rows)
  = foldr (fun r acc => if bool_decide (P r) then (r.2 + acc)%N else acc) 0%N rows.
Proof.
  induction rows as [|r rows IH]; [reflexivity|].
  rewrite filter_cons. cbn [foldr]. rewrite <- IH.
  destruct (decide (P r)) as [HP|HP].
  - rewrite bool_decide_eq_true_2 by exact HP. reflexivity.
  - rewrite bool_decide_eq_false_2 by exact HP. reflexivity.
Qed.

Lemma filter_map_key {K : Type} (cnt : K -> N) (P : K -> Prop)
    `{!forall k, Decision (P k)} (ks : list K) :
  filter (fun r : K * N => P r.1) (map (fun k => (k, cnt k)) ks)
  = map (fun k => (k, cnt k)) (filter P ks).
Proof.
  induction ks as [|k ks IH]; [reflexivity|].
  cbn [map]. rewrite !filter_cons. cbn [fst]. rewrite IH.
  destruct (decide (P k)); reflexivity.
Qed.

Lemma typeName_inj t t' : typeName t = typeName t' -> t = t'.
Proof. destruct t, t'; simpl; intros H; try reflexivity; discriminate. Qed.

(** The object built by [reduce] from the rows of one day. *)
Lemma fold_insert_lookup (cnt : Z * eventType -> N) (d : Z)
    (ks : list (Z * eventType)) (ty : eventType) :
  forall m : gmap string N,
    (forall k, k ∈ ks -> k.1 = d) ->
    fold_left (fun acc item => <[ item.1 := item.2 ]> acc)
      (map (fun k => (typeName k.2, cnt k)) ks) m !! typeName ty
    = if bool_decide ((d, ty) ∈ ks) then Some (cnt (d, ty))
      else m !! typeName ty.
Proof.
  induction ks as [|k ks IH]; intros m Hd.
  - cbn [map fold_left].
    rewrite bool_decide_eq_false_2 by apply not_elem_of_nil. reflexivity.
  - cbn [map fold_left fst snd].
    rewrite IH by (intros k' Hk'; apply Hd, list_elem_of_further, Hk').
    assert (Hk : k.1 = d) by apply Hd, list_elem_of_here.
    destruct (bool_decide ((d, ty) ∈ ks)) eqn:Hin.
    + apply bool_decide_eq_true in Hin.
      rewrite bool_decide_eq_true_2 by (apply list_elem_of_further, Hin).
      reflexivity.
    + apply bool_decide_eq_false in Hin.
      destruct (decide (k.2 = ty)) as [Hty|Hty].
      * assert (k = (d, ty)) as -> by (destruct k; simpl in *; congruence).
        rewrite bool_decide_eq_true_2 by apply list_elem_of_here.
        apply lookup_insert_eq.
      * rewrite bool_decide_eq_false_2.
        2:{ rewrite elem_of_cons. intros [Heq|?]; [|contradiction].
            apply Hty. rewrite <- Heq. reflexivity. }
        apply lookup_insert_ne. intros Heq. apply Hty, typeName_inj, Heq.
Qed.

Lemma find_map_id (F : Z -> dayRow) (d : Z) (days : list Z) :
  (forall d', _id (F d') = d') ->
  List.find (fun item => _id item =? d) (map F days)
  = if bool_decide (d ∈ days) then Some (F d) else None.
Proof.
  intros HF. induction days as [|d' days IH]; cbn [map List.find].
  - rewrite bool_decide_eq_false_2 by apply not_elem_of_nil. reflexivity.
  - rewrite HF. destruct (d' =? d) eqn:Hd.
    + apply Z.eqb_eq in Hd. subst d'.
      rewrite bool_decide_eq_true_2 by apply list_elem_of_here. reflexivity.
    + apply Z.eqb_neq in Hd. rewrite IH.
      destruct (bool_decide (d ∈ days)) eqn:Hin.
      * apply bool_decide_eq_true in Hin.
        rewrite bool_decide_eq_true_2 by (apply list_elem_of_further, Hin).
        reflexivity.
      * apply bool_decide_eq_false in Hin.
        rewrite bool_decide_eq_false_2; [reflexivity|].
        rewrite elem_of_cons. intros [?|?]; [congruence|contradiction].
Qed.

Lemma length_zero_iff_none {A : Type} (P : A -> Prop)
    `{!forall x, Decision (P x)} (l : list A) :
  length (filter P l) = 0%nat <-> forall x, x ∈ l -> ~ P x.
Proof.
  split.
  - intros Hlen x Hx HP.
    assert (Hin : x ∈ filter P l) by (apply list_elem_of_filter; tauto).
    destruct (filter P l); [exact (not_elem_of_nil _ Hin)|discriminate].
  - intros Hno. rewrite filter_none by exact Hno. reflexivity.
Qed.

(** What the loop pushes for an instant, in terms of the events. *)
Lemma entryAt_spec (startDate : Z) (type : option eventType)
    (log : list event) (t : Z) :
  let e := entryAt (aggregateTimeSeries startDate type log) t in
  date e = dateStr t /\
  total e = eventsOn startDate type log (dateStr t) /\
  forall ty,
    counts e !! typeName ty
    = if (eventsOn startDate type log (dateStr t) =? 0)%N then Some 0%N
      else if (eventsOnOfType startDate type log (dateStr t) ty =? 0)%N then None
      else Some (eventsOnOfType startDate type log (dateStr t) ty).
Proof.
  intros e. split; [apply entryAt_date|].
  subst e. unfold entryAt, aggregateTimeSeries.
  set (d := dateStr t).
  set (matched := filter (fun e => matchCondition startDate type e = true) log).
  set (key := fun e : event => (dateStr (createdAt e), Analytics.type e)).
  set (rows := groupCountBy key matched).
  set (days := merge_sort Z.le (remove_dups (map (fun r => r.1.1) rows))).
  rewrite (find_map_id _ d days) by reflexivity.
  assert (Hdays : d ∈ days <-> exists ev, ev ∈ matched /\ dateStr (createdAt ev) = d).
  { subst days. rewrite merge_sort_Permutation, elem_of_remove_dups.
    rewrite list_elem_of_fmap. subst rows. unfold groupCountBy. split.
    - intros (r & -> & Hr). apply list_elem_of_fmap in Hr as (k & -> & Hk).
      apply elem_of_remove_dups, list_elem_of_fmap in Hk as (ev & -> & Hev).
      exists ev. split; [exact Hev|reflexivity].
    - intros (ev & Hev & Hd). eexists (key ev, _). split; [symmetry; exact Hd|].
      apply list_elem_of_fmap. exists (key ev). split; [reflexivity|].
      apply elem_of_remove_dups, list_elem_of_fmap. eauto. }
  assert (Htot : eventsOn startDate type log d
                 = N.of_nat (length (filter (fun ev => dateStr (createdAt ev) = d)
                                       matched))).
  { unfold eventsOn. subst matched. rewrite list_filter_filter.
    f_equal. f_equal. apply filter_ext_in. intros ev _. tauto. }
  assert (Hty : forall ty, eventsOnOfType startDate type log d ty
                 = N.of_nat (length (filter (fun ev => key ev = (d, ty)) matched))).
  { intros ty. unfold eventsOnOfType. subst matched. rewrite list_filter_filter.
    f_equal. f_equal. apply filter_ext_in. intros ev _. subst key. cbn beta.
    split.
    - intros (Hm & Hd & Ht). split; [congruence|exact Hm].
    - intros [[= Hd Ht] Hm]. tauto. }
  destruct (bool_decide (d ∈ days)) eqn:Hin.
  - apply bool_decide_eq_true in Hin.
    assert (Hpos : (eventsOn startDate type log d =? 0)%N = false).
    { apply N.eqb_neq. rewrite Htot. intros H0.
      assert (H0' : length (filter (fun ev => dateStr (createdAt ev) = d) matched)
                    = 0%nat) by lia.
      rewrite length_zero_iff_none in H0'.
      apply Hdays in Hin as (ev & Hev & Hd). exact (H0' ev Hev Hd). }
    rewrite Hpos. unfold entryOf. cbn [total counts totalCount data _id].
    split.
    + rewrite foldr_sum_filter.
      pose proof (sum_groupCountBy key (fun k => bool_decide (k.1 = d)) matched)
        as Hsum.
      cbn beta in Hsum. fold rows in Hsum. rewrite Hsum, Htot. f_equal. f_equal. apply filter_ext_in. intros ev _.
      rewrite bool_decide_eq_true. reflexivity.
    + intros ty.
      set (cnt := fun k => N.of_nat (length (filter (fun e => key e = k) matched))).
      assert (Hrows :
        filter (fun r : Z * eventType * N => r.1.1 = d) rows
        = map (fun k => (k, cnt k))
            (filter (fun k : Z * eventType => k.1 = d)
               (remove_dups (map key matched))))
        by exact (filter_map_key cnt (fun k => k.1 = d)
                    (remove_dups (map key matched))).
      rewrite Hrows, map_map. cbn [fst snd].
      rewrite (fold_insert_lookup cnt d _ ty ∅).
      2:{ intros k Hk. apply list_elem_of_filter in Hk as [Hk _]. exact Hk. }
      rewrite lookup_empty, Hty. fold (cnt (d, ty)).
      destruct (bool_decide _) eqn:Hmem.
      * apply bool_decide_eq_true, list_elem_of_filter in Hmem as [_ Hmem].
        apply elem_of_remove_dups, list_elem_of_fmap in Hmem as (ev & Hk & Hev).
        assert (Hne : (cnt (d, ty) =? 0)%N = false).
        { apply N.eqb_neq. unfold cnt. intros H0.
          assert (H0' : length (filter (fun e => key e = (d, ty)) matched) = 0%nat)
            by lia.
          rewrite length_zero_iff_none in H0'. exact (H0' ev Hev (eq_sym Hk)). }
        rewrite Hne. reflexivity.
      * apply bool_decide_eq_false in Hmem.
        assert (Hz : (cnt (d, ty) =? 0)%N = true).
        { apply N.eqb_eq. unfold cnt.
          assert (H0 : length (filter (fun e => key e = (d, ty)) matched) = 0%nat).
          { apply length_zero_iff_none. intros ev Hev Hk. apply Hmem.
            apply list_elem_of_filter. split; [reflexivity|].
            apply elem_of_remove_dups, list_elem_of_fmap. eauto. }
          lia. }
        rewrite Hz. reflexivity.
  - apply bool_decide_eq_false in Hin.
    assert (Hz : eventsOn startDate type log d = 0%N).
    { rewrite Htot.
      assert (H0 : length (filter (fun ev => dateStr (createdAt ev) = d) matched)
                   = 0%nat).
      { apply length_zero_iff_none. intros ev Hev Hd. apply Hin, Hdays. eauto. }
      lia. }
    rewrite Hz. cbn [N.eqb]. split; [reflexivity|].
    intros ty. destruct ty; reflexivity.
Qed.

(** X22. What the entries of the series count. For a window of
    [days >= 0] days the handler returns a series in which every entry's
    total is the number of events that pass the match condition and fall on
    the entry's UTC day. On a day with such events the entry carries a count
    only for the types that occur, the others are absent; on a day without,
    all five types are present with 0. *)
Theorem series_entries_count_events (now later daysNum : Z)
    (type : option eventType) (log : list event) :
  0 <= daysNum ->
  now <= later ->
  later < now + msPerDay ->
  let startDate := now - daysNum * msPerDay in
  exists filled : list entry,
    (forall fuel, (Z.to_nat daysNum + 1 < fuel)%nat ->
       getTimeSeriesData fuel now later daysNum type log = Some filled) /\
    forall e, e ∈ filled ->
      total e = eventsOn startDate type log (date e) /\
      forall ty,
        counts e !! typeName ty
        = if (total e =? 0)%N then Some 0%N
          else if (eventsOnOfType startDate type log (date e) ty =? 0)%N
               then None
               else Some (eventsOnOfType startDate type log (date e) ty).
Proof.
  intros Hdays Hnow Hlater startDate.
  set (data := aggregateTimeSeries startDate type log).
  exists (map (fun i : nat => entryAt data (startDate + Z.of_nat i * msPerDay))
              (seq 0 (Z.to_nat daysNum + 1))).
  split.
  - intros fuel Hfuel. unfold getTimeSeriesData. fold startDate. fold data.
    rewrite (fillLoop_run data later (Z.to_nat daysNum + 1)); [reflexivity|..].
    + exact Hfuel.
    + subst startDate. unfold msPerDay in *. lia.
    + intros _. subst startDate. unfold msPerDay in *. lia.
  - intros e He. apply list_elem_of_fmap in He as (i & -> & _).
    destruct (entryAt_spec startDate type log
                (startDate + Z.of_nat i * msPerDay)) as (Hd & Ht & Hc).
    fold data in Hd, Ht, Hc. rewrite Hd, Ht. split; [reflexivity|exact Hc].
Qed.

(** The theorem for a window of seven days asked at midday: the entry of
    the scenario's day counts its four events. *)
Lemma series_entries_count_events_witness :
  exists filled : list entry,
    getTimeSeriesData 20 Examples.noon Examples.noonLater 7 None
      Examples.scenarioLog = Some filled /\
    forall e, e ∈ filled ->
      total e = eventsOn (Examples.noon - 7 * msPerDay) None
                  Examples.scenarioLog (date e).
Proof.
  assert (H0 : 0 <= 7) by discriminate.
  assert (H1 : Examples.noon <= Examples.noonLater) by discriminate.
  assert (H2 : Examples.noonLater < Examples.noon + msPerDay) by reflexivity.
  destruct (series_entries_count_events Examples.noon Examples.noonLater 7 None
              Examples.scenarioLog H0 H1 H2) as (filled & Hrun & Hent).
  exists filled. split.
  - apply Hrun. vm_compute. lia.
  - intros e He. exact (proj1 (Hent e He)).
Defined.

(** X23. A negative number of days puts the start date after the end date:
    the loop body never runs and the series is empty, where a window of 0
    days has one entry. *)
Theorem negative_window_is_empty (now later daysNum : Z)
    (type : option eventType) (log : list event) (fuel : nat) :
  daysNum < 0 ->
  later < now + msPerDay ->
  (0 < fuel)%nat ->
  getTimeSeriesData fuel now later daysNum type log = Some [].
Proof.
  intros Hneg Hlater Hfuel. unfold getTimeSeriesData.
  destruct fuel as [|fuel]; [lia|]. cbn [fillLoop].
  rewrite (proj2 (Z.leb_gt _ _)); [reflexivity|].
  unfold msPerDay in *. lia.
Qed.

(** The theorem for a window of minus one day. *)
Lemma negative_window_is_empty_witness :
  getTimeSeriesData 20 Examples.noon Examples.noonLater (-1) None
    Examples.scenarioLog = Some [].
Proof.
  apply negative_window_is_empty.
  - reflexivity.
  - reflexivity.
  - apply Nat.lt_0_succ.
Defined.

End TimeSeriesProps.

(** ** The pages of the list of leads *)

Section PaginationProps.
Import ContactList.
Context {A : Type}.

Lemma take_plus (a b : nat) (l : list A) :
  take (a + b) l = (take a l ++ take b (drop a l))%list.
Proof.
  revert l. induction a as [|a IH]; intros l; [reflexivity|].
  destruct l as [|x l]; cbn [Nat.add take drop app].
  - rewrite take_nil. reflexivity.
  - rewrite IH. reflexivity.
Qed.

(** The first [k] pages of [n] items each are the first [k * n] items. *)
Lemma pages_prefix (n k : nat) (l : list A) :
  concat (map (fun i : nat => take n (drop (i * n) l)) (seq 0 k)) = take (k * n) l.
Proof.
  induction k as [|k IH]; [reflexivity|].
  rewrite seq_S, map_app, concat_app, IH. cbn [map concat Nat.add].
  rewrite app_nil_r. replace (S k * n)%nat with (k * n + n)%nat by lia.
  symmetry. apply take_plus.
Qed.

Lemma ceilDiv_spec (total limit : Z) :
  0 <= total -> 1 <= limit ->
  (0 < total /\
   (ceilDiv total limit - 1) * limit < total <= ceilDiv total limit * limit) \/
  (total = 0 /\ ceilDiv total limit = 0).
Proof.
  intros Ht Hl. unfold ceilDiv.
  pose proof (Z.div_mod (- total) limit ltac:(lia)) as Hdm.
  pose proof (Z.mod_pos_bound (- total) limit ltac:(lia)) as Hm.
  set (q := (- total) / limit) in *. set (r := (- total) mod limit) in *.
  destruct (Z.eq_dec total 0) as [->|Hne].
  - right. split; [reflexivity|]. nia.
  - left. split; [lia|]. nia.
Qed.

(** X25. The pages of a list tile it. With a limit of at least 1 and
    [pages = ceil(total / limit)] as the handler reports it, the pages 1 to
    [pages], one after the other, are the whole result in order; each of
    them holds at least one and at most [limit] items; and every page after
    the last is empty. *)
Theorem pages_tile_results (found : list A) (limitQuery : option Z) :
  1 <= parseOr limitQuery 10 ->
  let pageNo (p : Z) := getContactSubmissions found (Some p) limitQuery in
  let pages := pages (pageNo 1).2 in
  concat (map (fun i : nat => (pageNo (Z.of_nat i + 1)).1)
              (seq 0 (Z.to_nat pages))) = found /\
  (forall p, 1 <= p <= pages ->
     (1 <= length (pageNo p).1)%nat /\
     Z.of_nat (length (pageNo p).1) <= limit (pageNo p).2) /\
  (forall p, pages < p -> (pageNo p).1 = []) /\
  (forall p, p <> 0 -> total (pageNo p).2 = Z.of_nat (length found) /\
                       ContactList.pages (pageNo p).2 = pages).
Proof.
  intros Hlimit pageNo pages0.
  set (n := parseOr limitQuery 10) in *.
  assert (Hpages : pages0 = ceilDiv (Z.of_nat (length found)) n) by reflexivity.
  assert (Hpage : forall p, p <> 0 ->
            (pageNo p).1
            = take (Z.to_nat n) (drop (Z.to_nat ((p - 1) * n)) found)).
  { intros p Hp. unfold pageNo, getContactSubmissions, skipLimit, parseOr.
    cbn [fst]. destruct (p =? 0) eqn:Hz; [apply Z.eqb_eq in Hz; lia|].
    reflexivity. }
  destruct (ceilDiv_spec (Z.of_nat (length found)) n ltac:(lia) Hlimit)
    as [[Hc0 Hc]|[Hc0 Hc1]]; rewrite <- Hpages in *.
  - assert (Hpos : 1 <= pages0) by nia.
    split; [|split; [|split]].
    + rewrite (map_ext _ (fun i : nat =>
                 take (Z.to_nat n) (drop (i * Z.to_nat n) found))).
      2:{ intros i. rewrite Hpage by lia. f_equal. f_equal. nia. }
      rewrite pages_prefix. apply take_ge. nia.
    + intros p Hp. rewrite Hpage by lia.
      rewrite length_take, length_drop.
      split; [nia|]. unfold pageNo, getContactSubmissions. cbn [snd limit].
      fold n. lia.
    + intros p Hp. rewrite Hpage by lia.
      rewrite drop_ge by nia. apply take_nil.
    + intros p Hp. unfold pageNo, getContactSubmissions. cbn [snd total].
      split; reflexivity.
  - assert (Hnil : found = []) by (destruct found; [reflexivity|simpl in Hc0; lia]).
    subst found. rewrite Hc1. split; [reflexivity|]. split; [|split].
    + intros p Hp. lia.
    + intros p Hp. destruct (Z.eq_dec p 0) as [->|Hne].
      * unfold pageNo, getContactSubmissions, skipLimit. cbn [fst].
        rewrite drop_nil. apply take_nil.
      * rewrite Hpage by exact Hne. rewrite drop_nil. apply take_nil.
    + intros p Hp. unfold pageNo, getContactSubmissions. cbn [snd total].
      split; [reflexivity|]. symmetry. exact Hc1.
Qed.

End PaginationProps.

(** The theorem for seven leads in pages of three: three pages. *)
Lemma pages_tile_results_witness :
  concat (map (fun i : nat =>
                 (ContactList.getContactSubmissions [1; 2; 3; 4; 5; 6; 7]%nat
                    (Some (Z.of_nat i + 1)) (Some 3)).1)
              (seq 0 3))
  = [1; 2; 3; 4; 5; 6; 7]%nat.
Proof.
  exact (proj1 (pages_tile_results [1; 2; 3; 4; 5; 6; 7]%nat (Some 3)
                  ltac:(vm_compute; discriminate))).
Defined.

(** ** Settings: writing and reading back *)

Section SettingsProps.
Import Settings.
Context {V : Type}.
Implicit Types (coll : list (doc V)) (d : doc V).

Lemma sameKey_iff c k d :
  sameKey c k d = true <-> (category d, key d) = (c, k).
Proof.
  unfold sameKey. rewrite andb_true_iff, !String.eqb_eq. split.
  - intros [-> ->]. reflexivity.
  - intros [= -> ->]. auto.
Qed.

Lemma find_sameKey_None c k coll :
  (c, k) ∉ indexKeys coll -> List.find (sameKey c k) coll = None.
Proof.
  intros Hnot. destruct (List.find (sameKey c k) coll) as [d|] eqn:Hfind;
    [|reflexivity].
  apply find_some in Hfind as [Hin Hd]. apply sameKey_iff in Hd.
  destruct Hnot. apply list_elem_of_fmap. exists d.
  split; [symmetry; exact Hd|apply list_elem_of_In, Hin].
Qed.

(** The upsert, seen through the unique index. *)
Lemma findOneAndUpdate_find (new : doc V) coll :
  List.find (sameKey (category new) (key new)) (findOneAndUpdate new coll).1
  = Some new /\
  (forall c k, (c, k) <> (category new, key new) ->
     List.find (sameKey c k) (findOneAndUpdate new coll).1
     = List.find (sameKey c k) coll) /\
  indexKeys (findOneAndUpdate new coll).1
  = (if bool_decide ((category new, key new) ∈ indexKeys coll)
     then indexKeys coll
     else indexKeys coll ++ [(category new, key new)])%list.
Proof.
  assert (Hnew : sameKey (category new) (key new) new = true)
    by (apply sameKey_iff; reflexivity).
  induction coll as [|d rest IH]; cbn [findOneAndUpdate].
  - cbn [fst List.find indexKeys map]. rewrite Hnew.
    split; [reflexivity|]. split; [|reflexivity].
    intros c k Hne.
    destruct (sameKey c k new) eqn:Hs; [|reflexivity].
    apply sameKey_iff in Hs. congruence.
  - destruct IH as (IH1 & IH2 & IH3).
    destruct (sameKey (category new) (key new) d) eqn:Hd.
    + cbn [fst List.find]. rewrite Hnew. split; [reflexivity|]. split.
      * intros c k Hne. apply sameKey_iff in Hd.
        destruct (sameKey c k new) eqn:Hs;
          [apply sameKey_iff in Hs; congruence|].
        destruct (sameKey c k d) eqn:Hs';
          [apply sameKey_iff in Hs'; congruence|].
        reflexivity.
      * apply sameKey_iff in Hd. unfold indexKeys. cbn [map].
        rewrite bool_decide_eq_true_2
          by (rewrite Hd; apply list_elem_of_here).
        rewrite Hd. reflexivity.
    + destruct (findOneAndUpdate new rest) as [rest' r] eqn:Hrest.
      cbn [fst snd List.find] in *. rewrite Hd. split; [exact IH1|]. split.
      * intros c k Hne. rewrite (IH2 c k Hne). reflexivity.
      * unfold indexKeys in *. cbn [map]. rewrite IH3.
        assert (Hne : (category d, key d) <> (category new, key new)).
        { intros Heq. apply sameKey_iff in Heq. congruence. }
        destruct (bool_decide ((category new, key new) ∈ map _ rest)) eqn:Hin.
        -- apply bool_decide_eq_true in Hin.
           rewrite bool_decide_eq_true_2 by (apply list_elem_of_further, Hin).
           reflexivity.
        -- apply bool_decide_eq_false in Hin.
           rewrite bool_decide_eq_false_2; [reflexivity|].
           rewrite elem_of_cons. intros [?|?]; [congruence|contradiction].
Qed.

(** With the unique index, a category read back holds under each key the
    value of the one document with that category and key. *)
Lemma getByCategory_lookup c k coll :
  NoDup (indexKeys coll) ->
  getByCategory c coll !! k = value <$> List.find (sameKey c k) coll.
Proof.
  unfold getByCategory.
  assert (H : forall m : gmap string V,
             NoDup (indexKeys coll) ->
             fold_left (fun result setting => <[ key setting := value setting ]> result)
               (filter (fun d => category d = c) coll) m !! k
             = match List.find (sameKey c k) coll with
               | Some d => Some (value d)
               | None => m !! k
               end).
  { induction coll as [|d rest IH]; intros m Hnd; [reflexivity|].
    unfold indexKeys in Hnd. cbn [map] in Hnd.
    apply NoDup_cons in Hnd as [Hnot Hnd].
    rewrite filter_cons. cbn [List.find].
    destruct (decide (category d = c)) as [Hc|Hc].
    - cbn [fold_left]. rewrite IH by exact Hnd.
      destruct (sameKey c k d) eqn:Hs.
      + apply sameKey_iff in Hs.
        rewrite find_sameKey_None by (rewrite <- Hs; exact Hnot).
        injection Hs as _ Hk. rewrite Hk. apply lookup_insert_eq.
      + destruct (List.find (sameKey c k) rest); [reflexivity|].
        apply lookup_insert_ne. intros Hk.
        assert (sameKey c k d = true) by (apply sameKey_iff; congruence).
        congruence.
    - rewrite IH by exact Hnd.
      destruct (sameKey c k d) eqn:Hs; [|reflexivity].
      apply sameKey_iff in Hs. congruence. }
  intros Hnd. rewrite (H ∅ Hnd), lookup_empty.
  destruct (List.find (sameKey c k) coll); reflexivity.
Qed.

(** The same for the public settings: a key is there exactly when its
    document is public. *)
Lemma getPublicSettings_lookup c k coll :
  NoDup (indexKeys coll) ->
  getPublicSettings coll !! c ≫= (fun inner => inner !! k)
  = List.find (sameKey c k) coll
      ≫= (fun d => if isPublic d then Some (value d) else None).
Proof.
  unfold getPublicSettings.
  assert (H : forall m : gmap string (gmap string V),
             NoDup (indexKeys coll) ->
             fold_left
               (fun result setting =>
                  let inner := default ∅ (result !! category setting) in
                  <[ category setting := <[ key setting := value setting ]> inner ]>
                    result)
               (filter (fun d => isPublic d = true) coll) m !! c
               ≫= (fun inner => inner !! k)
             = match List.find (sameKey c k) coll with
               | Some d => if isPublic d then Some (value d)
                           else m !! c ≫= (fun inner => inner !! k)
               | None => m !! c ≫= (fun inner => inner !! k)
               end).
  { induction coll as [|d rest IH]; intros m Hnd; [reflexivity|].
    unfold indexKeys in Hnd. cbn [map] in Hnd.
    apply NoDup_cons in Hnd as [Hnot Hnd].
    rewrite filter_cons. cbn [List.find].
    destruct (decide (isPublic d = true)) as [Hp|Hp].
    - cbn [fold_left]. rewrite IH by exact Hnd. cbv zeta.
      destruct (sameKey c k d) eqn:Hs.
      + apply sameKey_iff in Hs.
        rewrite find_sameKey_None by (rewrite <- Hs; exact Hnot).
        injection Hs as Hc Hk. rewrite Hp, Hc, Hk.
        rewrite lookup_insert_eq. cbn. apply lookup_insert_eq.
      + assert (Hstep :
          <[ category d := <[ key d := value d ]> (default ∅ (m !! category d)) ]> m
            !! c ≫= (fun inner => inner !! k)
          = m !! c ≫= (fun inner => inner !! k)).
        { destruct (decide (category d = c)) as [Hc|Hc].
          - rewrite Hc, lookup_insert_eq. cbn.
            rewrite lookup_insert_ne.
            2:{ intros Hk.
                assert (sameKey c k d = true) by (apply sameKey_iff; congruence).
                congruence. }
            destruct (m !! c); [reflexivity|]. cbn. apply lookup_empty.
          - rewrite lookup_insert_ne by exact Hc. reflexivity. }
        rewrite Hstep. reflexivity.
    - rewrite IH by exact Hnd.
      destruct (sameKey c k d) eqn:Hs; [|reflexivity].
      apply not_true_is_false in Hp. rewrite Hp.
      apply sameKey_iff in Hs.
      rewrite find_sameKey_None by (rewrite <- Hs; exact Hnot). reflexivity. }
  intros Hnd. rewrite (H ∅ Hnd), lookup_empty. cbn.
  destruct (List.find (sameKey c k) coll) as [d|]; [|reflexivity].
  cbn. destruct (isPublic d); reflexivity.
Qed.

(** The upsert puts the new document among those that were there. *)
Lemma findOneAndUpdate_elem (new : doc V) coll d :
  d ∈ (findOneAndUpdate new coll).1 -> d = new \/ d ∈ coll.
Proof.
  induction coll as [|x rest IH]; cbn [findOneAndUpdate].
  - intros Hd. apply list_elem_of_singleton in Hd. left. exact Hd.
  - destruct (sameKey (category new) (key new) x).
    + cbn [fst]. intros Hd. apply elem_of_cons in Hd as [->|Hd];
        [left; reflexivity|right; apply list_elem_of_further, Hd].
    + destruct (findOneAndUpdate new rest) as [rest' r]. cbn [fst] in *.
      intros Hd. apply elem_of_cons in Hd as [->|Hd].
      * right. apply list_elem_of_here.
      * destruct (IH Hd) as [->|Hin]; [left; reflexivity|].
        right. apply list_elem_of_further, Hin.
Qed.

(** X26. Writing a setting and reading it back, for a category and a key
    that are ordinary names: the key is made of characters below 128 and
    [trim], which the schema applies, leaves it as it is; neither is a
    property name of [Object.prototype], and no such name is stored. On a
    collection that respects the unique index on category and key,
    [setSetting] keeps the index, the category read back holds the new value
    under the key, and every other key of every category reads as before.
    Whether the setting is among the public ones afterwards depends on this
    call alone: it is public exactly when the options say so, and a call
    without [isPublic] makes it private whatever it was. *)
Theorem setSetting_then_read (c k : string) (v : V) (adminId : nat)
    (options : optionsT) coll :
  Js.allChars Js.isAscii k = true ->
  Js.trim k = k ->
  Js.inObjectPrototype c = false ->
  Js.inObjectPrototype k = false ->
  plainNames coll ->
  NoDup (indexKeys coll) ->
  let coll' := (setSetting c k v adminId options coll).1 in
  NoDup (indexKeys coll') /\
  plainNames coll' /\
  getByCategory c coll' !! k = Some v /\
  getPublicSettings coll' !! c ≫= (fun inner => inner !! k)
  = (if default false (optIsPublic options) then Some v else None) /\
  forall c' k', (c', k') <> (c, k) ->
    getByCategory c' coll' !! k' = getByCategory c' coll !! k' /\
    getPublicSettings coll' !! c' ≫= (fun inner => inner !! k')
    = getPublicSettings coll !! c' ≫= (fun inner => inner !! k').
Proof.
  intros _ _ Hpc Hpk Hplain Hnd coll'. subst coll'. unfold setSetting.
  set (new := mkDoc c k v (default string_ (optType options))
                (default false (optIsPublic options))
                (default false (optIsRequired options)) adminId).
  destruct (findOneAndUpdate_find new coll) as (Hfind & Hother & Hkeys).
  cbn [category key new] in Hfind, Hother, Hkeys.
  assert (Hnd' : NoDup (indexKeys (findOneAndUpdate new coll).1)).
  { rewrite Hkeys. destruct (bool_decide _) eqn:Hin; [exact Hnd|].
    apply bool_decide_eq_false in Hin. apply NoDup_app. repeat split.
    - exact Hnd.
    - intros x Hx Hx'. apply list_elem_of_singleton in Hx'. congruence.
    - apply NoDup_singleton. }
  split; [exact Hnd'|]. split; [|split; [|split]].
  - intros d Hd. apply findOneAndUpdate_elem in Hd as [->|Hd].
    + split; [exact Hpc|exact Hpk].
    + apply Hplain, Hd.
  - rewrite getByCategory_lookup, Hfind by exact Hnd'. reflexivity.
  - rewrite getPublicSettings_lookup, Hfind by exact Hnd'. reflexivity.
  - intros c' k' Hne.
    rewrite !getByCategory_lookup, !getPublicSettings_lookup by assumption.
    rewrite (Hother c' k' Hne). split; reflexivity.
Qed.

End SettingsProps.

(** The theorem for a public site name that is written again without
    options: the new value is read back, and it is public no more. *)
Lemma setSetting_then_read_witness :
  let coll := [Settings.mkDoc "general" "siteName" "The White Barn FL"
                 Settings.string_ true true 1] in
  let coll' := (Settings.setSetting "general" "siteName" "The Barn" 2
                  (Settings.mkOptions None None None) coll).1 in
  Js.trim "siteName" = "siteName" /\
  Settings.plainNames coll /\
  Settings.getPublicSettings coll !! "general" ≫= (fun inner => inner !! "siteName")
  = Some "The White Barn FL" /\
  Settings.getByCategory "general" coll' !! "siteName" = Some "The Barn" /\
  Settings.getPublicSettings coll' !! "general" ≫= (fun inner => inner !! "siteName")
  = None.
Proof.
  intros coll coll'.
  assert (Hnd : NoDup (Settings.indexKeys coll))
    by (apply NoDup_singleton).
  assert (Hplain : Settings.plainNames coll).
  { intros d Hd. apply list_elem_of_singleton in Hd. subst d.
    split; reflexivity. }
  destruct (setSetting_then_read "general" "siteName" "The Barn" 2
              (Settings.mkOptions None None None) coll
              eq_refl eq_refl eq_refl eq_refl Hplain Hnd)
    as (_ & _ & Hread & Hpub & _).
  split; [reflexivity|]. split; [exact Hplain|].
  split; [reflexivity|]. split; [exact Hread|exact Hpub].
Defined.

(** ** The page report *)

Section ReportProps.
Import Analytics AnalyticsReports.

Lemma filter_all {B : Type} (P : B -> Prop) `{!forall x, Decision (P x)}
    (l : list B) :
  (forall x, x ∈ l -> P x) -> filter P l = l.
Proof.
  induction l as [|x l IH]; intros Hall; [reflexivity|].
  rewrite filter_cons_True by (apply Hall, list_elem_of_here).
  rewrite IH; [reflexivity|]. intros y Hy. apply Hall, list_elem_of_further, Hy.
Qed.

Lemma fold_left_sum {K : Type} (rows : list (K * N)) (a : N) :
  fold_left (fun sum row => (sum + row.2)%N) rows a
  = (a + foldr (fun r acc => (r.2 + acc)%N) 0%N rows)%N.
Proof.
  revert a. induction rows as [|r rows IH]; intros a; cbn [fold_left foldr].
  - lia.
  - rewrite IH. lia.
Qed.

Lemma foldr_sum_perm {K : Type} (rows rows' : list (K * N)) :
  rows ≡ₚ rows' ->
  foldr (fun r acc => (r.2 + acc)%N) 0%N rows
  = foldr (fun r acc => (r.2 + acc)%N) 0%N rows'.
Proof.
  induction 1 as [|x l l' _ IH|x y l|l l' l'' _ IH1 _ IH2]; cbn [foldr].
  - reflexivity.
  - rewrite IH. reflexivity.
  - lia.
  - congruence.
Qed.

Lemma toFixed1_ratio_bounds (v t : N) :
  (v <= t)%N -> (0 < t)%N ->
  0 <= toFixed1 (Js.percentOf v t) <= 1000.
Proof.
  intros Hvt Ht. pose proof (percentOf_bounds v t Hvt Ht) as [H0 H1].
  unfold toFixed1. set (y := Js.percentOf v t) in *.
  pose proof (Qfloor_le (y * 10 + (1 # 2))) as Hle.
  pose proof (Qlt_floor (y * 10 + (1 # 2))) as Hlt.
  set (n := Qfloor (y * 10 + (1 # 2))) in *.
  split.
  - assert (Hn : (inject_Z (-1) < inject_Z n)%Q).
    { rewrite inject_Z_plus in Hlt. change (inject_Z 1) with 1%Q in Hlt.
      change (inject_Z (-1)) with (-1 # 1)%Q. lra. }
    rewrite <- Zlt_Qlt in Hn. lia.
  - assert (Hn : (inject_Z n < inject_Z 1001)%Q).
    { change (inject_Z 1001) with (1001 # 1)%Q. lra. }
    rewrite <- Zlt_Qlt in Hn. lia.
Qed.

Lemma sum_ge_member {K : Type} (rows : list (K * N)) (r : K * N) :
  r ∈ rows -> (r.2 <= foldr (fun r acc => (r.2 + acc)%N) 0%N rows)%N.
Proof.
  induction rows as [|r' rows IH]; intros Hr.
  - destruct (not_elem_of_nil _ Hr).
  - cbn [foldr]. apply elem_of_cons in Hr as [->|Hr]; [lia|].
    specialize (IH Hr). lia.
Qed.

(** X27. The page report: [totalViews] is the number of page views since
    the start date that carry a page; every page with such a view has
    exactly one row, whose views are the number of those views on that page;
    and every percentage is a [toFixed(1)] string between 0.0 and 100.0. *)
Theorem page_report_counts (now daysNum : Z) (log : list event) :
  let startDate := now - daysNum * msPerDay in
  let report := getPageAnalytics now daysNum log in
  report.2 = N.of_nat (length (filter (fun e => pageMatch startDate e = true) log)) /\
  NoDup (map rowPage report.1) /\
  (forall e, e ∈ log -> pageMatch startDate e = true ->
     exists row, row ∈ report.1 /\ page e = Some (rowPage row)) /\
  (forall row, row ∈ report.1 ->
     views row
     = N.of_nat (length (filter (fun e => pageMatch startDate e = true
                                          /\ page e = Some (rowPage row)) log)) /\
     (0 < views row <= report.2)%N /\
     exists n, percentage row = Fixed1 n /\ 0 <= n <= 1000).
Proof.
  intros startDate report. subst report. unfold getPageAnalytics.
  fold startDate. cbn [fst snd].
  set (matched := filter (fun e => pageMatch startDate e = true) log).
  set (rows := groupCountBy page matched).
  assert (Hperm : pageStats startDate log ≡ₚ rows)
    by apply merge_sort_Permutation.
  set (sorted := pageStats startDate log) in *.
  set (totalViews := fold_left (fun sum row => (sum + row.2)%N) sorted 0%N).
  assert (Hsum : totalViews = foldr (fun r acc => (r.2 + acc)%N) 0%N sorted).
  { subst totalViews. rewrite fold_left_sum. lia. }
  assert (Htotal : totalViews = N.of_nat (length matched)).
  { rewrite Hsum, (foldr_sum_perm _ _ Hperm).
    pose proof (sum_groupCountBy page (fun _ => true) matched) as H.
    cbn beta iota in H. fold rows in H. rewrite H.
    f_equal. f_equal. apply filter_all. intros e _. reflexivity. }
  assert (Hpage : forall e, e ∈ matched -> is_Some (page e)).
  { intros e He. apply list_elem_of_filter in He as [He _].
    unfold pageMatch in He. apply andb_prop in He as [_ He].
    apply bool_decide_eq_true in He. exact He. }
  assert (Hrow : forall r, r ∈ sorted ->
            exists p, r.1 = Some p /\
              r.2 = N.of_nat (length (filter (fun e => page e = Some p) matched)) /\
              exists e, e ∈ matched /\ page e = Some p).
  { intros r Hr. rewrite Hperm in Hr. unfold rows, groupCountBy in Hr.
    apply list_elem_of_fmap in Hr as (k & -> & Hk).
    apply elem_of_remove_dups, list_elem_of_fmap in Hk as (e & -> & He).
    destruct (Hpage e He) as [p Hp]. exists p. cbn [fst snd].
    split; [exact Hp|]. rewrite Hp. split; [reflexivity|]. eauto. }
  split; [exact Htotal|]. split; [|split].
  - rewrite map_map. cbn [rowPage].
    assert (Hnd : NoDup (map fst sorted)).
    { rewrite Hperm. unfold rows, groupCountBy. rewrite map_map. cbn [fst].
      rewrite map_id. apply NoDup_remove_dups. }
    clear -Hnd Hrow. induction sorted as [|r l IH]; [apply NoDup_nil_2|].
    cbn [map] in *. apply NoDup_cons in Hnd as [Hnot Hnd].
    apply NoDup_cons. split.
    + intros Hin. apply Hnot. apply list_elem_of_fmap in Hin as (r' & Heq & Hr').
      apply list_elem_of_fmap. exists r'. split; [|exact Hr'].
      destruct (Hrow r (list_elem_of_here _ _)) as (p & Hp & _).
      destruct (Hrow r' (list_elem_of_further _ _ _ Hr')) as (p' & Hp' & _).
      rewrite Hp, Hp' in *. cbn in Heq. congruence.
    + apply IH; [|exact Hnd]. intros r' Hr'.
      apply Hrow, list_elem_of_further, Hr'.
  - intros e He Hm.
    assert (Hin : e ∈ matched) by (apply list_elem_of_filter; tauto).
    destruct (Hpage e Hin) as [p Hp].
    assert (Hk : (page e, N.of_nat (length (filter (fun e' => page e' = page e)
                                              matched))) ∈ sorted).
    { rewrite Hperm. unfold rows, groupCountBy.
      apply list_elem_of_fmap. exists (page e). split; [reflexivity|].
      apply elem_of_remove_dups, list_elem_of_fmap. eauto. }
    eexists. split.
    + apply list_elem_of_fmap. eexists. split; [reflexivity|exact Hk].
    + cbn [rowPage fst]. rewrite Hp. reflexivity.
  - intros row Hrow'. apply list_elem_of_fmap in Hrow' as (r & -> & Hr).
    destruct (Hrow r Hr) as (p & Hp & Hcount & e & He & Hpe).
    cbn [views rowPage percentage]. rewrite Hp. cbn [default].
    assert (Hle : (r.2 <= totalViews)%N)
      by (rewrite Hsum; apply sum_ge_member, Hr).
    assert (Hpos : (0 < r.2)%N).
    { rewrite Hcount.
      assert (Hin : e ∈ filter (fun e => page e = Some p) matched)
        by (apply list_elem_of_filter; tauto).
      destruct (filter (fun e => page e = Some p) matched);
        [destruct (not_elem_of_nil _ Hin)|cbn [length]; lia]. }
    split; [|split; [lia|]].
    + rewrite Hcount. unfold matched. rewrite list_filter_filter.
      f_equal. f_equal. apply filter_ext_in. intros e' _. tauto.
    + assert (Ht : (0 <? totalViews)%N = true) by (apply N.ltb_lt; lia).
      rewrite Ht. eexists. split; [reflexivity|].
      apply toFixed1_ratio_bounds; lia.
Qed.

End ReportProps.

(** The report of the scenario: one page, seen three times. *)
Lemma page_report_counts_witness :
  exists row,
    row ∈ (AnalyticsReports.getPageAnalytics Examples.noon 7
             Examples.scenarioLog).1 /\
    Analytics.page (Examples.view (Some "/home") "203.0.113.9"
                      (Examples.dayD + 1000))
    = Some (AnalyticsReports.rowPage row).
Proof.
  apply (proj1 (proj2 (proj2 (page_report_counts Examples.noon 7
                                Examples.scenarioLog)))).
  - vm_compute. apply list_elem_of_here.
  - vm_compute. reflexivity.
Defined.

(** ** The device and browser report *)

Section DeviceProps.
Import Analytics AnalyticsReports DeviceReport.

Lemma bump_keys (x : string) (acc : list (string * N)) :
  map fst (bump x acc)
  = (if bool_decide (x ∈ map fst acc) then map fst acc
     else map fst acc ++ [x])%list.
Proof.
  induction acc as [|[k n] rest IH]; cbn [bump map fst].
  - rewrite bool_decide_eq_false_2 by apply not_elem_of_nil. reflexivity.
  - destruct (String.eqb k x) eqn:Hk.
    + apply String.eqb_eq in Hk. subst k. cbn [map fst].
      rewrite bool_decide_eq_true_2 by apply list_elem_of_here. reflexivity.
    + apply String.eqb_neq in Hk. cbn [map fst]. rewrite IH.
      destruct (bool_decide (x ∈ map fst rest)) eqn:Hin.
      * apply bool_decide_eq_true in Hin.
        rewrite bool_decide_eq_true_2 by (apply list_elem_of_further, Hin).
        reflexivity.
      * apply bool_decide_eq_false in Hin.
        rewrite bool_decide_eq_false_2; [reflexivity|].
        rewrite elem_of_cons. intros [?|?]; [congruence|contradiction].
Qed.

Lemma bump_NoDup (x : string) (acc : list (string * N)) :
  NoDup (map fst acc) -> NoDup (map fst (bump x acc)).
Proof.
  intros Hnd. rewrite bump_keys.
  destruct (bool_decide (x ∈ map fst acc)) eqn:Hin; [exact Hnd|].
  apply bool_decide_eq_false in Hin. apply NoDup_app. repeat split.
  - exact Hnd.
  - intros y Hy Hy'. apply list_elem_of_singleton in Hy'. congruence.
  - apply NoDup_singleton.
Qed.

Lemma bump_elem (x : string) (acc : list (string * N)) (k : string) (n : N) :
  NoDup (map fst acc) ->
  ((k, n) ∈ bump x acc <->
   (k <> x /\ (k, n) ∈ acc) \/
   (k = x /\ ((~ x ∈ map fst acc /\ n = 1%N) \/
              exists m, (x, m) ∈ acc /\ n = (m + 1)%N))).
Proof.
  induction acc as [|[k0 n0] rest IH]; intros Hnd; cbn [bump map fst].
  - rewrite list_elem_of_singleton. split.
    + intros Heq. injection Heq as -> ->. right. split; [reflexivity|].
      left. split; [apply not_elem_of_nil|reflexivity].
    + intros [[_ Hin]|[Hkx [[_ Hn]|(m & Hin & _)]]].
      * destruct (not_elem_of_nil _ Hin).
      * subst. reflexivity.
      * destruct (not_elem_of_nil _ Hin).
  - cbn [map fst] in Hnd. apply NoDup_cons in Hnd as [Hnot Hnd].
    specialize (IH Hnd).
    assert (Hfst : forall m, ~ (k0, m) ∈ rest).
    { intros m Hin. apply Hnot. apply list_elem_of_fmap.
      exists (k0, m). split; [reflexivity|exact Hin]. }
    destruct (String.eqb k0 x) eqn:Hk.
    + apply String.eqb_eq in Hk. subst k0. split.
      * intros Hin. apply elem_of_cons in Hin as [Heq|Hin].
        -- injection Heq as -> ->. right. split; [reflexivity|]. right.
           exists n0. split; [apply list_elem_of_here|reflexivity].
        -- left. split; [intros ->; exact (Hfst n Hin)|].
           apply list_elem_of_further, Hin.
      * intros [[Hne Hin]|[Hkx [[Hno _]|(m & Hin & Hn)]]].
        -- apply elem_of_cons in Hin as [Heq|Hin].
           ++ injection Heq as Hk' _. congruence.
           ++ apply list_elem_of_further, Hin.
        -- destruct Hno. apply list_elem_of_here.
        -- apply elem_of_cons in Hin as [Heq|Hin].
           ++ injection Heq as ->. subst. apply list_elem_of_here.
           ++ destruct (Hfst m Hin).
    + apply String.eqb_neq in Hk. split.
      * intros Hin. apply elem_of_cons in Hin as [Heq|Hin].
        -- injection Heq as -> ->. left.
           split; [exact Hk|apply list_elem_of_here].
        -- apply IH in Hin as [[Hne Hin]|[Hkx [[Hno Hn]|(m & Hin & Hn)]]].
           ++ left. split; [exact Hne|apply list_elem_of_further, Hin].
           ++ right. split; [exact Hkx|]. left. split; [|exact Hn].
              intros Hin. apply elem_of_cons in Hin as [Heq|Hin];
                [congruence|contradiction].
           ++ right. split; [exact Hkx|]. right. exists m.
              split; [apply list_elem_of_further, Hin|exact Hn].
      * intros [[Hne Hin]|[Hkx [[Hno Hn]|(m & Hin & Hn)]]].
        -- apply elem_of_cons in Hin as [Heq|Hin].
           ++ rewrite Heq. apply list_elem_of_here.
           ++ apply list_elem_of_further, IH. left. split; assumption.
        -- apply list_elem_of_further, IH. right. split; [exact Hkx|]. left.
           split; [|exact Hn]. intros Hin. apply Hno.
           apply list_elem_of_further, Hin.
        -- apply elem_of_cons in Hin as [Heq|Hin].
           ++ injection Heq as Hk' _. congruence.
           ++ apply list_elem_of_further, IH. right. split; [exact Hkx|].
              right. exists m. split; assumption.
Qed.

Lemma bump_sum (x : string) (acc : list (string * N)) :
  foldr (fun r a => (r.2 + a)%N) 0%N (bump x acc)
  = (foldr (fun r a => (r.2 + a)%N) 0%N acc + 1)%N.
Proof.
  induction acc as [|[k n] rest IH]; cbn [bump foldr snd]; [lia|].
  destruct (String.eqb k x); cbn [foldr snd]; [lia|]. rewrite IH. lia.
Qed.

(** What [reduce] leaves in the object: one entry per name that occurs,
    with the number of its occurrences. *)
Lemma tally_spec (names : list string) :
  NoDup (map fst (tally names)) /\
  (forall k n, (k, n) ∈ tally names <->
     n = N.of_nat (length (filter (fun x => x = k) names)) /\ (0 < n)%N) /\
  foldr (fun r a => (r.2 + a)%N) 0%N (tally names) = N.of_nat (length names).
Proof.
  unfold tally. induction names as [|x names IH] using rev_ind.
  - cbn. split; [apply NoDup_nil_2|]. split; [|reflexivity].
    intros k n. split; [intros H; destruct (not_elem_of_nil _ H)|].
    intros [-> H]. lia.
  - rewrite fold_left_app. cbn [fold_left].
    set (acc := fold_left _ names []) in *.
    destruct IH as (Hnd & Hcount & Hsum).
    split; [apply bump_NoDup, Hnd|]. split.
    + intros k n. rewrite (bump_elem x acc k n Hnd).
      rewrite filter_app, length_app, filter_cons, filter_nil.
      assert (Hkeys : x ∈ map fst acc <->
                (0 < length (filter (fun y => y = x) names))%nat).
      { split.
        - intros Hin. apply list_elem_of_fmap in Hin as ([k' m] & -> & Hin).
          apply Hcount in Hin as [-> Hpos]. cbn [fst]. lia.
        - intros Hpos. apply list_elem_of_fmap.
          exists (x, N.of_nat (length (filter (fun y => y = x) names))).
          split; [reflexivity|]. apply Hcount. split; [reflexivity|lia]. }
      destruct (decide (x = k)) as [->|Hne]; cbn [length].
      * split.
        -- intros [[Hne _]|[_ [[Hno ->]|(m & Hin & ->)]]]; [congruence| |].
           ++ rewrite Hkeys in Hno. split; lia.
           ++ apply Hcount in Hin as [-> Hpos]. split; lia.
        -- intros [-> _]. right. split; [reflexivity|].
           destruct (decide (k ∈ map fst acc)) as [Hin|Hno].
           ++ right. exists (N.of_nat (length (filter (fun y => y = k) names))).
              split; [|lia]. apply Hcount. split; [reflexivity|].
              apply Hkeys in Hin. lia.
           ++ left. split; [exact Hno|]. rewrite Hkeys in Hno. lia.
      * rewrite Hcount. split.
        -- intros [[_ [-> Hpos]]|[-> _]]; [|congruence]. split; lia.
        -- intros [-> Hpos]. left. split; [congruence|]. split; lia.
    + rewrite bump_sum, Hsum, length_app. cbn [length]. lia.
Qed.

(** The entries of a report over the classes [cls] of the agents. *)
Lemma entries_tally_spec (cls : string -> string) (range : list string)
    (agents : list string) :
  (forall ua, cls ua ∈ range) ->
  (forall a b, a ∈ range -> b ∈ range -> capitalize a = capitalize b -> a = b) ->
  agents <> [] ->
  let report := entries (tally (map cls agents)) (N.of_nat (length (map cls agents))) in
  foldr (fun en a => (value en + a)%N) 0%N report = N.of_nat (length agents) /\
  NoDup (map name report) /\
  forall en, en ∈ report ->
    name en ∈ map capitalize range /\
    value en = N.of_nat (length (filter
                 (fun ua => capitalize (cls ua) = name en) agents)) /\
    (0 < value en)%N /\
    0 <= percentage en <= 1000.
Proof.
  intros Hrange Hinj Hne report. subst report.
  destruct (tally_spec (map cls agents)) as (Hnd & Hcount & Hsum).
  set (counts := tally (map cls agents)) in *.
  assert (Hkey : forall k n, (k, n) ∈ counts -> k ∈ range).
  { intros k n Hin. apply Hcount in Hin as [-> Hpos].
    destruct (filter (fun x => x = k) (map cls agents)) as [|y l] eqn:Hf;
      [cbn in Hpos; lia|].
    assert (Hy : y ∈ filter (fun x => x = k) (map cls agents))
      by (rewrite Hf; apply list_elem_of_here).
    apply list_elem_of_filter in Hy as [-> Hy].
    apply list_elem_of_fmap in Hy as (ua & -> & _). apply Hrange. }
  split; [|split].
  - assert (Hval : forall total (cs : list (string * N)),
              foldr (fun en a => (value en + a)%N) 0%N (entries cs total)
              = foldr (fun r a => (r.2 + a)%N) 0%N cs).
    { intros total cs. unfold entries.
      induction cs as [|r l IH]; cbn [map foldr value]; [reflexivity|].
      rewrite IH. reflexivity. }
    rewrite Hval, Hsum, length_map. reflexivity.
  - unfold entries. rewrite map_map. cbn [name].
    clear -Hnd Hkey Hinj. induction counts as [|[k n] l IH]; [apply NoDup_nil_2|].
    cbn [map fst] in *. apply NoDup_cons in Hnd as [Hnot Hnd].
    apply NoDup_cons. split.
    + intros Hin. apply list_elem_of_fmap in Hin as ([k' n'] & Heq & Hin).
      cbn [fst] in Heq. apply Hnot. apply list_elem_of_fmap. exists (k', n').
      split; [|exact Hin]. cbn [fst]. apply Hinj.
      * apply (Hkey k n), list_elem_of_here.
      * apply (Hkey k' n'), list_elem_of_further, Hin.
      * exact Heq.
    + apply IH; [exact Hnd|]. intros k' n' Hin.
      apply (Hkey k' n'), list_elem_of_further, Hin.
  - intros en Hen. unfold entries in Hen.
    apply list_elem_of_fmap in Hen as ([k n] & -> & Hin).
    cbn [name value percentage fst snd].
    pose proof (Hkey k n Hin) as Hk.
    apply Hcount in Hin as [Hn Hpos].
    assert (Hval : n = N.of_nat (length (filter
                     (fun ua => capitalize (cls ua) = capitalize k) agents))).
    { rewrite Hn. f_equal. clear -Hinj Hrange Hk.
      induction agents as [|ua l IH]; [reflexivity|].
      cbn [map]. rewrite !filter_cons.
      destruct (decide (cls ua = k)) as [He|He].
      - rewrite decide_True by (rewrite He; reflexivity).
        cbn [length]. rewrite IH. reflexivity.
      - rewrite decide_False; [exact IH|]. intros Hc. apply He.
        apply Hinj; [apply Hrange|exact Hk|exact Hc]. }
    split; [apply list_elem_of_fmap; eauto|]. split; [exact Hval|].
    split; [exact Hpos|].
    apply toFixed1_ratio_bounds.
    + rewrite Hn, length_map.
      pose proof (length_filter_le (fun x => x = k) (map cls agents)) as Hle.
      rewrite length_map in Hle. lia.
    + rewrite length_map. destruct agents; [congruence|cbn [length]; lia].
Qed.

Lemma deviceType_range ua : deviceType ua ∈ ["mobile"; "tablet"; "desktop"].
Proof.
  unfold deviceType. repeat destruct (regexMatch _ ua);
    repeat first [apply list_elem_of_here | apply list_elem_of_further].
Qed.

Lemma browser_range ua :
  browser ua ∈ ["chrome"; "firefox"; "safari"; "edge"; "other"].
Proof.
  unfold browser. repeat destruct (regexMatch _ ua);
    repeat first [apply list_elem_of_here | apply list_elem_of_further].
Qed.

Lemma capitalize_inj_on (range : list string) :
  NoDup (map capitalize range) ->
  forall a b, a ∈ range -> b ∈ range -> capitalize a = capitalize b -> a = b.
Proof.
  induction range as [|x l IH]; intros Hnd a b Ha Hb Heq.
  - destruct (not_elem_of_nil _ Ha).
  - cbn [map] in Hnd. apply NoDup_cons in Hnd as [Hnot Hnd].
    apply elem_of_cons in Ha as [->|Ha], Hb as [->|Hb].
    + reflexivity.
    + destruct Hnot. rewrite Heq. apply list_elem_of_fmap. eauto.
    + destruct Hnot. rewrite <- Heq. apply list_elem_of_fmap. eauto.
    + apply IH; assumption.
Qed.

Lemma device_names_NoDup :
  NoDup (map capitalize ["mobile"; "tablet"; "desktop"]).
Proof.
  cbn. repeat (apply NoDup_cons; split);
    rewrite ?elem_of_cons, ?elem_of_nil; try apply NoDup_nil_2;
    intros H; repeat destruct H as [H|H]; try discriminate; exact H.
Qed.

Lemma browser_names_NoDup :
  NoDup (map capitalize ["chrome"; "firefox"; "safari"; "edge"; "other"]).
Proof.
  cbn. repeat (apply NoDup_cons; split);
    rewrite ?elem_of_cons, ?elem_of_nil; try apply NoDup_nil_2;
    intros H; repeat destruct H as [H|H]; try discriminate; exact H.
Qed.

(** X28. The device and browser report. Every event since the start date
    that carries a user agent is counted once among the devices and once
    among the browsers: the values of each list add up to the number of
    those events. Each class has at most one entry, named Mobile, Tablet or
    Desktop (Chrome, Firefox, Safari, Edge or Other), whose value is the
    number of agents of that class and is positive, with a percentage
    between 0.0 and 100.0. Without such events both lists are empty. *)
Theorem device_report_counts (now daysNum : Z) (log : list event) :
  let agents := agentsSince (now - daysNum * msPerDay) log in
  let report := getDeviceAnalytics now daysNum log in
  foldr (fun en a => (value en + a)%N) 0%N report.1 = N.of_nat (length agents) /\
  foldr (fun en a => (value en + a)%N) 0%N report.2 = N.of_nat (length agents) /\
  NoDup (map name report.1) /\
  NoDup (map name report.2) /\
  (forall en, en ∈ report.1 ->
     name en ∈ ["Mobile"; "Tablet"; "Desktop"] /\
     value en = N.of_nat (length (filter
                  (fun ua => capitalize (deviceType ua) = name en) agents)) /\
     (0 < value en)%N /\ 0 <= percentage en <= 1000) /\
  (forall en, en ∈ report.2 ->
     name en ∈ ["Chrome"; "Firefox"; "Safari"; "Edge"; "Other"] /\
     value en = N.of_nat (length (filter
                  (fun ua => capitalize (browser ua) = name en) agents)) /\
     (0 < value en)%N /\ 0 <= percentage en <= 1000).
Proof.
  intros agents report. subst report. unfold getDeviceAnalytics. fold agents.
  destruct agents as [|ua rest] eqn:Hagents.
  - cbn [fst snd foldr map length]. split; [reflexivity|].
    split; [reflexivity|]. split; [apply NoDup_nil_2|].
    split; [apply NoDup_nil_2|].
    split; intros en Hen; destruct (not_elem_of_nil _ Hen).
  - rewrite <- Hagents.
    assert (Hne : agents <> []) by (subst agents; rewrite Hagents; discriminate).
    destruct (entries_tally_spec deviceType ["mobile"; "tablet"; "desktop"]
                agents deviceType_range
                (capitalize_inj_on _ device_names_NoDup)
                Hne) as (Hd1 & Hd2 & Hd3).
    destruct (entries_tally_spec browser
                ["chrome"; "firefox"; "safari"; "edge"; "other"]
                agents browser_range
                (capitalize_inj_on _ browser_names_NoDup)
                Hne) as (Hb1 & Hb2 & Hb3).
    cbv zeta in *. cbn [fst snd].
    split; [exact Hd1|]. split; [exact Hb1|]. split; [exact Hd2|].
    split; [exact Hb2|]. split; [exact Hd3|exact Hb3].
Qed.

End DeviceProps.

(** The report of the scenario: four events from one desktop agent. *)
Lemma device_report_counts_witness :
  exists en,
    en ∈ (DeviceReport.getDeviceAnalytics Examples.noon 7
            Examples.scenarioLog).1 /\
    DeviceReport.name en = "Desktop" /\ DeviceReport.value en = 4%N.
Proof.
  exists (DeviceReport.mkEntry "Desktop" 4 1000).
  assert (Hin : DeviceReport.mkEntry "Desktop" 4 1000
                ∈ (DeviceReport.getDeviceAnalytics Examples.noon 7
                     Examples.scenarioLog).1)
    by (vm_compute; apply list_elem_of_here).
  split; [exact Hin|].
  destruct (proj1 (proj2 (proj2 (proj2 (proj2
              (device_report_counts Examples.noon 7 Examples.scenarioLog)))))
              _ Hin) as (Hname & Hval & _).
  split; [reflexivity|reflexivity].
Defined.

(** ** The performance report of the partners *)

Section PartnerReportProps.
Import Db PartnerAnalytics.

Lemma at_most_one_partner (ps : list Partner.doc) (rc : string) :
  NoDup (omap Partner.code ps) ->
  (length (filter (fun p => Partner.code p = Some rc) ps) <= 1)%nat.
Proof.
  induction ps as [|p ps IH]; intros Hnd; [cbn; lia|].
  cbn [omap list_omap] in Hnd. fold (omap Partner.code ps) in Hnd.
  rewrite filter_cons.
  destruct (Partner.code p) as [c0|] eqn:Hc.
  - apply NoDup_cons in Hnd as [Hnot Hnd]. specialize (IH Hnd).
    destruct (decide (Some c0 = Some rc)) as [Heq|Hne]; [|exact IH].
    injection Heq as ->. cbn [length].
    rewrite filter_none; [cbn; lia|].
    intros q Hq Hcq. apply Hnot. apply list_elem_of_omap. eauto.
  - rewrite decide_False by discriminate. apply IH, Hnd.
Qed.

Lemma length_flat_map {A B : Type} (f : A -> list B) (l : list A) :
  length (flat_map f l)
  = foldr (fun x acc => (length (f x) + acc)%nat) 0%nat l.
Proof.
  induction l as [|x l IH]; [reflexivity|].
  cbn [flat_map foldr]. rewrite length_app, IH. reflexivity.
Qed.

Lemma filter_flat_map {A B : Type} (P : B -> Prop) `{!forall y, Decision (P y)}
    (f : A -> list B) (l : list A) :
  filter P (flat_map f l) = flat_map (fun x => filter P (f x)) l.
Proof.
  induction l as [|x l IH]; [reflexivity|].
  cbn [flat_map]. rewrite filter_app, IH. reflexivity.
Qed.

Lemma count_ones {A : Type} (g : A -> nat) (f : A -> bool) (l : list A) :
  (forall x, x ∈ l -> g x = if f x then 1%nat else 0%nat) ->
  foldr (fun x acc => (g x + acc)%nat) 0%nat l
  = length (filter (fun x => f x = true) l).
Proof.
  induction l as [|x l IH]; intros Hg; [reflexivity|].
  cbn [foldr]. rewrite filter_cons, (Hg x (list_elem_of_here _ _)).
  rewrite IH by (intros y Hy; apply Hg, list_elem_of_further, Hy).
  destruct (f x); [rewrite decide_True by reflexivity|
                   rewrite decide_False by discriminate]; reflexivity.
Qed.

(** The join keeps a lead once if its code resolves and drops it
    otherwise. *)
Lemma joined_per_lead (ps : list Partner.doc)
    (partnerType : option Partner.partnerType) (c : Contact.doc) :
  NoDup (omap Partner.code ps) ->
  matchStage c = true ->
  length (filter (fun p => typeOk partnerType p = true)
            (filter (fun p => Partner.code p = Contact.refCode c) ps))
  = if resolved ps partnerType c then 1%nat else 0%nat.
Proof.
  intros Hnd Hm. unfold resolved. rewrite Hm. cbn [andb].
  unfold matchStage in Hm. apply bool_decide_eq_true in Hm as [rc Hrc].
  pose proof (at_most_one_partner ps rc Hnd) as Hone. rewrite Hrc.
  rewrite list_filter_filter.
  set (P := fun p => typeOk partnerType p = true /\ Partner.code p = Some rc).
  assert (Hle : (length (filter P ps) <= 1)%nat).
  { etransitivity; [|exact Hone].
    apply length_filter_mono. intros p [_ Hp]. exact Hp. }
  destruct (existsb _ ps) eqn:Hex.
  - apply existsb_exists in Hex as (p & Hin & Hp).
    apply andb_prop in Hp as [Hc Ht]. apply bool_decide_eq_true in Hc.
    assert (HP : P p) by (split; [exact Ht|exact Hc]).
    assert (Hmem : p ∈ filter P ps)
      by (apply list_elem_of_filter; split; [exact HP|apply list_elem_of_In, Hin]).
    destruct (filter P ps) as [|q l];
      [destruct (not_elem_of_nil _ Hmem)|cbn [length] in *; lia].
  - destruct (filter P ps) as [|q l] eqn:Hf; [reflexivity|].
    assert (Hmem : q ∈ filter P ps) by (rewrite Hf; apply list_elem_of_here).
    apply list_elem_of_filter in Hmem as [[Ht Hc] Hin].
    assert (Hex' : existsb
              (fun p => bool_decide (Partner.code p = Some rc) &&
                        typeOk partnerType p) ps = true).
    { apply existsb_exists. exists q. split; [apply list_elem_of_In, Hin|].
      apply andb_true_intro. split; [apply bool_decide_eq_true, Hc|exact Ht]. }
    congruence.
Qed.

Lemma groupRows_sum (joined : list (Contact.doc * Partner.doc)) :
  foldr (fun r acc => (totalLeads r + acc)%N) 0%N (groupRows joined)
  = N.of_nat (length joined).
Proof.
  unfold groupRows.
  transitivity
    (foldr (fun k acc =>
              (N.of_nat (length (filter (fun cp => keyOf cp = k) joined))
               + acc)%N) 0%N (remove_dups (map keyOf joined))).
  { induction (remove_dups (map keyOf joined)) as [|k ks IH];
      [reflexivity|].
    cbn [map foldr totalLeads]. rewrite IH, length_map. reflexivity. }
  pose proof (sum_counts_by keyOf (fun _ => true) joined
                (remove_dups (map keyOf joined)) (NoDup_remove_dups _)) as Hs.
  cbn beta iota in Hs. rewrite Hs.
  f_equal. f_equal. apply filter_all. intros cp Hcp. split; [reflexivity|].
  apply elem_of_remove_dups, list_elem_of_fmap. eauto.
Qed.

Lemma groupRows_bounds (joined : list (Contact.doc * Partner.doc)) (r : row) :
  r ∈ groupRows joined ->
  (0 < totalLeads r)%N /\ (totalTours r <= totalLeads r)%N /\
  (totalBookings r <= totalLeads r)%N /\
  (0 <= conversionRate r)%Q /\ (conversionRate r <= 100)%Q.
Proof.
  unfold groupRows. intros Hr.
  apply list_elem_of_fmap in Hr as (k & -> & Hk).
  cbn [totalLeads totalTours totalBookings conversionRate].
  set (members := map fst (filter (fun cp => keyOf cp = k) joined)).
  assert (Hpos : (0 < N.of_nat (length members))%N).
  { apply elem_of_remove_dups, list_elem_of_fmap in Hk as (cp & -> & Hcp).
    assert (Hin : cp ∈ filter (fun cp' => keyOf cp' = keyOf cp) joined)
      by (apply list_elem_of_filter; tauto).
    subst members. rewrite length_map.
    destruct (filter _ joined); [destruct (not_elem_of_nil _ Hin)|cbn; lia]. }
  assert (Ht : (count Contact.tourScheduled members
                <= N.of_nat (length members))%N).
  { unfold count.
    pose proof (length_filter_le
                  (fun x => Contact.tourScheduled x = true) members). lia. }
  assert (Hb : (count Contact.booked members <= N.of_nat (length members))%N).
  { unfold count.
    pose proof (length_filter_le (fun x => Contact.booked x = true) members).
    lia. }
  split; [exact Hpos|]. split; [exact Ht|]. split; [exact Hb|].
  apply N.ltb_lt in Hpos as Hpos'. rewrite Hpos'.
  apply percentOf_bounds; assumption.
Qed.

(** X29. The performance report, for a request without date bounds that
    does not group by month or week. With the unique index on the partner
    codes, the lead counts of the rows add up to the number of leads whose
    code is carried by a stored partner (of the type asked for, if any),
    while the summary counts every lead that carries a code, resolved or
    not; so the rows never add up to more than the summary. In every row
    the leads are positive, tours and bookings are at most the leads, and
    the conversion rate lies between 0 and 100. *)
Theorem partner_report_totals (w : world)
    (partnerType : option Partner.partnerType) :
  failing w ContactFindById = false ->
  NoDup (omap Partner.code (partners w)) ->
  let leads := map snd (map_to_list (contacts w)) in
  exists rows summary,
    getPartnerAnalytics partnerType w = (w, Ok (Report rows summary)) /\
    sumLeads summary = count matchStage leads /\
    foldr (fun r acc => (totalLeads r + acc)%N) 0%N rows
    = count (resolved (partners w) partnerType) leads /\
    (count (resolved (partners w) partnerType) leads <= sumLeads summary)%N /\
    forall r, r ∈ rows ->
      (0 < totalLeads r)%N /\ (totalTours r <= totalLeads r)%N /\
      (totalBookings r <= totalLeads r)%N /\
      (0 <= conversionRate r)%Q /\ (conversionRate r <= 100)%Q.
Proof.
  intros Hf Hnd leads.
  set (matched := filter (fun c => matchStage c = true) leads).
  set (joined0 := lookupUnwind (partners w) matched).
  set (joined := match partnerType with
                 | Some t => filter (fun cp => Partner.type cp.2 = t) joined0
                 | None => joined0
                 end).
  exists (groupRows joined).
  exists (match matched with
          | [] => mkSummary 0 0 0 0
          | _ :: _ => mkSummary (N.of_nat (length matched))
                        (count Contact.tourScheduled matched)
                        (count Contact.booked matched) (revenue matched)
          end).
  split.
  { unfold getPartnerAnalytics, Contact_aggregate. run. rewrite Hf. simpl.
    rewrite Hf. simpl. reflexivity. }
  assert (Hsum : sumLeads (match matched with
          | [] => mkSummary 0 0 0 0
          | _ :: _ => mkSummary (N.of_nat (length matched))
                        (count Contact.tourScheduled matched)
                        (count Contact.booked matched) (revenue matched)
          end) = count matchStage leads).
  { unfold count. fold matched. destruct matched; reflexivity. }
  assert (Hjoined : length joined
                    = length (filter (fun c => resolved (partners w) partnerType c
                                               = true) leads)).
  { assert (Hj : joined
             = flat_map
                 (fun c => map (fun p => (c, p))
                    (filter (fun p => typeOk partnerType p = true)
                       (filter (fun p => Partner.code p = Contact.refCode c)
                          (partners w))))
                 matched).
    { subst joined joined0. unfold lookupUnwind.
      destruct partnerType as [t|].
      - rewrite filter_flat_map. apply flat_map_ext. intros c.
        generalize (filter (fun p => Partner.code p = Contact.refCode c)
                      (partners w)).
        intros l. induction l as [|p l IH]; [reflexivity|].
        cbn [map]. rewrite !filter_cons. cbn [snd typeOk].
        destruct (decide (Partner.type p = t)) as [Ht|Ht].
        + rewrite decide_True by (apply bool_decide_eq_true, Ht).
          cbn [map]. rewrite IH. reflexivity.
        + rewrite decide_False
            by (intros Hb; apply bool_decide_eq_true in Hb; contradiction).
          exact IH.
      - apply flat_map_ext. intros c. f_equal. symmetry.
        apply filter_all. intros p _. reflexivity. }
    rewrite Hj, length_flat_map.
    rewrite (count_ones _ (resolved (partners w) partnerType)).
    2:{ intros c Hc. rewrite length_map.
        apply joined_per_lead; [exact Hnd|].
        apply list_elem_of_filter in Hc as [Hc _]. exact Hc. }
    subst matched. rewrite list_filter_filter. f_equal.
    apply filter_ext_in. intros c _. unfold resolved.
    rewrite andb_true_iff. tauto. }
  split; [exact Hsum|]. split; [|split].
  - rewrite groupRows_sum, Hjoined. reflexivity.
  - rewrite Hsum. unfold count.
    pose proof (length_filter_mono
                  (fun c => resolved (partners w) partnerType c = true)
                  (fun c => matchStage c = true) leads) as Hm.
    assert (Himp : forall c, resolved (partners w) partnerType c = true ->
                             matchStage c = true).
    { intros c Hc. unfold resolved in Hc. apply andb_prop in Hc as [Hc _].
      exact Hc. }
    specialize (Hm Himp). lia.
  - intros r Hr. apply (groupRows_bounds joined r Hr).
Qed.

End PartnerReportProps.

(** The theorem for the sample store, in which both leads carry Jane's
    code. *)
Lemma partner_report_totals_witness :
  exists rows summary,
    PartnerAnalytics.getPartnerAnalytics None Samples.wTwoLeads
    = (Samples.wTwoLeads, Db.Ok (PartnerAnalytics.Report rows summary)) /\
    PartnerAnalytics.sumLeads summary = 2%N /\
    foldr (fun r acc => (PartnerAnalytics.totalLeads r + acc)%N) 0%N rows = 2%N.
Proof.
  assert (Hnd : NoDup (omap Partner.code (Db.partners Samples.wTwoLeads))).
  { cbn. repeat (apply NoDup_cons; split);
      rewrite ?elem_of_cons, ?elem_of_nil; try apply NoDup_nil_2;
      intros H; repeat destruct H as [H|H]; try discriminate; exact H. }
  destruct (partner_report_totals Samples.wTwoLeads None eq_refl Hnd)
    as (rows & summary & Hrun & Hsum & Hrows & _).
  exists rows, summary. split; [exact Hrun|].
  split; [rewrite Hsum|rewrite Hrows]; vm_compute; reflexivity.
Defined.

(** ** From the QR code to the attributed lead *)

Section QrProps.
Import Db ContactController PartnerQR.

Lemma toUpperCase_nonempty s : s <> "" -> Js.toUpperCase s <> "".
Proof. destruct s; [congruence|discriminate]. Qed.

(** A submission whose code resolves, on a store that works. *)
Lemma submit_resolved (w : world) (fields : list (string * string))
    (rc : string) (p : Partner.doc) :
  rc <> "" ->
  findActiveByCode (partners w) rc = Some p ->
  failing w PartnerFindOne = false ->
  failing w PartnerSave = false ->
  failing w ContactCreate = false ->
  exists id c,
    (submitContactForm (mkSubmitReq [] fields (Some rc)) w).2
    = Ok (Json 201 (Submitted id)) /\
    contacts (submitContactForm (mkSubmitReq [] fields (Some rc)) w).1 !! id
    = Some c /\
    Contact.fields c = fields /\
    Contact.refSource c = Some (Partner.type p) /\
    Contact.refCode c = Some (Js.toUpperCase rc).
Proof.
  intros Hne Hp Hf Hs Hc. run.
  apply String.eqb_neq in Hne. rewrite Hne. simpl.
  rewrite Hf. simpl. rewrite Hp. simpl. rewrite Hs. simpl. rewrite Hc. simpl.
  eexists _, _. split; [reflexivity|].
  split; [apply lookup_insert_eq|]. split; [reflexivity|].
  split; reflexivity.
Qed.

(** X30. The code in a partner's QR link attributes the lead. When
    [generatePartnerQR] answers with an image, the store is unchanged, the
    encoded URL is the referral URL of an active partner found under the
    code, and a form submitted with the [ref] value of that URL is stored as
    a lead with this partner's type as source and this partner's stored
    code, in whatever letter case the QR code was asked for. *)
Theorem qr_link_attributes_lead (qrFails : string -> bool)
    (frontendUrl : option string) (code : string) (page : option string)
    (w w' : world) (url filename : string) (fields : list (string * string)) :
  generatePartnerQR qrFails frontendUrl code page w
  = (w', Ok (Png url filename)) ->
  failing w PartnerSave = false ->
  failing w ContactCreate = false ->
  w' = w /\
  exists p baseUrl,
    findActiveByCode (partners w) code = Some p /\
    url = referralUrl baseUrl (default "weddings" page) code (Partner.type p) /\
    Partner.code p = Some (refParam code) /\
    let req := mkSubmitReq [] fields (Some (refParam code)) in
    exists id c,
      (submitContactForm req w).2 = Ok (Json 201 (Submitted id)) /\
      contacts (submitContactForm req w).1 !! id = Some c /\
      Contact.fields c = fields /\
      Contact.refSource c = Some (Partner.type p) /\
      Contact.refCode c = Partner.code p.
Proof.
  intros Hqr Hs Hc.
  assert (Hsub : forall p, code <> "" -> failing w PartnerFindOne = false ->
            findActiveByCode (partners w) code = Some p ->
            exists id c,
              (submitContactForm (mkSubmitReq [] fields (Some (refParam code))) w).2
              = Ok (Json 201 (Submitted id)) /\
              contacts (submitContactForm
                          (mkSubmitReq [] fields (Some (refParam code))) w).1 !! id
              = Some c /\
              Contact.fields c = fields /\
              Contact.refSource c = Some (Partner.type p) /\
              Contact.refCode c = Partner.code p).
  { intros p Hcode Hf Hp. unfold refParam.
    destruct (findActiveByCode_Some _ _ _ Hp) as [Hpc _].
    assert (Hp' : findActiveByCode (partners w) (Js.toUpperCase code) = Some p).
    { unfold findActiveByCode in *. rewrite toUpperCase_idem. exact Hp. }
    destruct (submit_resolved w fields (Js.toUpperCase code) p
                (toUpperCase_nonempty code Hcode) Hp' Hf Hs Hc)
      as (id & c & H1 & H2 & H3 & H4 & H5).
    exists id, c. rewrite toUpperCase_idem in H5.
    rewrite Hpc. auto. }
  unfold generatePartnerQR in Hqr. clear Hs Hc. run.
  destruct (String.eqb code "") eqn:Hcode; simpl in Hqr; [discriminate|].
  apply String.eqb_neq in Hcode.
  destruct (failing w PartnerFindOne) eqn:Hf; simpl in Hqr; [discriminate|].
  destruct (findActiveByCode (partners w) code) as [p|] eqn:Hp; simpl in Hqr;
    [|discriminate].
  set (baseUrl := match frontendUrl with
                  | Some u => if negb (String.eqb u "") then u
                              else "https://thewhitebarnfl.com"
                  | None => "https://thewhitebarnfl.com"
                  end) in *.
  destruct (qrFails _) eqn:Hq; simpl in Hqr; [discriminate|].
  injection Hqr as <- <- <-. split; [reflexivity|].
  destruct (findActiveByCode_Some _ _ _ Hp) as [Hpc _].
  exists p, baseUrl. split; [reflexivity|]. split; [reflexivity|].
  split; [exact Hpc|]. cbv zeta. apply Hsub; [exact Hcode|reflexivity|reflexivity].
Qed.

End QrProps.

(** The theorem for the QR code of [Examples.jane], asked for in lower
    case. *)
Lemma qr_link_attributes_lead_witness :
  exists url filename,
    PartnerQR.generatePartnerQR (fun _ => false) None "twbfl-janedoex7k" None
      Examples.w0
    = (Examples.w0, Db.Ok (PartnerQR.Png url filename)) /\
    exists id c,
      Db.contacts
        (ContactController.submitContactForm
           (ContactController.mkSubmitReq [] [("name", "Alex")]
              (Some (PartnerQR.refParam "twbfl-janedoex7k")))
           Examples.w0).1 !! id = Some c /\
      Contact.refCode c = Some Examples.janeCode.
Proof.
  eexists _, _. split; [reflexivity|].
  destruct (qr_link_attributes_lead (fun _ => false) None "twbfl-janedoex7k"
              None Examples.w0 Examples.w0 _ _ [("name", "Alex")]
              eq_refl eq_refl eq_refl)
    as (_ & p & baseUrl & Hp & _ & Hcode & id & c & _ & Hc & _ & _ & Href).
  exists id, c. split; [exact Hc|].
  rewrite Href, Hcode. reflexivity.
Defined.
